(** * Temporal event model: a shallow embedding of [reference/python/temporal.py]

    The Python module folds a log of timestamped events of one entity into
    snapshots ([apply_event], [derive_snapshot]), diffs two snapshots
    ([compute_diff]), orders a log ([build_timeline]) and validates it
    ([validate_event], [validate_timeline]).

    Events and snapshots are the fixed-shape dictionaries of the data model and
    are embedded as records; payloads and states are open dictionaries of
    JSON-like values and are embedded as association lists over a tagged
    union, in insertion order as Python keeps them (the order [items()] and
    [**] run in).  Python exceptions are an explicit [result] type, so that the
    [try]/[except ValueError] of the validator can tell the failures it
    catches from the ones it lets through.  [deepcopy] is the identity on
    immutable values. *)

From Stdlib Require Import String Ascii List ZArith NArith Bool Arith Lia.
From Stdlib Require Import SpecFloat.
From Stdlib Require Import Permutation Sorted RelationClasses OrdersEx.
Import ListNotations.

Local Open Scope string_scope.
Local Open Scope list_scope.

(** ** Python values *)

Module Py.

(** JSON-representable Python values.  A float is an IEEE 754 binary64 number,
  given by its specification [spec_float], together with the identity of the
  float object: Python compares the items of a list or a dictionary with
  [x is y or x == y], and a NaN is unequal to itself but identical to
  itself.  A dictionary keeps its insertion order, as Python's does. *)
#[warnings="-register-all"]
Inductive value : Type :=
| VNone
| VBool (b : bool)
| VInt (n : Z)
| VFloat (obj : N) (f : spec_float)
| VStr (s : string)
| VList (items : list value)
| VDict (entries : list (string * value)).

Definition dict : Type := list (string * value).

(** [d.get(k)] as an option; the first binding of a key is the binding. *)
Fixpoint dict_get (d : dict) (k : string) : option value :=
match d with
| [] => None
| (k', v) :: d' => if String.eqb k k' then Some v else dict_get d' k
end.

(** [d.get(k, dflt)]; with [VNone] for [dflt] it is [d.get(k)]. *)
Definition get_or (d : dict) (k : string) (dflt : value) : value :=
match dict_get d k with
| Some v => v
| None => dflt
end.

(** [k in d] *)
Definition dict_mem (d : dict) (k : string) : bool :=
match dict_get d k with
| Some _ => true
| None => false
end.

(** [d[k] = v]: an existing key keeps its position, a new key goes last. *)
Fixpoint dict_set (d : dict) (k : string) (v : value) : dict :=
match d with
| [] => [(k, v)]
| (k', v') :: d' =>
    if String.eqb k k' then (k', v) :: d' else (k', v') :: dict_set d' k v
end.

(** [for key, value in src.items(): d[key] = value], also [{**d, **src}]. *)
Definition dict_update (d src : dict) : dict :=
fold_left (fun acc kv => dict_set acc (fst kv) (snd kv)) src d.

Definition keys (d : dict) : list string := map fst d.

(** [math.isnan], on a value. *)
Definition is_nan (v : value) : bool :=
match v with
| VFloat _ S754_nan => true
| _ => false
end.

(** [x is y], as far as [==] can tell the difference: on two NaNs.  For any
  other pair of values identity implies equality, so that the shortcut
  [x is y or x == y] changes nothing there. *)
Definition same_nan (a b : value) : bool :=
match a, b with
| VFloat i S754_nan, VFloat j S754_nan => N.eqb i j
| _, _ => false
end.

(** [n == f] for an integer and a float: Python compares the exact values. *)
Definition int_eq_float (n : Z) (f : spec_float) : bool :=
match f with
| S754_zero _ => Z.eqb n 0
| S754_finite s m e =>
    let v := if s then Z.neg m else Z.pos m in
    if Z.leb 0 e
    then Z.eqb n (v * 2 ^ e)
    else Z.eqb (n * 2 ^ (- e)) v
| _ => false
end.

(** Python's [==] on these values.  [bool] is a subclass of [int], so [True == 1]
  and [False == 0]; numbers compare by value, a NaN being unequal to every
  float; lists compare item by item and in order; dictionaries compare by
  size and then key by key, whatever the insertion order; and two items are
  taken for equal when they are identical or equal. *)
Fixpoint py_eq (a b : value) {struct a} : bool :=
match a, b with
| VNone, VNone => true
| VBool x, VBool y => Bool.eqb x y
| VBool x, VInt n => Z.eqb (Z.b2z x) n
| VInt n, VBool y => Z.eqb n (Z.b2z y)
| VInt n, VInt m => Z.eqb n m
| VBool x, VFloat _ g => int_eq_float (Z.b2z x) g
| VFloat _ f, VBool y => int_eq_float (Z.b2z y) f
| VInt n, VFloat _ g => int_eq_float n g
| VFloat _ f, VInt m => int_eq_float m f
| VFloat _ f, VFloat _ g => SFeqb f g
| VStr s, VStr t => String.eqb s t
| VList xs, VList ys =>
    (fix items_eq (xs ys : list value) {struct xs} : bool :=
       match xs, ys with
       | [], [] => true
       | x :: xs', y :: ys' =>
           (same_nan x y || py_eq x y) && items_eq xs' ys'
       | _, _ => false
       end) xs ys
| VDict d1, VDict d2 =>
    Nat.eqb (List.length d1) (List.length d2) &&
    (fix entries_eq (d : list (string * value)) {struct d} : bool :=
       match d with
       | [] => true
       | (k, v) :: d' =>
           match dict_get d2 k with
           | Some w => same_nan v w || py_eq v w
           | None => false
           end && entries_eq d'
       end) d1
| _, _ => false
end.

(** Equality of two items of a list or of two values of a dictionary. *)
Definition item_eq (a b : value) : bool := same_nan a b || py_eq a b.

Definition py_ne (a b : value) : bool := negb (py_eq a b).

(** Every Python dictionary has pairwise distinct keys; an association list
  need not.  [unique_keys] is that representation invariant, at every depth. *)
Fixpoint distinct (l : list string) : bool :=
match l with
| [] => true
| k :: l' => negb (existsb (String.eqb k) l') && distinct l'
end.

Fixpoint unique_keys (v : value) : bool :=
match v with
| VList items => forallb unique_keys items
| VDict entries =>
    distinct (map fst entries) &&
    forallb (fun kv => unique_keys (snd kv)) entries
| _ => true
end.

Definition unique_keys_dict (d : dict) : bool := unique_keys (VDict d).

(** No field of the dictionary is a NaN (a NaN inside a list or a dictionary
    that is the value of a field does not count). *)
Definition no_nan_field (d : dict) : bool :=
  forallb (fun kv => negb (is_nan (snd kv))) d.

(** The f-strings of the module, as the template and what is interpolated. *)
Inductive action : Type := Update | Delete | AddRelationship | RemoveRelationship.

Inductive message : Type :=
| AlreadyExists (entity_id : string)
  (* Cannot create {entity_id}: already exists *)
| DoesNotExist (act : action) (entity_id : string)
  (* Cannot {update|delete|add relationship to|remove relationship from}
     {entity_id}: does not exist *)
| HasBeenDeleted (act : action) (entity_id : string)
  (* Cannot ... {entity_id}: has been deleted (already deleted, for delete) *)
| RelationshipNotFound (rel_type target : value)
  (* Relationship not found: {rel_type} -> {target} *)
| UnknownEventType (event_type : string)
  (* Unknown event type: {event_type} *)
| InvalidIsoformat (s : string).
  (* raised by datetime.fromisoformat *)

Inductive exn : Type :=
| ValueError (m : message)
| AttributeError
| TypeError.

Inductive result (A : Type) : Type :=
| Ok (a : A)
| Raise (e : exn).
Arguments Ok {A} a.
Arguments Raise {A} e.

Definition bind {A B : Type} (r : result A) (k : A -> result B) : result B :=
match r with
| Ok a => k a
| Raise e => Raise e
end.

End Py.

Import Py.

Notation "x <- r ;; k" := (bind r (fun x => k))
  (at level 61, r at next level, right associativity).

(** ** The data model *)

(** An event: a dictionary with the five fields [id], [entity_id],
    [event_type], [timestamp] and [payload].  Since [payload] is a field of the
    record, the default of [event.get("payload", {})] is never taken. *)
Module Event.
Record t : Type := mk {
  id : string;
  entity_id : string;
  event_type : string;
  timestamp : string;
  payload : dict
}.
End Event.

(** A snapshot: the dictionary every branch of [apply_event] returns.  Since
    [deleted] is a field, [snapshot.get("deleted", False)] reads that field. *)
Module Snapshot.
Record t : Type := mk {
  entity_id : string;
  as_of : string;
  state : dict;
  last_event_id : string;
  deleted : bool
}.

(** [snapshot["as_of"] = as_of] *)
Definition set_as_of (s : t) (ts : string) : t :=
  mk (entity_id s) ts (state s) (last_event_id s) (deleted s).
End Snapshot.

(** ** Event application *)

(** What iterating over a value yields: the items of a list, the characters of
    a string, the keys of a dictionary; anything else is not iterable. *)
Fixpoint chars (s : string) : list value :=
  match s with
  | EmptyString => []
  | String c s' => VStr (String c EmptyString) :: chars s'
  end.

Definition py_iter (v : value) : result (list value) :=
  match v with
  | VList items => Ok items
  | VStr s => Ok (chars s)
  | VDict entries => Ok (map (fun kv => VStr (fst kv)) entries)
  | _ => Raise TypeError
  end.

(** [r.get("target") == target and r.get("type") == rel_type]; only a
    dictionary has [get]. *)
Definition rel_matches (target rel_type : value) (r : value) : result bool :=
  match r with
  | VDict rd =>
      Ok (py_eq (get_or rd "target" VNone) target &&
          py_eq (get_or rd "type" VNone) rel_type)
  | _ => Raise AttributeError
  end.

(** [[r for r in relationships if not (...)]], over the items already
    obtained from the iteration. *)
Fixpoint keep_unmatched (target rel_type : value) (rs : list value)
  : result (list value) :=
  match rs with
  | [] => Ok []
  | r :: rs' =>
      m <- rel_matches target rel_type r ;;
      kept <- keep_unmatched target rel_type rs' ;;
      Ok (if m then kept else r :: kept)
  end.

Definition apply_event (snapshot : option Snapshot.t) (event : Event.t)
  : result Snapshot.t :=
  let event_type := Event.event_type event in
  let entity_id := Event.entity_id event in
  let payload := Event.payload event in
  let produce (st : dict) (del : bool) : Snapshot.t :=
    Snapshot.mk entity_id (Event.timestamp event) st (Event.id event) del in
  if event_type =? "created" then
    match snapshot with
    | Some s =>
        if negb (Snapshot.deleted s)
        then Raise (ValueError (AlreadyExists entity_id))
        else Ok (produce payload false)
    | None => Ok (produce payload false)
    end
  else if event_type =? "updated" then
    match snapshot with
    | None => Raise (ValueError (DoesNotExist Update entity_id))
    | Some s =>
        if Snapshot.deleted s
        then Raise (ValueError (HasBeenDeleted Update entity_id))
        else
          let new_state := dict_update (Snapshot.state s) payload in
          Ok (produce new_state false)
    end
  else if event_type =? "deleted" then
    match snapshot with
    | None => Raise (ValueError (DoesNotExist Delete entity_id))
    | Some s =>
        if Snapshot.deleted s
        then Raise (ValueError (HasBeenDeleted Delete entity_id))
        else Ok (produce [("_deleted_state", VDict (Snapshot.state s))] true)
    end
  else if event_type =? "relationship_added" then
    match snapshot with
    | None => Raise (ValueError (DoesNotExist AddRelationship entity_id))
    | Some s =>
        if Snapshot.deleted s
        then Raise (ValueError (HasBeenDeleted AddRelationship entity_id))
        else
          let new_state := Snapshot.state s in
          let new_state :=
            if negb (dict_mem new_state "relationships")
            then dict_set new_state "relationships" (VList [])
            else new_state in
          (* new_state["relationships"].append: the attribute is looked up
             before the argument is built *)
          match get_or new_state "relationships" VNone with
          | VList rels =>
              (* {"type": ..., "target": ..., **payload.get("properties", {})} *)
              match get_or payload "properties" (VDict []) with
              | VDict props =>
                  let record :=
                    dict_update
                      [("type", get_or payload "relationship_type" VNone);
                       ("target", get_or payload "target_entity" VNone)]
                      props in
                  Ok (produce
                        (dict_set new_state "relationships"
                           (VList (rels ++ [VDict record])))
                        false)
              | _ => Raise TypeError
              end
          | _ => Raise AttributeError
          end
    end
  else if event_type =? "relationship_removed" then
    match snapshot with
    | None => Raise (ValueError (DoesNotExist RemoveRelationship entity_id))
    | Some s =>
        if Snapshot.deleted s
        then Raise (ValueError (HasBeenDeleted RemoveRelationship entity_id))
        else
          let new_state := Snapshot.state s in
          let relationships := get_or new_state "relationships" (VList []) in
          let target := get_or payload "target_entity" VNone in
          let rel_type := get_or payload "relationship_type" VNone in
          rs <- py_iter relationships ;;
          new_relationships <- keep_unmatched target rel_type rs ;;
          (* len(relationships) is the number of items the iteration gave *)
          if Nat.eqb (List.length new_relationships) (List.length rs)
          then Raise (ValueError (RelationshipNotFound rel_type target))
          else
            Ok (produce
                  (dict_set new_state "relationships" (VList new_relationships))
                  false)
    end
  else Raise (ValueError (UnknownEventType event_type)).

(** ** Diff computation *)

Module Change.
Record t : Type := mk {
  field : string;
  before : value;
  after : value
}.
End Change.

Module Diff.
(** [before_as_of] and [after_as_of] are the ["as_of"] entries of the
    ["before"] and ["after"] sub-dictionaries; [None] is Python's [None]. *)
Record t : Type := mk {
  before_as_of : option string;
  after_as_of : option string;
  changes : list Change.t
}.
End Diff.

(** [sorted(set(ks1) | set(ks2))]: the set forgets order and multiplicity and
    [sorted] lists its members in ascending order.  Inserting every key into an
    ascending list without repetition computes that list. *)
Fixpoint insert_key (k : string) (l : list string) : list string :=
  match l with
  | [] => [k]
  | k' :: l' =>
      match String.compare k k' with
      | Lt => k :: l
      | Eq => l
      | Gt => k' :: insert_key k l'
      end
  end.

Definition sorted_union (ks1 ks2 : list string) : list string :=
  fold_right insert_key [] (ks1 ++ ks2).

Definition compute_diff (before after : option Snapshot.t) : Diff.t :=
  let before_state :=
    match before with Some b => Snapshot.state b | None => [] end in
  let after_state :=
    match after with Some a => Snapshot.state a | None => [] end in
  let before_deleted :=
    match before with Some b => Snapshot.deleted b | None => false end in
  let after_deleted :=
    match after with Some a => Snapshot.deleted a | None => false end in
  let changes :=
    if negb (Bool.eqb before_deleted after_deleted)
    then [Change.mk "deleted" (VBool before_deleted) (VBool after_deleted)]
    else [] in
  let all_keys := sorted_union (keys before_state) (keys after_state) in
  let changes :=
    fold_left
      (fun changes key =>
         let before_val := get_or before_state key VNone in
         let after_val := get_or after_state key VNone in
         if py_ne before_val after_val
         then changes ++ [Change.mk key before_val after_val]
         else changes)
      all_keys changes in
  Diff.mk
    (match before with Some b => Some (Snapshot.as_of b) | None => None end)
    (match after with Some a => Some (Snapshot.as_of a) | None => None end)
    changes.

(** ** Timeline operations *)

Definition sort_key (event : Event.t) : string * string :=
  (Event.timestamp event, Event.id event).

(** [<=] on pairs of strings, as Python compares tuples: by the first
    components unless they are equal, then by the second. *)
Definition key_le (a b : string * string) : bool :=
  match String.compare (fst a) (fst b) with
  | Lt => true
  | Gt => false
  | Eq => String.leb (snd a) (snd b)
  end.

(** [sorted] is a stable sort, and a stable sort is determined by its key
    order: the stable insertion sort below returns the list [sorted] does. *)
Fixpoint insert_event (e : Event.t) (l : list Event.t) : list Event.t :=
  match l with
  | [] => [e]
  | e' :: l' =>
      if key_le (sort_key e) (sort_key e')
      then e :: l
      else e' :: insert_event e l'
  end.

Definition build_timeline (events : list Event.t) : list Event.t :=
  fold_right insert_event [] events.

(** [a > b] on strings *)
Definition str_gt (a b : string) : bool :=
  match String.compare a b with
  | Gt => true
  | _ => false
  end.

(** The loop of [derive_snapshot]; [break] returns the snapshot reached. *)
Fixpoint replay_until (as_of : string) (timeline : list Event.t)
    (snapshot : option Snapshot.t) : result (option Snapshot.t) :=
  match timeline with
  | [] => Ok snapshot
  | event :: rest =>
      if str_gt (Event.timestamp event) as_of
      then Ok snapshot
      else
        s <- apply_event snapshot event ;;
        replay_until as_of rest (Some s)
  end.

Definition derive_snapshot (events : list Event.t) (as_of : string)
  : result (option Snapshot.t) :=
  let timeline := build_timeline events in
  snapshot <- replay_until as_of timeline None ;;
  match snapshot with
  | Some s => Ok (Some (Snapshot.set_as_of s as_of))
  | None => Ok None
  end.

(** ** Validation *)

Inductive finding : Type :=
| MissingField (name : string)
    (* Missing required field: {field} *)
| InvalidEventType (given : value)
    (* Invalid event_type: {event.get('event_type')} *)
| InvalidTimestamp (ts : value).
    (* Invalid timestamp format: {ts} *)

Definition required : list string :=
  ["id"; "entity_id"; "event_type"; "timestamp"; "payload"].

Definition valid_types : list string :=
  ["created"; "updated"; "deleted"; "relationship_added";
   "relationship_removed"].

(** [s.replace("Z", "+00:00")] *)
Fixpoint replace_Z (s : string) : string :=
  match s with
  | EmptyString => EmptyString
  | String c s' =>
      if Ascii.eqb c "Z"%char
      then "+00:00" ++ replace_Z s'
      else String c (replace_Z s')
  end.

Section Validation.

(** [datetime.fromisoformat] belongs to Python's library, not to this module:
    [iso_ok s] says that it accepts the string [s]. *)
Variable iso_ok : string -> bool.

Definition fromisoformat (s : string) : result unit :=
  if iso_ok s then Ok tt else Raise (ValueError (InvalidIsoformat s)).

(** [datetime.fromisoformat(ts.replace("Z", "+00:00"))]; only a string has
    [replace]. *)
Definition parse_timestamp (ts : value) : result unit :=
  match ts with
  | VStr s => fromisoformat (replace_Z s)
  | _ => Raise AttributeError
  end.

(** An event here is any dictionary: fields may be missing or ill-typed. *)
Definition validate_event (event : dict) : result (list finding) :=
  let errors :=
    fold_left
      (fun errors field =>
         if negb (dict_mem event field)
         then errors ++ [MissingField field]
         else errors)
      required [] in
  let given := get_or event "event_type" VNone in
  let errors :=
    if negb (existsb (fun t => py_eq given (VStr t)) valid_types)
    then errors ++ [InvalidEventType given]
    else errors in
  let ts := get_or event "timestamp" (VStr "") in
  match parse_timestamp ts with
  | Ok _ => Ok errors
  | Raise (ValueError _) | Raise AttributeError =>
      Ok (errors ++ [InvalidTimestamp ts])
  | Raise e => Raise e
  end.

End Validation.

Module TimelineError.
(** [f"Event {event['id']}: {str(e)}"] *)
Record t : Type := mk {
  event_id : string;
  reason : message
}.
End TimelineError.

(** The loop of [validate_timeline]: [except ValueError] catches that class
    only, and a failed assignment leaves [snapshot] as it was. *)
Fixpoint replay_collect (timeline : list Event.t)
    (snapshot : option Snapshot.t) (errors : list TimelineError.t)
  : result (list TimelineError.t) :=
  match timeline with
  | [] => Ok errors
  | event :: rest =>
      match apply_event snapshot event with
      | Ok s => replay_collect rest (Some s) errors
      | Raise (ValueError m) =>
          replay_collect rest snapshot
            (errors ++ [TimelineError.mk (Event.id event) m])
      | Raise e => Raise e
      end
  end.

Definition validate_timeline (events : list Event.t)
  : result (list TimelineError.t) :=
  replay_collect (build_timeline events) None [].

(** ** Vocabulary of the statements *)

(** [a] is at or below [b] in the key order of the timeline. *)
Definition key_ordered (a b : Event.t) : Prop :=
  key_le (sort_key a) (sort_key b) = true.

(** [a] is strictly below [b] in the key order. *)
Definition key_before (a b : Event.t) : Prop :=
  key_le (sort_key b) (sort_key a) = false.

(** The events whose key is [k]. *)
Definition same_key (k : string * string) (e : Event.t) : bool :=
  String.eqb (fst k) (fst (sort_key e)) && String.eqb (snd k) (snd (sort_key e)).

(** The fold of the reducer over a list of events, failing where it fails. *)
Fixpoint fold_apply (snapshot : option Snapshot.t) (events : list Event.t)
  : result (option Snapshot.t) :=
  match events with
  | [] => Ok snapshot
  | e :: rest =>
      s <- apply_event snapshot e ;;
      fold_apply (Some s) rest
  end.

(** The longest prefix all of whose elements satisfy [p]. *)
Fixpoint prefix_while {A : Type} (p : A -> bool) (l : list A) : list A :=
  match l with
  | [] => []
  | x :: l' => if p x then x :: prefix_while p l' else []
  end.

(** [event.timestamp <= as_of], as strings. *)
Definition up_to (as_of : string) (e : Event.t) : bool :=
  String.leb (Event.timestamp e) as_of.

(** The deriver as the specification words it: order the events, fold the
    reducer from absent over the prefix of events up to [as_of], and give the
    snapshot reached, if there is one, with [as_of] in the place of its
    [as_of] and its other fields as they are. *)
Definition derive_by_prefix (events : list Event.t) (as_of : string)
  : result (option Snapshot.t) :=
  snapshot <-
    fold_apply None (prefix_while (up_to as_of) (build_timeline events)) ;;
  match snapshot with
  | Some s =>
      Ok (Some (Snapshot.mk (Snapshot.entity_id s) as_of (Snapshot.state s)
                  (Snapshot.last_event_id s) (Snapshot.deleted s)))
  | None => Ok None
  end.

(** Strictly ascending order of strings. *)
Definition str_lt (a b : string) : Prop := String.compare a b = Lt.

(** How [compute_diff] reads an optional snapshot. *)
Definition state_of (s : option Snapshot.t) : dict :=
  match s with Some x => Snapshot.state x | None => [] end.

Definition deleted_of (s : option Snapshot.t) : bool :=
  match s with Some x => Snapshot.deleted x | None => false end.

(** The record of the [deleted] flag, present when the flags differ. *)
Definition deleted_change (before after : option Snapshot.t) : list Change.t :=
  if negb (Bool.eqb (deleted_of before) (deleted_of after))
  then [Change.mk "deleted" (VBool (deleted_of before))
                  (VBool (deleted_of after))]
  else [].

(** The record of a field: each side is the field's value, or [None] when the
    state lacks the field. *)
Definition field_change (before after : option Snapshot.t) (key : string)
  : Change.t :=
  Change.mk key (get_or (state_of before) key VNone)
            (get_or (state_of after) key VNone).

(** The shape the data model gives the reserved field [relationships] of a
    state: when present it is a sequence of relationship records. *)
Definition is_dict (v : value) : bool :=
  match v with VDict _ => true | _ => false end.

Definition relationships_typed (st : dict) : bool :=
  match dict_get st "relationships" with
  | None => true
  | Some (VList rs) => forallb is_dict rs
  | Some _ => false
  end.

(** The shape of the [properties] of a relationship payload: when present it
    is a mapping. *)
Definition properties_typed (payload : dict) : bool :=
  match dict_get payload "properties" with
  | None => true
  | Some (VDict _) => true
  | Some _ => false
  end.

(** The relationship records of a state; none when the field is absent. *)
Definition relationships_of (st : dict) : list value :=
  match dict_get st "relationships" with
  | Some (VList rs) => rs
  | _ => []
  end.

(** The pair a relationship payload names; a missing key reads as [None]. *)
Definition target_of (payload : dict) : value :=
  get_or payload "target_entity" VNone.

Definition rel_type_of (payload : dict) : value :=
  get_or payload "relationship_type" VNone.

(** A record matches the pair when its [target] and its [type] equal it. *)
Definition record_matches (target rel_type : value) (r : value) : bool :=
  match r with
  | VDict rd =>
      py_eq (get_or rd "target" VNone) target &&
      py_eq (get_or rd "type" VNone) rel_type
  | _ => false
  end.

Definition has_match (st payload : dict) : bool :=
  existsb (record_matches (target_of payload) (rel_type_of payload))
    (relationships_of st).

(** The four event types that mutate an existing entity. *)
Definition mutating (event_type : string) : option action :=
  if event_type =? "updated" then Some Update
  else if event_type =? "deleted" then Some Delete
  else if event_type =? "relationship_added" then Some AddRelationship
  else if event_type =? "relationship_removed" then Some RemoveRelationship
  else None.

(** A snapshot that exists and is not deleted. *)
Definition live (snapshot : option Snapshot.t) : bool :=
  match snapshot with
  | Some s => negb (Snapshot.deleted s)
  | None => false
  end.

(** The precondition column of the reducer's table. *)
Definition precondition (snapshot : option Snapshot.t) (event : Event.t)
  : bool :=
  if Event.event_type event =? "created" then negb (live snapshot)
  else
    match mutating (Event.event_type event) with
    | Some RemoveRelationship =>
        live snapshot && has_match (state_of snapshot) (Event.payload event)
    | Some _ => live snapshot
    | None => false
    end.

(** The snapshot a successful application returns, given its state and flag. *)
Definition produced (event : Event.t) (st : dict) (del : bool) : Snapshot.t :=
  Snapshot.mk (Event.entity_id event) (Event.timestamp event) st
    (Event.id event) del.

(** The [properties] of a relationship payload; none when the key is absent. *)
Definition properties_of (payload : dict) : dict :=
  match dict_get payload "properties" with
  | Some (VDict props) => props
  | _ => []
  end.

(** The record [relationship_added] appends. *)
Definition added_record (payload : dict) : dict :=
  dict_update
    [("type", rel_type_of payload); ("target", target_of payload)]
    (properties_of payload).

(** ** The worked example: [examples/company.py] *)

Module Company.

Definition evt_001 : Event.t :=
  Event.mk "evt-001" "company-123" "created" "2024-01-01T00:00:00Z"
    [("name", VStr "Acme Corp"); ("status", VStr "active");
     ("founded", VStr "2024-01-01")].

Definition evt_002 : Event.t :=
  Event.mk "evt-002" "company-123" "updated" "2024-03-15T10:30:00Z"
    [("status", VStr "expanding"); ("employee_count", VInt 10)].

Definition evt_003 : Event.t :=
  Event.mk "evt-003" "company-123" "relationship_added"
    "2024-03-20T14:00:00Z"
    [("relationship_type", VStr "employs");
     ("target_entity", VStr "person-456");
     ("properties",
      VDict [("role", VStr "engineer"); ("start_date", VStr "2024-03-20")])].

Definition evt_004 : Event.t :=
  Event.mk "evt-004" "company-123" "updated" "2024-06-01T09:00:00Z"
    [("status", VStr "stable"); ("employee_count", VInt 25)].

Definition evt_005 : Event.t :=
  Event.mk "evt-005" "company-123" "deleted" "2024-12-31T23:59:59Z" [].

Definition EVENTS : list Event.t :=
  [evt_001; evt_002; evt_003; evt_004; evt_005].

(** The same log, out of order. *)
Definition shuffled : list Event.t :=
  [evt_004; evt_002; evt_005; evt_001; evt_003].

(** The company after [evt_004], with its one employee. *)
Definition stable : Snapshot.t :=
  Snapshot.mk "company-123" "2024-06-01T09:00:00Z"
    [("name", VStr "Acme Corp"); ("status", VStr "stable");
     ("founded", VStr "2024-01-01"); ("employee_count", VInt 25);
     ("relationships",
      VList [VDict [("type", VStr "employs"); ("target", VStr "person-456");
                    ("role", VStr "engineer");
                    ("start_date", VStr "2024-03-20")]])]
    "evt-004" false.

(** The company after [evt_002], before it employs anyone. *)
Definition expanding : Snapshot.t :=
  Snapshot.mk "company-123" "2024-03-15T10:30:00Z"
    [("name", VStr "Acme Corp"); ("status", VStr "expanding");
     ("founded", VStr "2024-01-01"); ("employee_count", VInt 10)]
    "evt-002" false.

(** Later events of the company: it hires [person-456] again, without
    properties, and lets [person-456] go. *)
Definition hire : Event.t :=
  Event.mk "evt-006" "company-123" "relationship_added"
    "2024-09-01T00:00:00Z"
    [("relationship_type", VStr "employs");
     ("target_entity", VStr "person-456")].

Definition dismiss : Event.t :=
  Event.mk "evt-007" "company-123" "relationship_removed"
    "2024-10-01T00:00:00Z"
    [("relationship_type", VStr "employs");
     ("target_entity", VStr "person-456")].

(** A hire whose properties carry a [type] of their own. *)
Definition hire_titled : Event.t :=
  Event.mk "evt-006" "company-123" "relationship_added"
    "2024-09-01T00:00:00Z"
    [("relationship_type", VStr "employs");
     ("target_entity", VStr "person-456");
     ("properties", VDict [("type", VStr "manages")])].

(** A relationship payload without its type. *)
Definition untyped_link : Event.t :=
  Event.mk "evt-006" "company-123" "relationship_added"
    "2024-09-01T00:00:00Z"
    [("target_entity", VStr "person-456");
     ("properties", VDict [("type", VStr "manages")])].

(** A relationship payload with no key at all. *)
Definition bare_link : Event.t :=
  Event.mk "evt-006" "company-123" "relationship_added"
    "2024-09-01T00:00:00Z" [].

(** One and a half as a binary64 number, and a NaN, as float objects. *)
Definition one_and_a_half (obj : N) : value :=
  VFloat obj (S754_finite false 6755399441055744 (-52)).

Definition nan (obj : N) : value := VFloat obj S754_nan.

(** A snapshot with a float field and a NaN inside a list. *)
Definition measured : Snapshot.t :=
  Snapshot.mk "company-123" "2024-06-01T09:00:00Z"
    [("name", VStr "Acme Corp"); ("growth", one_and_a_half 1);
     ("samples", VList [nan 2; VInt 3])]
    "evt-004" false.

(** A snapshot one of whose fields is a NaN. *)
Definition unmeasured : Snapshot.t :=
  Snapshot.mk "company-123" "2024-06-01T09:00:00Z"
    [("name", VStr "Acme Corp"); ("growth", nan 1)]
    "evt-004" false.

(** A creation whose payload holds [relationships] with the value [None]. *)
Definition founded_oddly : Event.t :=
  Event.mk "evt-001" "company-123" "created" "2024-01-01T00:00:00Z"
    [("name", VStr "Acme Corp"); ("relationships", VNone)].

(** A hire whose [properties] is a string. *)
Definition hire_labelled : Event.t :=
  Event.mk "evt-006" "company-123" "relationship_added"
    "2024-09-01T00:00:00Z"
    [("relationship_type", VStr "employs");
     ("target_entity", VStr "person-456");
     ("properties", VStr "abc")].

(** A link without its type whose [properties] is a string. *)
Definition link_labelled : Event.t :=
  Event.mk "evt-006" "company-123" "relationship_added"
    "2024-09-01T00:00:00Z"
    [("target_entity", VStr "person-456"); ("properties", VStr "abc")].

(** A hire with properties of its own. *)
Definition hire_as_engineer : Event.t :=
  Event.mk "evt-006" "company-123" "relationship_added"
    "2024-09-01T00:00:00Z"
    [("relationship_type", VStr "employs");
     ("target_entity", VStr "person-456");
     ("properties", VDict [("role", VStr "engineer")])].

(** A hire and a dismissal whose target is a NaN, the same float object. *)
Definition hire_nobody : Event.t :=
  Event.mk "evt-006" "company-123" "relationship_added"
    "2024-09-01T00:00:00Z"
    [("relationship_type", VStr "employs"); ("target_entity", nan 7)].

Definition dismiss_nobody : Event.t :=
  Event.mk "evt-007" "company-123" "relationship_removed"
    "2024-10-01T00:00:00Z"
    [("relationship_type", VStr "employs"); ("target_entity", nan 7)].

(** The company with the given value as its [relationships]. *)
Definition related (relationships : value) : Snapshot.t :=
  Snapshot.mk "company-123" "2024-06-01T09:00:00Z"
    [("name", VStr "Acme Corp"); ("relationships", relationships)]
    "evt-004" false.

(** The records of a company that employs [person-456] twice over and is
    supplied by [org-789]; and those of one that has a supplier and a
    customer but no employee. *)
Definition staff : list value :=
  [VDict [("type", VStr "employs"); ("target", VStr "person-456");
          ("role", VStr "engineer")];
   VDict [("type", VStr "supplied_by"); ("target", VStr "org-789")];
   VDict [("type", VStr "employs"); ("target", VStr "person-456")]].

Definition partners : list value :=
  [VDict [("type", VStr "supplied_by"); ("target", VStr "org-789")];
   VDict [("type", VStr "sells_to"); ("target", VStr "person-456")]].

(** A snapshot of the company with the given state. *)
Definition with_state (st : dict) : option Snapshot.t :=
  Some (Snapshot.mk "company-123" "2024-01-01T00:00:00Z" st "evt-001" false).

(** An event dictionary that lacks its timestamp. *)
Definition undated : dict :=
  [("id", VStr "evt-008"); ("entity_id", VStr "company-123");
   ("event_type", VStr "updated"); ("payload", VDict [])].

(** A recognizer of the timestamps of the example, to run [validate_event]
    with: a date, a date and a time, or a date and a time with an offset. *)
Fixpoint shaped (pattern s : string) : bool :=
  match pattern, s with
  | EmptyString, EmptyString => true
  | String p pattern', String c s' =>
      (if Ascii.eqb p "d"%char
       then (48 <=? nat_of_ascii c)%nat && (nat_of_ascii c <=? 57)%nat
       else Ascii.eqb p c) && shaped pattern' s'
  | _, _ => false
  end.

Definition iso_like (s : string) : bool :=
  shaped "dddd-dd-dd" s || shaped "dddd-dd-ddTdd:dd:dd" s ||
  shaped "dddd-dd-ddTdd:dd:dd+dd:dd" s.

End Company.

(** An event of the data model: its payload is a Python dictionary (distinct
    keys) whose [relationships], if any, is a sequence of records and whose
    [properties], if any, is a mapping. *)
Definition event_typed (e : Event.t) : bool :=
  distinct (keys (Event.payload e)) &&
  relationships_typed (Event.payload e) &&
  properties_typed (Event.payload e).

(** What a replay meets: each event of the timeline with the outcome of
    applying it to the last snapshot that was produced. *)
Fixpoint replay_trace (snapshot : option Snapshot.t) (timeline : list Event.t)
  : list (Event.t * result Snapshot.t) :=
  match timeline with
  | [] => []
  | e :: rest =>
      let r := apply_event snapshot e in
      (e, r) :: replay_trace (match r with
                              | Ok s => Some s
                              | Raise _ => snapshot
                              end) rest
  end.

(** The error entry of a step: one for a failed application, tagged with the
    id of the event, none for a successful one. *)
Definition error_entry (step : Event.t * result Snapshot.t)
  : list TimelineError.t :=
  match snd step with
  | Raise (ValueError m) => [TimelineError.mk (Event.id (fst step)) m]
  | _ => []
  end.

(** The exceptions that [except ValueError] does not catch. *)
Definition uncaught (r : result Snapshot.t) : option exn :=
  match r with
  | Ok _ => None
  | Raise (ValueError _) => None
  | Raise x => Some x
  end.

(** The first step of a replay whose exception is not caught, if any. *)
Fixpoint first_uncaught (trace : list (Event.t * result Snapshot.t))
  : option exn :=
  match trace with
  | [] => None
  | step :: rest =>
      match uncaught (snd step) with
      | Some x => Some x
      | None => first_uncaught rest
      end
  end.

(** ** Induction on values *)

Section ValueInduction.

Variable P : value -> Prop.
Hypothesis HNone : P VNone.
Hypothesis HBool : forall b, P (VBool b).
Hypothesis HInt : forall n, P (VInt n).
Hypothesis HFloat : forall obj f, P (VFloat obj f).
Hypothesis HStr : forall s, P (VStr s).
Hypothesis HList : forall items, Forall P items -> P (VList items).
Hypothesis HDict :
  forall entries, Forall (fun kv => P (snd kv)) entries -> P (VDict entries).

(** Induction on values that reaches into lists and dictionaries. *)
Fixpoint value_nested_ind (v : value) : P v :=
  match v with
  | VNone => HNone
  | VBool b => HBool b
  | VInt n => HInt n
  | VFloat obj f => HFloat obj f
  | VStr s => HStr s
  | VList items =>
      HList items
        ((fix all (l : list value) : Forall P l :=
            match l with
            | [] => Forall_nil _
            | x :: l' => Forall_cons x (value_nested_ind x) (all l')
            end) items)
  | VDict entries =>
      HDict entries
        ((fix all (l : list (string * value))
            : Forall (fun kv => P (snd kv)) l :=
            match l with
            | [] => Forall_nil _
            | kv :: l' =>
                Forall_cons kv (value_nested_ind (snd kv)) (all l')
            end) entries)
  end.

End ValueInduction.

(** ** Further vocabulary *)

(** A change read backwards. *)
Definition mirror (c : Change.t) : Change.t :=
  Change.mk (Change.field c) (Change.after c) (Change.before c).

(** An event whose payload is a Python dictionary at every depth: the keys of
    each dictionary in it are distinct. *)
Definition payload_unique (e : Event.t) : bool :=
  unique_keys_dict (Event.payload e).

(** [a] comes no later than [b]: its timestamp is the smaller string, or the
    timestamps are the same string and its id is not the greater one. *)
Definition chronological (a b : Event.t) : Prop :=
  String.compare (Event.timestamp a) (Event.timestamp b) = Lt \/
  (Event.timestamp a = Event.timestamp b /\
   String.leb (Event.id a) (Event.id b) = true).

(** [a] comes before [b]: as above, with the id strictly smaller. *)
Definition strictly_chronological (a b : Event.t) : Prop :=
  String.compare (Event.timestamp a) (Event.timestamp b) = Lt \/
  (Event.timestamp a = Event.timestamp b /\
   String.compare (Event.id a) (Event.id b) = Lt).

(** The snapshot a replay that passes over failures holds after the events
    of [l]: the result of the last application that succeeded. *)
Fixpoint replay_state (snapshot : option Snapshot.t) (l : list Event.t)
  : option Snapshot.t :=
  match l with
  | [] => snapshot
  | e :: rest =>
      replay_state
        (match apply_event snapshot e with
         | Ok s => Some s
         | Raise _ => snapshot
         end) rest
  end.

(** The strings of [parts] with [sep] between each two of them. *)
Fixpoint join (sep : string) (parts : list string) : string :=
  match parts with
  | [] => EmptyString
  | p :: rest =>
      match rest with
      | [] => p
      | _ :: _ => p ++ sep ++ join sep rest
      end
  end.

(** The character [c] occurs in [s]. *)
Fixpoint has_char (c : ascii) (s : string) : bool :=
  match s with
  | EmptyString => false
  | String x s' => Ascii.eqb x c || has_char c s'
  end.

(** The pieces of [s] between its occurrences of [Z]. *)
Fixpoint split_Z (s : string) : list string :=
  match s with
  | EmptyString => [EmptyString]
  | String c s' =>
      if Ascii.eqb c "Z"%char
      then EmptyString :: split_Z s'
      else
        match split_Z s' with
        | [] => [String c EmptyString]
        | p :: rest => String c p :: rest
        end
  end.

(** ** String order *)

Section StringOrder.

Lemma ascii_compare_refl (c : ascii) : Ascii.compare c c = Eq.
Proof. unfold Ascii.compare. apply N.compare_refl. Qed.

Lemma str_compare_refl (s : string) : String.compare s s = Eq.
Proof.
  induction s as [|c s IH]; simpl; [reflexivity|].
  now rewrite ascii_compare_refl.
Qed.

Lemma str_compare_eq (s t : string) : String.compare s t = Eq <-> s = t.
Proof.
  split; [apply String.compare_eq_iff|].
  intros ->. apply str_compare_refl.
Qed.

Lemma str_compare_gt_lt (s t : string) :
  String.compare s t = Gt <-> String.compare t s = Lt.
Proof.
  rewrite (String.compare_antisym t s).
  destruct (String.compare s t); simpl; split; congruence.
Qed.

Lemma ascii_lt_trans (a b c : ascii) :
  Ascii.compare a b = Lt -> Ascii.compare b c = Lt -> Ascii.compare a c = Lt.
Proof.
  unfold Ascii.compare. rewrite !N.compare_lt_iff. lia.
Qed.

Lemma str_lt_trans (s t u : string) :
  String.compare s t = Lt -> String.compare t u = Lt ->
  String.compare s u = Lt.
Proof.
  revert t u.
  induction s as [|a s IH]; intros [|b t] [|c u]; simpl; try congruence.
  destruct (Ascii.compare a b) eqn:Hab; try congruence;
    destruct (Ascii.compare b c) eqn:Hbc; try congruence; intros H1 H2.
  - apply Ascii.compare_eq_iff in Hab, Hbc. subst.
    rewrite ascii_compare_refl. eauto.
  - apply Ascii.compare_eq_iff in Hab. subst. now rewrite Hbc.
  - apply Ascii.compare_eq_iff in Hbc. subst. now rewrite Hab.
  - now rewrite (ascii_lt_trans _ _ _ Hab Hbc).
Qed.

Lemma str_leb_refl (s : string) : String.leb s s = true.
Proof. unfold String.leb. now rewrite str_compare_refl. Qed.

Lemma str_leb_trans (s t u : string) :
  String.leb s t = true -> String.leb t u = true -> String.leb s u = true.
Proof.
  unfold String.leb.
  destruct (String.compare s t) eqn:Hst; try discriminate;
    destruct (String.compare t u) eqn:Htu; try discriminate; intros _ _.
  - apply str_compare_eq in Hst, Htu. subst. now rewrite str_compare_refl.
  - apply str_compare_eq in Hst. subst. now rewrite Htu.
  - apply str_compare_eq in Htu. subst. now rewrite Hst.
  - now rewrite (str_lt_trans _ _ _ Hst Htu).
Qed.

(** [a > b] is the negation of [a <= b]. *)
Lemma str_gt_leb (a b : string) : str_gt a b = negb (String.leb a b).
Proof. unfold str_gt, String.leb. now destruct (String.compare a b). Qed.

End StringOrder.

(** ** The key order of the timeline *)

Section KeyOrder.

Lemma key_le_refl (a : string * string) : key_le a a = true.
Proof. unfold key_le. rewrite str_compare_refl. apply str_leb_refl. Qed.

Lemma key_le_total (a b : string * string) :
  key_le a b = false -> key_le b a = true.
Proof.
  unfold key_le.
  rewrite (String.compare_antisym (fst a) (fst b)).
  destruct (String.compare (fst b) (fst a)); simpl; try congruence.
  intros H. destruct (String.leb_total (snd a) (snd b)); congruence.
Qed.

Lemma key_le_trans (a b c : string * string) :
  key_le a b = true -> key_le b c = true -> key_le a c = true.
Proof.
  unfold key_le.
  destruct (String.compare (fst a) (fst b)) eqn:Hab; try discriminate;
    destruct (String.compare (fst b) (fst c)) eqn:Hbc; try discriminate.
  - apply str_compare_eq in Hab, Hbc. rewrite Hab, Hbc, str_compare_refl.
    apply str_leb_trans.
  - apply str_compare_eq in Hab. rewrite Hab, Hbc. reflexivity.
  - apply str_compare_eq in Hbc. rewrite <- Hbc, Hab. reflexivity.
  - rewrite (str_lt_trans _ _ _ Hab Hbc). reflexivity.
Qed.

Lemma key_le_antisym (a b : string * string) :
  key_le a b = true -> key_le b a = true -> a = b.
Proof.
  unfold key_le. destruct a as [t1 i1], b as [t2 i2]; simpl.
  rewrite (String.compare_antisym t2 t1).
  destruct (String.compare t1 t2) eqn:Ht; simpl; try discriminate.
  apply str_compare_eq in Ht. subst.
  intros H1 H2. f_equal. now apply String.leb_antisym.
Qed.

(** With equal timestamps the key order is the order of the ids. *)
Lemma key_le_same_timestamp (t i1 i2 : string) :
  key_le (t, i1) (t, i2) = String.leb i1 i2.
Proof. unfold key_le; simpl. now rewrite str_compare_refl. Qed.

(** The key order looks at the timestamp first. *)
Lemma key_le_timestamp (a b : string * string) :
  key_le a b = true -> String.leb (fst a) (fst b) = true.
Proof.
  unfold key_le, String.leb.
  destruct (String.compare (fst a) (fst b)); congruence.
Qed.

End KeyOrder.

(** ** Dictionaries and equality of values *)

Section Dictionaries.

Lemma dict_get_set_same (d : dict) (k : string) (v : value) :
  dict_get (dict_set d k v) k = Some v.
Proof.
  induction d as [|[k' v'] d IH]; simpl.
  - now rewrite String.eqb_refl.
  - destruct (String.eqb k k') eqn:E; simpl; rewrite E; auto.
Qed.

Lemma dict_get_set_other (d : dict) (k k' : string) (v : value) :
  k <> k' -> dict_get (dict_set d k v) k' = dict_get d k'.
Proof.
  intros Hne. induction d as [|[k0 v0] d IH]; simpl.
  - destruct (String.eqb_spec k' k); congruence.
  - destruct (String.eqb_spec k k0) as [->|]; simpl.
    + destruct (String.eqb_spec k' k0); congruence.
    + now rewrite IH.
Qed.

(** Updating with a dictionary that lacks [k] leaves the entry of [k]. *)
Lemma dict_get_update_absent (src d : dict) (k : string) :
  dict_get src k = None -> dict_get (dict_update d src) k = dict_get d k.
Proof.
  unfold dict_update. revert d.
  induction src as [|[k' v'] src IH]; intros d H; simpl in *; [reflexivity|].
  destruct (String.eqb_spec k k') as [->|Hne]; [discriminate|].
  rewrite IH by exact H. apply dict_get_set_other. congruence.
Qed.

Lemma existsb_eqb_In (k : string) (l : list string) :
  existsb (String.eqb k) l = true <-> In k l.
Proof.
  rewrite existsb_exists. split.
  - intros [x [Hx E]]. apply String.eqb_eq in E. now subst.
  - intros H. exists k. split; [exact H|apply String.eqb_refl].
Qed.

(** With distinct keys every entry is the binding of its key. *)
Lemma dict_get_entry (d : dict) (k : string) (v : value) :
  distinct (map fst d) = true -> In (k, v) d -> dict_get d k = Some v.
Proof.
  induction d as [|[k' v'] d IH]; simpl; [tauto|].
  intros Hd [Heq|Hin].
  - injection Heq as -> ->. now rewrite String.eqb_refl.
  - apply andb_prop in Hd. destruct Hd as [Hk Hd].
    destruct (String.eqb_spec k k') as [->|_]; [|auto].
    exfalso. apply negb_true_iff in Hk.
    assert (Hin' : In k' (map fst d))
      by (change k' with (fst (k', v)); now apply in_map).
    apply existsb_eqb_In in Hin'. congruence.
Qed.

End Dictionaries.

Section Equality.

Lemma py_eq_list_cons (x y : value) (xs ys : list value) :
  py_eq (VList (x :: xs)) (VList (y :: ys)) =
  item_eq x y && py_eq (VList xs) (VList ys).
Proof. reflexivity. Qed.

(** Every entry of [d1] has an equal entry in [d2]. *)
Lemma py_eq_dict (d1 d2 : dict) :
  py_eq (VDict d1) (VDict d2) =
  Nat.eqb (List.length d1) (List.length d2) &&
  forallb (fun kv => match dict_get d2 (fst kv) with
                     | Some w => item_eq (snd kv) w
                     | None => false
                     end) d1.
Proof.
  cbn [py_eq]. f_equal.
  induction d1 as [|[k v] d1 IH]; cbn [forallb fst snd]; [reflexivity|].
  now rewrite IH.
Qed.

(** A float that is not a NaN equals itself. *)
Lemma SFeqb_refl (f : spec_float) : f <> S754_nan -> SFeqb f f = true.
Proof.
  unfold SFeqb. destruct f as [s|s| |s m e]; cbn [SFcompare];
    try reflexivity.
  - now destruct s.
  - congruence.
  - intros _. destruct s; rewrite Z.compare_refl;
      change (Pos.compare_cont Eq m m) with (Pos.compare m m);
      now rewrite Pos.compare_refl.
Qed.

(** [==] is reflexive on every value but a NaN, and as items of a list or a
    dictionary all values equal themselves. *)
Lemma py_eq_item_refl (v : value) :
  unique_keys v = true ->
  (is_nan v = false -> py_eq v v = true) /\ item_eq v v = true.
Proof.
  assert (Hitem : forall v, (is_nan v = false -> py_eq v v = true) ->
                            item_eq v v = true).
  { intros w H. unfold item_eq. destruct (is_nan w) eqn:E.
    - destruct w as [| | |obj f| | |]; try discriminate.
      destruct f; try discriminate. cbn [same_nan].
      now rewrite N.eqb_refl.
    - rewrite H by reflexivity. apply orb_true_r. }
  induction v as [| b | n | obj f | s | items IH | entries IH]
    using value_nested_ind; intros Hu;
    (split; [|apply Hitem]); intros Hn.
  1-2: reflexivity.
  1-2: apply Bool.eqb_reflx.
  1-2: apply Z.eqb_refl.
  1-2: (cbn [py_eq]; apply SFeqb_refl; intros ->; discriminate).
  1-2: apply String.eqb_refl.
  - cbn [unique_keys] in Hu. clear Hn.
    induction IH as [|x l Hx Hl IHl]; [reflexivity|].
    cbn [forallb] in Hu. apply andb_prop in Hu. destruct Hu as [Hux Hul].
    rewrite py_eq_list_cons, (proj2 (Hx Hux)), IHl by assumption.
    reflexivity.
  - cbn [unique_keys] in Hu. clear Hn.
    induction IH as [|x l Hx Hl IHl]; [reflexivity|].
    cbn [forallb] in Hu. apply andb_prop in Hu. destruct Hu as [Hux Hul].
    rewrite py_eq_list_cons, (proj2 (Hx Hux)), IHl by assumption.
    reflexivity.
  - rewrite py_eq_dict, Nat.eqb_refl. cbn [andb].
    cbn [unique_keys] in Hu. apply andb_prop in Hu. destruct Hu as [Hd Hall].
    apply forallb_forall. intros [k v] Hin. cbn [fst snd].
    rewrite (dict_get_entry _ _ _ Hd Hin).
    rewrite Forall_forall in IH. apply (IH (k, v) Hin).
    rewrite forallb_forall in Hall. apply (Hall (k, v) Hin).
  - rewrite py_eq_dict, Nat.eqb_refl. cbn [andb].
    cbn [unique_keys] in Hu. apply andb_prop in Hu. destruct Hu as [Hd Hall].
    apply forallb_forall. intros [k v] Hin. cbn [fst snd].
    rewrite (dict_get_entry _ _ _ Hd Hin).
    rewrite Forall_forall in IH. apply (IH (k, v) Hin).
    rewrite forallb_forall in Hall. apply (Hall (k, v) Hin).
Qed.

Lemma py_eq_refl (v : value) :
  unique_keys v = true -> is_nan v = false -> py_eq v v = true.
Proof. intros Hu. apply (proj1 (py_eq_item_refl v Hu)). Qed.

(** A NaN is unequal to itself. *)
Lemma py_eq_nan (v : value) : is_nan v = true -> py_eq v v = false.
Proof.
  destruct v as [| | |obj f| | |]; try discriminate.
  now destruct f.
Qed.

End Equality.

(** ** The worked example, replayed *)

Section WorkedExample.

Example company_expanding :
  fold_apply None [Company.evt_001; Company.evt_002] =
  Ok (Some Company.expanding).
Proof. reflexivity. Qed.

Example company_stable :
  derive_snapshot Company.EVENTS "2024-06-01T09:00:00Z" =
  Ok (Some Company.stable).
Proof. reflexivity. Qed.

Example company_in_february :
  match derive_snapshot Company.EVENTS "2024-02-01T00:00:00Z" with
  | Ok (Some s) =>
      dict_get (Snapshot.state s) "status" = Some (VStr "active") /\
      dict_get (Snapshot.state s) "employee_count" = None /\
      Snapshot.as_of s = "2024-02-01T00:00:00Z"
  | _ => False
  end.
Proof. repeat split. Qed.

Example company_dissolved :
  match derive_snapshot Company.EVENTS "2025-01-01T00:00:00Z" with
  | Ok (Some s) => Snapshot.deleted s = true
  | _ => False
  end.
Proof. reflexivity. Qed.

Example company_before_creation :
  derive_snapshot Company.EVENTS "2023-12-31T23:59:59Z" = Ok None.
Proof. reflexivity. Qed.

Example company_february_to_april :
  match derive_snapshot Company.EVENTS "2024-02-01T00:00:00Z",
        derive_snapshot Company.EVENTS "2024-04-01T00:00:00Z" with
  | Ok before, Ok after =>
      map Change.field (Diff.changes (compute_diff before after)) =
      ["employee_count"; "relationships"; "status"]
  | _, _ => False
  end.
Proof. reflexivity. Qed.

Example company_timeline :
  build_timeline Company.shuffled = Company.EVENTS.
Proof. reflexivity. Qed.

Example company_log_is_valid : validate_timeline Company.EVENTS = Ok [].
Proof. reflexivity. Qed.

(** [True == 1] in Python, so a flag that becomes a one is no change. *)
Example bool_is_int :
  Diff.changes (compute_diff (Company.with_state [("listed", VBool true)])
                             (Company.with_state [("listed", VInt 1)])) = [].
Proof. reflexivity. Qed.

End WorkedExample.

(** ** build_timeline *)

Section Timeline.

Lemma insert_event_perm (e : Event.t) (l : list Event.t) :
  Permutation (e :: l) (insert_event e l).
Proof.
  induction l as [|e' l IH]; simpl; [reflexivity|].
  destruct (key_le (sort_key e) (sort_key e')); [reflexivity|].
  rewrite perm_swap. now constructor.
Qed.

Lemma build_timeline_perm (events : list Event.t) :
  Permutation events (build_timeline events).
Proof.
  induction events as [|e l IH]; simpl; [constructor|].
  rewrite <- insert_event_perm. now constructor.
Qed.

Lemma insert_event_sorted (e : Event.t) (l : list Event.t) :
  StronglySorted key_ordered l -> StronglySorted key_ordered (insert_event e l).
Proof.
  induction 1 as [|e' l Hl IH Hall]; simpl.
  - repeat constructor.
  - destruct (key_le (sort_key e) (sort_key e')) eqn:Hle.
    + constructor; [now constructor|].
      constructor; [exact Hle|].
      eapply Forall_impl; [|exact Hall].
      intros b Hb. unfold key_ordered in *. eapply key_le_trans; eauto.
    + constructor; [exact IH|].
      rewrite <- insert_event_perm.
      constructor; [|exact Hall].
      now apply key_le_total.
Qed.

Lemma build_timeline_sorted (events : list Event.t) :
  StronglySorted key_ordered (build_timeline events).
Proof.
  induction events as [|e l IH]; simpl; [constructor|].
  now apply insert_event_sorted.
Qed.

(** In a strongly sorted list an element is related to all later ones. *)
Lemma StronglySorted_later {A : Type} (R : A -> A -> Prop)
    (l1 l2 l3 : list A) (a b : A) :
  StronglySorted R (l1 ++ a :: l2 ++ b :: l3) -> R a b.
Proof.
  induction l1 as [|x l1 IH]; simpl; intros H; inversion H; subst.
  - match goal with
    | HF : Forall _ _ |- _ => rewrite Forall_forall in HF; apply HF
    end.
    apply in_or_app. right. now left.
  - auto.
Qed.

(** With pairwise distinct ids no two events share a key, and the order of
    the timeline is strict. *)
Lemma sorted_strict (l : list Event.t) :
  NoDup (map Event.id l) ->
  StronglySorted key_ordered l -> StronglySorted key_before l.
Proof.
  intros Hnd Hs. induction Hs as [|a l Hl IH Hall]; [constructor|].
  simpl in Hnd. inversion Hnd as [|? ? Hnotin Hnd']; subst.
  constructor; [auto|].
  rewrite Forall_forall in *. intros b Hb.
  unfold key_before, key_ordered in *.
  destruct (key_le (sort_key b) (sort_key a)) eqn:Hba; [|reflexivity].
  exfalso. apply Hnotin.
  assert (Heq : sort_key a = sort_key b)
    by (apply key_le_antisym; auto).
  unfold sort_key in Heq. injection Heq as _ Hid. rewrite Hid.
  now apply in_map.
Qed.

(** The stable sort keeps events of equal key in their input order. *)
Lemma insert_event_stable (k : string * string) (e : Event.t)
    (l : list Event.t) :
  StronglySorted key_ordered l ->
  filter (same_key k) (insert_event e l) = filter (same_key k) (e :: l).
Proof.
  induction 1 as [|e' l Hl IH Hall]; [reflexivity|].
  cbn [insert_event].
  destruct (key_le (sort_key e) (sort_key e')) eqn:Hle; [reflexivity|].
  cbn [filter] in *. rewrite IH.
  destruct (same_key k e) eqn:He, (same_key k e') eqn:He'; try reflexivity.
  exfalso. unfold same_key in He, He'.
  destruct (String.eqb_spec (fst k) (fst (sort_key e))) as [E1|]; [|discriminate].
  destruct (String.eqb_spec (snd k) (snd (sort_key e))) as [E2|]; [|discriminate].
  destruct (String.eqb_spec (fst k) (fst (sort_key e'))) as [E3|]; [|discriminate].
  destruct (String.eqb_spec (snd k) (snd (sort_key e'))) as [E4|]; [|discriminate].
  assert (Hk : sort_key e = sort_key e').
  { destruct (sort_key e), (sort_key e'); simpl in *; congruence. }
  rewrite Hk, key_le_refl in Hle. discriminate.
Qed.

(** X23. [build_timeline] is stable: the events of a log that share a key
    (the same timestamp and the same id) appear in the timeline in the order
    they have in the log. *)
Lemma build_timeline_stable (k : string * string) (events : list Event.t) :
  filter (same_key k) (build_timeline events) = filter (same_key k) events.
Proof.
  induction events as [|e l IH]; [reflexivity|].
  cbn [build_timeline fold_right].
  rewrite insert_event_stable by apply build_timeline_sorted.
  cbn [filter]. fold (build_timeline l). now rewrite IH.
Qed.

(** The key order, read on the fields of the events. *)
Lemma key_ordered_chronological (a b : Event.t) :
  key_ordered a b <-> chronological a b.
Proof.
  unfold key_ordered, chronological, key_le, sort_key. cbn [fst snd].
  destruct (String.compare (Event.timestamp a) (Event.timestamp b)) eqn:E.
  - apply str_compare_eq in E. split; [auto|].
    intros [H|[_ H]]; [discriminate|exact H].
  - split; auto.
  - split; [discriminate|].
    intros [H|[H _]]; [discriminate|].
    apply str_compare_eq in H. congruence.
Qed.

Lemma key_before_chronological (a b : Event.t) :
  key_before a b -> strictly_chronological a b.
Proof.
  unfold key_before, strictly_chronological, key_le, sort_key.
  cbn [fst snd].
  rewrite (String.compare_antisym (Event.timestamp a) (Event.timestamp b)).
  destruct (String.compare (Event.timestamp b) (Event.timestamp a)) eqn:E;
    cbn [CompOpp]; intros H.
  - apply str_compare_eq in E. right. split; [now symmetry|].
    unfold String.leb in H.
    rewrite (String.compare_antisym (Event.id a) (Event.id b)).
    destruct (String.compare (Event.id b) (Event.id a)); cbn [CompOpp];
      congruence.
  - discriminate.
  - now left.
Qed.

Lemma StronglySorted_impl {A : Type} (R S : A -> A -> Prop) (l : list A) :
  (forall a b, R a b -> S a b) -> StronglySorted R l -> StronglySorted S l.
Proof.
  intros HRS. induction 1 as [|a l Hl IH Hall]; constructor; [exact IH|].
  eapply Forall_impl; [|exact Hall]. intros b. apply HRS.
Qed.

End Timeline.

(** C8. [build_timeline] returns the events it was given (a permutation of
    them, as a new list: the embedding is a function of its input and has
    nothing to mutate), in chronological order: of two events of the
    timeline the earlier one has the smaller timestamp, as a string, or the
    same timestamp and an id, as a string, that is not greater.  So the
    timestamps never decrease along the timeline, two events with the same
    timestamp appear by ascending id, and when the ids of the log are
    pairwise distinct the order is strict, which makes the timeline a total
    order. *)
Theorem build_timeline_ordered_by_timestamp_then_id (events : list Event.t) :
  Permutation events (build_timeline events) /\
  StronglySorted chronological (build_timeline events) /\
  (forall l1 a l2 b l3,
      build_timeline events = l1 ++ a :: l2 ++ b :: l3 ->
      String.leb (Event.timestamp a) (Event.timestamp b) = true /\
      (Event.timestamp a = Event.timestamp b ->
       String.leb (Event.id a) (Event.id b) = true)) /\
  (NoDup (map Event.id events) ->
   StronglySorted strictly_chronological (build_timeline events)).
Proof.
  split; [apply build_timeline_perm|].
  split; [apply (StronglySorted_impl key_ordered);
          [apply key_ordered_chronological|apply build_timeline_sorted]|].
  split.
  - intros l1 a l2 b l3 Heq.
    pose proof (build_timeline_sorted events) as Hs. rewrite Heq in Hs.
    apply StronglySorted_later in Hs. split.
    + apply key_le_timestamp in Hs. exact Hs.
    + intros Hts. unfold key_ordered, sort_key in Hs.
      rewrite Hts, key_le_same_timestamp in Hs. exact Hs.
  - intros Hnd. apply (StronglySorted_impl key_before);
      [apply key_before_chronological|].
    apply sorted_strict; [|apply build_timeline_sorted].
    eapply Permutation_NoDup; [|exact Hnd].
    apply Permutation_map, build_timeline_perm.
Qed.

(** The shuffled log of the company has distinct ids and sorts strictly, into
    the order of the log as it was written. *)
Lemma build_timeline_ordered_by_timestamp_then_id_witness :
  NoDup (map Event.id Company.shuffled) /\
  build_timeline Company.shuffled = Company.EVENTS /\
  StronglySorted strictly_chronological (build_timeline Company.shuffled).
Proof.
  assert (Hnd : NoDup (map Event.id Company.shuffled))
    by (repeat constructor; cbn; intuition discriminate).
  split; [exact Hnd|]. split; [reflexivity|].
  apply (build_timeline_ordered_by_timestamp_then_id Company.shuffled).
  exact Hnd.
Defined.

(** ** derive_snapshot *)

Section Derive.

Variable as_of : string.

(** The loop with its [break] is the fold over the prefix. *)
Lemma replay_until_prefix (timeline : list Event.t)
    (snapshot : option Snapshot.t) :
  replay_until as_of timeline snapshot =
  fold_apply snapshot (prefix_while (up_to as_of) timeline).
Proof.
  revert snapshot.
  induction timeline as [|e rest IH]; intros snapshot; [reflexivity|].
  cbn [replay_until prefix_while]. unfold up_to at 1.
  rewrite str_gt_leb.
  destruct (String.leb (Event.timestamp e) as_of); cbn [negb]; [|reflexivity].
  cbn [fold_apply].
  destruct (apply_event snapshot e); cbn [bind]; [apply IH|reflexivity].
Qed.

Lemma filter_none {A : Type} (p : A -> bool) (l : list A) :
  (forall x, In x l -> p x = false) -> filter p l = [].
Proof.
  induction l as [|x l IH]; intros H; [reflexivity|].
  cbn [filter]. rewrite (H x (or_introl eq_refl)).
  apply IH. intros y Hy. apply H. now right.
Qed.

(** Past the first event later than [as_of] every event is later. *)
Lemma sorted_prefix_is_filter (timeline : list Event.t) :
  StronglySorted key_ordered timeline ->
  prefix_while (up_to as_of) timeline = filter (up_to as_of) timeline.
Proof.
  induction 1 as [|e rest Hs IH Hall]; [reflexivity|].
  cbn [prefix_while filter].
  destruct (up_to as_of e) eqn:He; [now rewrite IH|].
  symmetry. apply filter_none. intros b Hb.
  rewrite Forall_forall in Hall. specialize (Hall b Hb).
  apply key_le_timestamp in Hall. unfold sort_key in Hall; simpl in Hall.
  unfold up_to in *.
  destruct (String.leb (Event.timestamp b) as_of) eqn:Hb'; [|reflexivity].
  rewrite (str_leb_trans _ _ _ Hall Hb') in He. discriminate.
Qed.

(** A fold over at least one event never ends absent. *)
Lemma fold_apply_absent (snapshot : option Snapshot.t) (l : list Event.t) :
  fold_apply snapshot l = Ok None <-> snapshot = None /\ l = [].
Proof.
  split.
  - revert snapshot. induction l as [|e rest IH]; intros snapshot H.
    + simpl in H. injection H as ->. auto.
    + exfalso. cbn [fold_apply] in H.
      destruct (apply_event snapshot e) as [s|x]; cbn [bind] in H;
        [|discriminate].
      apply IH in H. destruct H; discriminate.
  - intros [-> ->]. reflexivity.
Qed.

End Derive.

(** C2. [derive_snapshot] is the deriver of the specification: it orders the
    events with [build_timeline], folds [apply_event] from absent over the
    prefix of the timeline up to the first event whose timestamp exceeds
    [as_of] (string comparison), which holds exactly the events with
    [timestamp <= as_of], and fails as the fold fails.  When the fold produced
    a snapshot, the result is that snapshot with its [as_of] overwritten: its
    [as_of] is the requested [as_of], whatever the timestamp of the last event
    applied, and its entity, state, last event and flag are those the fold
    produced.  The result is absent exactly when that prefix is empty. *)
Theorem derive_snapshot_folds_the_prefix (events : list Event.t)
    (as_of : string) :
  let reached := prefix_while (up_to as_of) (build_timeline events) in
  derive_snapshot events as_of = derive_by_prefix events as_of /\
  reached = filter (up_to as_of) (build_timeline events) /\
  (forall s, fold_apply None reached = Ok (Some s) ->
             exists s',
               derive_snapshot events as_of = Ok (Some s') /\
               Snapshot.as_of s' = as_of /\
               Snapshot.entity_id s' = Snapshot.entity_id s /\
               Snapshot.state s' = Snapshot.state s /\
               Snapshot.last_event_id s' = Snapshot.last_event_id s /\
               Snapshot.deleted s' = Snapshot.deleted s) /\
  (forall x, fold_apply None reached = Raise x ->
             derive_snapshot events as_of = Raise x) /\
  (derive_snapshot events as_of = Ok None <-> reached = []).
Proof.
  intros reached.
  assert (Hloop : replay_until as_of (build_timeline events) None =
                  fold_apply None reached) by apply replay_until_prefix.
  assert (Heq : derive_snapshot events as_of = derive_by_prefix events as_of).
  { unfold derive_snapshot, derive_by_prefix. rewrite Hloop. fold reached.
    destruct (fold_apply None reached) as [[s|]|x]; reflexivity. }
  split; [exact Heq|].
  split; [apply sorted_prefix_is_filter, build_timeline_sorted|].
  rewrite Heq. unfold derive_by_prefix. fold reached.
  repeat split.
  - intros s ->. cbn [bind]. eexists. split; [reflexivity|].
    cbn. repeat split.
  - intros x ->. reflexivity.
  - destruct (fold_apply None reached) as [[s|]|x] eqn:Hf; cbn; try discriminate.
    intros _. now apply fold_apply_absent in Hf.
  - intros ->. reflexivity.
Qed.

(** In July the company is as the update of June left it, as of July; and a
    log whose second creation fails cannot be derived past it. *)
Lemma derive_snapshot_folds_the_prefix_witness :
  derive_snapshot Company.shuffled "2024-07-01T00:00:00Z" =
    Ok (Some (Snapshot.mk "company-123" "2024-07-01T00:00:00Z"
                (Snapshot.state Company.stable) "evt-004" false)) /\
  derive_snapshot (Company.evt_001 :: Company.EVENTS)
    "2024-07-01T00:00:00Z" =
    Raise (ValueError (AlreadyExists "company-123")) /\
  derive_snapshot Company.EVENTS "2023-12-31T23:59:59Z" = Ok None.
Proof.
  split; [|split].
  - destruct (proj1 (proj2 (proj2 (derive_snapshot_folds_the_prefix
                                     Company.shuffled
                                     "2024-07-01T00:00:00Z")))
                Company.stable eq_refl)
      as [s' [H [H1 [H2 [H3 [H4 H5]]]]]].
    rewrite H. destruct s'. cbn in *. now subst.
  - apply (proj1 (proj2 (proj2 (proj2 (derive_snapshot_folds_the_prefix
                                         (Company.evt_001 :: Company.EVENTS)
                                         "2024-07-01T00:00:00Z"))))).
    reflexivity.
  - apply (proj2 (proj2 (proj2 (proj2 (derive_snapshot_folds_the_prefix
                                         Company.EVENTS
                                         "2023-12-31T23:59:59Z"))))).
    reflexivity.
Defined.

(** ** compute_diff *)

Section SortedUnion.

Lemma insert_key_In (k x : string) (l : list string) :
  In x (insert_key k l) <-> x = k \/ In x l.
Proof.
  induction l as [|k' l IH]; simpl; [intuition|].
  destruct (String.compare k k') eqn:E; simpl.
  - apply str_compare_eq in E. subst. intuition.
  - intuition.
  - rewrite IH. intuition.
Qed.

Lemma sorted_union_In (x : string) (ks1 ks2 : list string) :
  In x (sorted_union ks1 ks2) <-> In x ks1 \/ In x ks2.
Proof.
  unfold sorted_union. rewrite <- in_app_iff.
  induction (ks1 ++ ks2) as [|k l IH]; simpl; [tauto|].
  rewrite insert_key_In, IH. intuition.
Qed.

Lemma insert_key_sorted (k : string) (l : list string) :
  StronglySorted str_lt l -> StronglySorted str_lt (insert_key k l).
Proof.
  induction 1 as [|k' l Hl IH Hall]; simpl; [repeat constructor|].
  destruct (String.compare k k') eqn:E.
  - now constructor.
  - constructor; [now constructor|].
    constructor; [exact E|].
    eapply Forall_impl; [|exact Hall].
    intros b Hb. unfold str_lt in *. eapply str_lt_trans; eauto.
  - constructor; [exact IH|].
    apply Forall_forall. intros x Hx. apply insert_key_In in Hx.
    destruct Hx as [->|Hx].
    + now apply str_compare_gt_lt.
    + rewrite Forall_forall in Hall. auto.
Qed.

Lemma sorted_union_sorted (ks1 ks2 : list string) :
  StronglySorted str_lt (sorted_union ks1 ks2).
Proof.
  unfold sorted_union.
  induction (ks1 ++ ks2) as [|k l IH]; simpl; [constructor|].
  now apply insert_key_sorted.
Qed.

End SortedUnion.

Section DiffLoop.

Variables before after : option Snapshot.t.

(** The comparison the loop makes for a field. *)
Let differs (key : string) : bool :=
  py_ne (get_or (state_of before) key VNone) (get_or (state_of after) key VNone).

(** The loop appends the records of the differing fields, in the order of the
    fields it runs over. *)
Lemma diff_loop (all_keys : list string) (acc : list Change.t) :
  fold_left
    (fun changes key =>
       let before_val := get_or (state_of before) key VNone in
       let after_val := get_or (state_of after) key VNone in
       if py_ne before_val after_val
       then changes ++ [Change.mk key before_val after_val]
       else changes)
    all_keys acc =
  acc ++ map (field_change before after) (filter differs all_keys).
Proof.
  revert acc. induction all_keys as [|k l IH]; intros acc; cbn [fold_left filter].
  - now rewrite app_nil_r.
  - rewrite IH. unfold differs at 2.
    destruct (py_ne _ _); [|reflexivity].
    cbn [map]. now rewrite <- app_assoc.
Qed.

Lemma compute_diff_changes :
  Diff.changes (compute_diff before after) =
  deleted_change before after ++
  map (field_change before after)
    (filter differs
       (sorted_union (keys (state_of before)) (keys (state_of after)))).
Proof.
  unfold compute_diff. cbn [Diff.changes].
  change (match before with Some b => Snapshot.state b | None => [] end)
    with (state_of before).
  change (match after with Some a => Snapshot.state a | None => [] end)
    with (state_of after).
  change (match before with Some b => Snapshot.deleted b | None => false end)
    with (deleted_of before).
  change (match after with Some a => Snapshot.deleted a | None => false end)
    with (deleted_of after).
  apply diff_loop.
Qed.

End DiffLoop.

Lemma filter_sorted {A : Type} (R : A -> A -> Prop) (p : A -> bool)
    (l : list A) :
  StronglySorted R l -> StronglySorted R (filter p l).
Proof.
  induction 1 as [|x l Hl IH Hall]; cbn [filter]; [constructor|].
  destruct (p x); [|exact IH].
  constructor; [exact IH|].
  rewrite Forall_forall in *. intros y Hy. apply filter_In in Hy.
  now apply Hall.
Qed.

Lemma dict_get_In (d : dict) (k : string) (v : value) :
  dict_get d k = Some v -> In (k, v) d.
Proof.
  induction d as [|[k' v'] d IH]; simpl; [discriminate|].
  destruct (String.eqb_spec k k') as [->|_].
  - intros H. injection H as ->. now left.
  - intros H. right. auto.
Qed.

(** What a state with unique keys holds has unique keys. *)
Lemma get_or_unique_keys (d : dict) (k : string) :
  unique_keys_dict d = true -> unique_keys (get_or d k VNone) = true.
Proof.
  unfold unique_keys_dict, get_or. cbn [unique_keys]. intros H.
  apply andb_prop in H. destruct H as [_ H].
  destruct (dict_get d k) as [v|] eqn:E; [|reflexivity].
  apply dict_get_In in E. rewrite forallb_forall in H. apply (H (k, v) E).
Qed.

Lemma get_or_not_nan (d : dict) (k : string) :
  no_nan_field d = true -> is_nan (get_or d k VNone) = false.
Proof.
  unfold no_nan_field, get_or. intros H.
  destruct (dict_get d k) as [v|] eqn:E; [|reflexivity].
  apply dict_get_In in E. rewrite forallb_forall in H.
  apply negb_true_iff. apply (H (k, v) E).
Qed.

(** C5, as the code has it.  After the record of the [deleted] flag,
    [compute_diff] emits one record per field of the union of the two states'
    field names, in strictly ascending (lexicographic) order of the names,
    exactly for the fields whose two values are unequal under Python's [==],
    where a field a state lacks is read as [None]: the record of a field
    carries [None] for an absent field exactly as for a field that is present
    with the value [None]. *)
Theorem compute_diff_field_records (before after : option Snapshot.t) :
  exists fields : list string,
    Diff.changes (compute_diff before after) =
      deleted_change before after ++
      map (field_change before after) fields /\
    StronglySorted str_lt fields /\
    (forall k,
        In k fields <->
        (In k (keys (state_of before)) \/ In k (keys (state_of after))) /\
        py_eq (get_or (state_of before) k VNone)
              (get_or (state_of after) k VNone) = false) /\
    (forall k,
        dict_get (state_of before) k = None ->
        Change.before (field_change before after k) = VNone) /\
    (forall k,
        dict_get (state_of after) k = None ->
        Change.after (field_change before after k) = VNone).
Proof.
  eexists. split; [apply compute_diff_changes|].
  split; [apply filter_sorted, sorted_union_sorted|].
  split; [|split].
  - intros k. rewrite filter_In, sorted_union_In.
    unfold py_ne. now rewrite negb_true_iff.
  - intros k H. unfold field_change, get_or; cbn. now rewrite H.
  - intros k H. unfold field_change, get_or; cbn. now rewrite H.
Qed.

(** C5, as the claim has it, fails: a state that lacks the field [note] and a
    state that holds [note] with the value [None] give the same diff against
    any third state, and diffed against each other they give no record,
    although [note] is in the union of the field names. *)
Lemma compute_diff_absent_is_null :
  dict_get [] "note" = None /\
  dict_get [("note", VNone)] "note" = Some VNone /\
  compute_diff (Company.with_state [])
               (Company.with_state [("note", VInt 1)]) =
    compute_diff (Company.with_state [("note", VNone)])
                 (Company.with_state [("note", VInt 1)]) /\
  Diff.changes (compute_diff (Company.with_state [])
                             (Company.with_state [("note", VInt 1)])) =
    [Change.mk "note" VNone (VInt 1)] /\
  Diff.changes (compute_diff (Company.with_state [])
                             (Company.with_state [("note", VNone)])) = [].
Proof. repeat split. Qed.

(** C7, as the code has it.  Diffing an optional snapshot, absent included,
    against itself reports no change, provided no field of its state is a
    float NaN: a NaN inside a list or a dictionary is compared by identity and
    does no harm.  ([unique_keys_dict]: the state is a Python dictionary.) *)
Theorem compute_diff_same (s : option Snapshot.t) :
  unique_keys_dict (state_of s) = true ->
  no_nan_field (state_of s) = true ->
  Diff.changes (compute_diff s s) = [].
Proof.
  intros Hu Hn. rewrite compute_diff_changes.
  unfold deleted_change. rewrite Bool.eqb_reflx. cbn [negb app].
  rewrite filter_none; [reflexivity|].
  intros k _. unfold py_ne.
  now rewrite py_eq_refl
    by (apply get_or_unique_keys, Hu || apply get_or_not_nan, Hn).
Qed.

(** A snapshot with a float and with a NaN inside a list, against itself. *)
Lemma compute_diff_same_witness :
  unique_keys_dict (state_of (Some Company.measured)) = true /\
  no_nan_field (state_of (Some Company.measured)) = true /\
  Diff.changes
    (compute_diff (Some Company.measured) (Some Company.measured)) = [].
Proof.
  split; [reflexivity|]. split; [reflexivity|].
  apply compute_diff_same; reflexivity.
Defined.

(** C7, as the claim has it, fails: a field that is a float NaN is unequal to
    itself, and the diff of the snapshot against itself reports it. *)
Lemma compute_diff_same_reports_nan :
  Diff.changes
    (compute_diff (Some Company.unmeasured) (Some Company.unmeasured)) =
  [Change.mk "growth" (Company.nan 1) (Company.nan 1)].
Proof. reflexivity. Qed.

(** ** apply_event *)

Section Removal.

Variables target rel_type : value.

Let unmatched (r : value) : bool := negb (record_matches target rel_type r).

(** On relationship records the comprehension is a filter. *)
Lemma keep_unmatched_filter (rs : list value) :
  forallb is_dict rs = true ->
  keep_unmatched target rel_type rs = Ok (filter unmatched rs).
Proof.
  induction rs as [|r rs IH]; [reflexivity|].
  cbn [forallb]. intros H. apply andb_prop in H. destruct H as [Hr Hrs].
  cbn [keep_unmatched filter]. rewrite (IH Hrs).
  destruct r; try discriminate. cbn [rel_matches bind].
  unfold unmatched. cbn [record_matches].
  now destruct (andb _ _).
Qed.

Lemma filter_keeps_length {A : Type} (p : A -> bool) (l : list A) :
  Nat.eqb (List.length (filter p l)) (List.length l) = forallb p l.
Proof.
  induction l as [|x l IH]; [reflexivity|].
  cbn [filter forallb]. destruct (p x); cbn [List.length andb].
  - exact IH.
  - apply Nat.eqb_neq. pose proof (filter_length_le p l). lia.
Qed.

Lemma forallb_unmatched (rs : list value) :
  forallb unmatched rs = negb (existsb (record_matches target rel_type) rs).
Proof.
  induction rs as [|r rs IH]; [reflexivity|].
  cbn [forallb existsb]. rewrite IH. unfold unmatched.
  now rewrite negb_orb.
Qed.

End Removal.

Section Reducer.

Lemma dict_set_set (d : dict) (k : string) (v w : value) :
  dict_set (dict_set d k v) k w = dict_set d k w.
Proof.
  induction d as [|[k' v'] d IH]; simpl.
  - now rewrite String.eqb_refl.
  - destruct (String.eqb k k') eqn:E; simpl; rewrite E; [reflexivity|].
    now rewrite IH.
Qed.

Variable event : Event.t.
Variable s : Snapshot.t.
Hypothesis Hlive : Snapshot.deleted s = false.

Let payload : dict := Event.payload event.
Let st : dict := Snapshot.state s.

(** [relationship_removed] on a live snapshot filters the records, and fails
    when the filter removed nothing. *)
Lemma apply_removed :
  Event.event_type event = "relationship_removed" ->
  relationships_typed st = true ->
  apply_event (Some s) event =
  if has_match st payload
  then Ok (produced event
             (dict_set st "relationships"
                (VList (filter
                          (fun r => negb (record_matches (target_of payload)
                                            (rel_type_of payload) r))
                          (relationships_of st))))
             false)
  else Raise (ValueError (RelationshipNotFound (rel_type_of payload)
                            (target_of payload))).
Proof.
  intros Hty Htyped. unfold apply_event. rewrite Hty, Hlive. cbn [String.eqb Ascii.eqb Bool.eqb].
  fold payload st.
  unfold has_match, relationships_of, relationships_typed, get_or in *.
  fold (target_of payload) (rel_type_of payload).
  destruct (dict_get st "relationships") as [[| | | | |rs|]|]; try discriminate.
  - cbn [py_iter bind]. rewrite keep_unmatched_filter by exact Htyped.
    cbn [bind]. rewrite filter_keeps_length, forallb_unmatched.
    now destruct (existsb _ rs).
  - reflexivity.
Qed.

(** [relationship_added] on a live snapshot whose [relationships] is absent or
    a list appends one record. *)
Lemma apply_added :
  Event.event_type event = "relationship_added" ->
  (dict_get st "relationships" = None \/
   exists rs, dict_get st "relationships" = Some (VList rs)) ->
  properties_typed payload = true ->
  apply_event (Some s) event =
  Ok (produced event
        (dict_set st "relationships"
           (VList (relationships_of st ++ [VDict (added_record payload)])))
        false).
Proof.
  intros Hty Hrel Hprops. unfold apply_event. rewrite Hty, Hlive.
  cbn [String.eqb Ascii.eqb Bool.eqb].
  fold payload st.
  unfold relationships_of, added_record, properties_of, properties_typed, dict_mem in *.
  fold (target_of payload) (rel_type_of payload).
  destruct Hrel as [Hnone|[rs Hsome]].
  - rewrite Hnone. cbn [negb]. unfold get_or at 1.
    rewrite dict_get_set_same. cbv iota. unfold get_or at 1.
    destruct (dict_get payload "properties") as [[| | | | | |props]|];
      try discriminate; now rewrite dict_set_set.
  - rewrite Hsome. cbn [negb]. unfold get_or at 1. rewrite Hsome.
    unfold get_or at 1.
    destruct (dict_get payload "properties") as [[| | | | | |props]|];
      try discriminate; reflexivity.
Qed.

End Reducer.

Section Branches.

Variable event : Event.t.

Let ty : string := Event.event_type event.
Let eid : string := Event.entity_id event.

Lemma mutating_inv (act : action) :
  mutating ty = Some act ->
  ty = match act with
       | Update => "updated"
       | Delete => "deleted"
       | AddRelationship => "relationship_added"
       | RemoveRelationship => "relationship_removed"
       end.
Proof.
  unfold mutating.
  destruct (String.eqb_spec ty "updated"); [intros [= <-]; assumption|].
  destruct (String.eqb_spec ty "deleted"); [intros [= <-]; assumption|].
  destruct (String.eqb_spec ty "relationship_added");
    [intros [= <-]; assumption|].
  destruct (String.eqb_spec ty "relationship_removed");
    [intros [= <-]; assumption|].
  discriminate.
Qed.

Lemma apply_created (snapshot : option Snapshot.t) :
  ty = "created" ->
  apply_event snapshot event =
  if live snapshot
  then Raise (ValueError (AlreadyExists eid))
  else Ok (produced event (Event.payload event) false).
Proof.
  intros Hty. unfold apply_event. fold ty. rewrite Hty.
  cbn [String.eqb Ascii.eqb Bool.eqb].
  destruct snapshot as [s|]; cbn [live]; [|reflexivity].
  now destruct (Snapshot.deleted s).
Qed.

Lemma apply_absent (act : action) :
  mutating ty = Some act ->
  apply_event None event = Raise (ValueError (DoesNotExist act eid)).
Proof.
  intros H. apply mutating_inv in H. unfold apply_event. fold ty.
  rewrite H. now destruct act.
Qed.

Lemma apply_deleted_snapshot (act : action) (s : Snapshot.t) :
  mutating ty = Some act ->
  Snapshot.deleted s = true ->
  apply_event (Some s) event = Raise (ValueError (HasBeenDeleted act eid)).
Proof.
  intros H Hdel. apply mutating_inv in H. unfold apply_event. fold ty.
  rewrite H, Hdel. now destruct act.
Qed.

Lemma apply_updated (s : Snapshot.t) :
  ty = "updated" ->
  Snapshot.deleted s = false ->
  apply_event (Some s) event =
  Ok (produced event (dict_update (Snapshot.state s) (Event.payload event))
        false).
Proof.
  intros Hty Hlive. unfold apply_event. fold ty. now rewrite Hty, Hlive.
Qed.

Lemma apply_deleted (s : Snapshot.t) :
  ty = "deleted" ->
  Snapshot.deleted s = false ->
  apply_event (Some s) event =
  Ok (produced event [("_deleted_state", VDict (Snapshot.state s))] true).
Proof.
  intros Hty Hlive. unfold apply_event. fold ty. now rewrite Hty, Hlive.
Qed.

Lemma apply_unknown (snapshot : option Snapshot.t) :
  ty <> "created" ->
  mutating ty = None ->
  apply_event snapshot event = Raise (ValueError (UnknownEventType ty)).
Proof.
  intros Hc Hm. unfold apply_event, mutating in *. fold ty in Hm |- *.
  destruct (String.eqb_spec ty "created"); [contradiction|].
  destruct (ty =? "updated"); [discriminate|].
  destruct (ty =? "deleted"); [discriminate|].
  destruct (ty =? "relationship_added"); [discriminate|].
  destruct (ty =? "relationship_removed"); [discriminate|].
  reflexivity.
Qed.

(** On typed data the reducer returns a snapshot exactly under the
    precondition of its table, and otherwise fails with a [ValueError]. *)
Lemma apply_event_outcome (snapshot : option Snapshot.t) :
  relationships_typed (state_of snapshot) = true ->
  properties_typed (Event.payload event) = true ->
  if precondition snapshot event
  then exists s', apply_event snapshot event = Ok s'
  else exists m, apply_event snapshot event = Raise (ValueError m).
Proof.
  intros Hrel Hprops. unfold precondition. fold ty.
  destruct (String.eqb_spec ty "created") as [Hc|Hc].
  - rewrite (apply_created _ Hc). destruct (live snapshot); cbn; eauto.
  - destruct (mutating ty) as [act|] eqn:Hm;
      [|rewrite (apply_unknown _ Hc Hm); eauto].
    destruct snapshot as [s|];
      [|rewrite (apply_absent _ Hm); destruct act; cbn; eauto].
    cbn [live state_of] in *.
    destruct (Snapshot.deleted s) eqn:Hdel;
      [rewrite (apply_deleted_snapshot _ _ Hm Hdel); destruct act; cbn; eauto|].
    pose proof (mutating_inv _ Hm) as Hty.
    destruct act; cbn [negb andb].
    + rewrite (apply_updated _ Hty Hdel). eauto.
    + rewrite (apply_deleted _ Hty Hdel). eauto.
    + rewrite (apply_added _ _ Hdel Hty); eauto.
      unfold relationships_typed in Hrel.
      destruct (dict_get (Snapshot.state s) "relationships")
        as [[| | | | |rs|]|]; try discriminate; eauto.
    + rewrite (apply_removed _ _ Hdel Hty Hrel).
      destruct (has_match _ _); eauto.
Qed.

End Branches.

(** ** The reducer's contract *)

Lemma unknown_event_type (ty : string) :
  ~ In ty valid_types -> ty <> "created" /\ mutating ty = None.
Proof.
  intros H. split.
  - intros ->. apply H. cbn. auto.
  - unfold mutating.
    destruct (String.eqb_spec ty "updated") as [->|_];
      [exfalso; apply H; cbn; auto|].
    destruct (String.eqb_spec ty "deleted") as [->|_];
      [exfalso; apply H; cbn; auto|].
    destruct (String.eqb_spec ty "relationship_added") as [->|_];
      [exfalso; apply H; cbn; auto|].
    destruct (String.eqb_spec ty "relationship_removed") as [->|_];
      [exfalso; apply H; cbn; tauto|].
    reflexivity.
Qed.

(** C1, as the code has it.  [apply_event] enforces the precondition of the
    event's type: [created] on a live snapshot fails with "already exists";
    each of the four mutating types fails with "does not exist" on an absent
    snapshot and with "has been deleted" on a deleted one; a type outside the
    five fails with "unknown event type"; and for [created], [updated] and
    [deleted] a snapshot is returned exactly when the precondition holds.  For
    the two relationship types the same is so on a snapshot and an event of
    the data model (the [relationships] of the state absent or a list of
    dictionaries, the [properties] of the payload absent or a dictionary):
    [relationship_removed] on a live snapshot with no matching record fails
    with "relationship not found", a snapshot is returned exactly when the
    precondition holds, and a [ValueError] is raised otherwise. *)
Theorem apply_event_enforces_preconditions
    (snapshot : option Snapshot.t) (event : Event.t) :
  let ty := Event.event_type event in
  let eid := Event.entity_id event in
  let payload := Event.payload event in
  (ty = "created" -> live snapshot = true ->
   apply_event snapshot event = Raise (ValueError (AlreadyExists eid))) /\
  (forall act, mutating ty = Some act -> snapshot = None ->
   apply_event snapshot event = Raise (ValueError (DoesNotExist act eid))) /\
  (forall act s, mutating ty = Some act -> snapshot = Some s ->
   Snapshot.deleted s = true ->
   apply_event snapshot event = Raise (ValueError (HasBeenDeleted act eid))) /\
  (~ In ty valid_types ->
   apply_event snapshot event = Raise (ValueError (UnknownEventType ty))) /\
  (ty = "created" \/ ty = "updated" \/ ty = "deleted" ->
   ((exists s', apply_event snapshot event = Ok s') <->
    precondition snapshot event = true)) /\
  (relationships_typed (state_of snapshot) = true ->
   properties_typed payload = true ->
   (ty = "relationship_removed" -> live snapshot = true ->
    has_match (state_of snapshot) payload = false ->
    apply_event snapshot event =
    Raise (ValueError (RelationshipNotFound (rel_type_of payload)
                         (target_of payload)))) /\
   ((exists s', apply_event snapshot event = Ok s') <->
    precondition snapshot event = true) /\
   (precondition snapshot event = false ->
    exists m, apply_event snapshot event = Raise (ValueError m))).
Proof.
  intros ty eid payload.
  split; [|split; [|split; [|split; [|split]]]].
  - intros Hty Hl. unfold eid. rewrite (apply_created _ _ Hty).
    now rewrite Hl.
  - intros act Hm ->. now apply apply_absent.
  - intros act s Hm -> Hdel. now apply apply_deleted_snapshot.
  - intros Hout. apply unknown_event_type in Hout.
    destruct Hout. now apply apply_unknown.
  - intros Hty. unfold precondition. fold ty.
    destruct Hty as [Hty|[Hty|Hty]]; rewrite Hty;
      cbn [String.eqb Ascii.eqb Bool.eqb mutating].
    + rewrite (apply_created _ _ Hty).
      destruct (live snapshot); cbn [negb]; split; eauto; try discriminate.
      intros [s' H]. discriminate.
    + destruct snapshot as [s|]; cbn [live].
      * destruct (Snapshot.deleted s) eqn:Hdel; cbn [negb].
        -- assert (Hm : mutating ty = Some Update) by now rewrite Hty.
           rewrite (apply_deleted_snapshot _ _ _ Hm Hdel).
           split; [intros [s' H]|]; discriminate.
        -- rewrite (apply_updated _ _ Hty Hdel). split; eauto.
      * assert (Hm : mutating ty = Some Update) by now rewrite Hty.
        rewrite (apply_absent _ _ Hm). split; [intros [s' H]|]; discriminate.
    + destruct snapshot as [s|]; cbn [live].
      * destruct (Snapshot.deleted s) eqn:Hdel; cbn [negb].
        -- assert (Hm : mutating ty = Some Delete) by now rewrite Hty.
           rewrite (apply_deleted_snapshot _ _ _ Hm Hdel).
           split; [intros [s' H]|]; discriminate.
        -- rewrite (apply_deleted _ _ Hty Hdel). split; eauto.
      * assert (Hm : mutating ty = Some Delete) by now rewrite Hty.
        rewrite (apply_absent _ _ Hm). split; [intros [s' H]|]; discriminate.
  - intros Hrel Hprops.
    pose proof (apply_event_outcome event snapshot Hrel Hprops) as H.
    split; [|split].
    + intros Hty Hl Hno. destruct snapshot as [s|]; [|discriminate].
      cbn [live state_of] in *. apply negb_true_iff in Hl.
      rewrite (apply_removed _ _ Hl Hty Hrel). fold payload. now rewrite Hno.
    + destruct (precondition snapshot event); split; auto.
      * intros [s' Hs']. destruct H as [m Hm]. congruence.
      * discriminate.
    + intros Hp. now rewrite Hp in H.
Qed.

(** On the company with three records, one of a supplier, the dismissal and
    the hire are of the data model and apply, and dismissing a stranger
    fails with "relationship not found". *)
Lemma apply_event_enforces_preconditions_witness :
  relationships_typed
    (state_of (Some (Company.related (VList Company.staff)))) = true /\
  properties_typed (Event.payload Company.dismiss) = true /\
  precondition (Some (Company.related (VList Company.staff)))
    Company.dismiss = true /\
  (exists s',
      apply_event (Some (Company.related (VList Company.staff)))
        Company.dismiss = Ok s') /\
  precondition (Some (Company.related (VList Company.partners)))
    Company.dismiss = false /\
  exists m,
    apply_event (Some (Company.related (VList Company.partners)))
      Company.dismiss = Raise (ValueError m).
Proof.
  split; [reflexivity|]. split; [reflexivity|]. split; [reflexivity|].
  split.
  - apply (apply_event_enforces_preconditions
             (Some (Company.related (VList Company.staff))) Company.dismiss);
      reflexivity.
  - split; [reflexivity|].
    apply (apply_event_enforces_preconditions
             (Some (Company.related (VList Company.partners)))
             Company.dismiss); reflexivity.
Defined.

(** C1, as the claim has it, fails: the reducer does not check the shape of
    what it is given.  A creation whose payload holds [relationships] with the
    value [None] applies, and on the snapshot it returns a
    [relationship_added] event, whose precondition holds, raises an
    [AttributeError]; a hire whose [properties] is a string raises a
    [TypeError]; and a removal on a list that holds a string raises an
    [AttributeError], not "relationship not found". *)
Lemma apply_event_raises_on_untyped_data :
  apply_event None Company.founded_oddly =
    Ok (produced Company.founded_oddly
          (Event.payload Company.founded_oddly) false) /\
  precondition
    (Some (produced Company.founded_oddly
             (Event.payload Company.founded_oddly) false))
    Company.bare_link = true /\
  apply_event
    (Some (produced Company.founded_oddly
             (Event.payload Company.founded_oddly) false))
    Company.bare_link = Raise AttributeError /\
  precondition (Some Company.expanding) Company.hire_labelled = true /\
  apply_event (Some Company.expanding) Company.hire_labelled =
    Raise TypeError /\
  apply_event (Some (Company.related (VList [VStr "r->x"]))) Company.dismiss =
    Raise AttributeError.
Proof. repeat split. Qed.

(** C6, as the code has it.  On a live snapshot whose [relationships] is
    absent or a list of dictionaries, [relationship_removed] fails with
    "relationship not found" exactly when no record has both the type and the
    target of the payload, and otherwise returns a snapshot whose
    [relationships] is the sequence without every such record: all matching
    records go, the others stay, in order. *)
Theorem relationship_removed_removes_every_match
    (s : Snapshot.t) (event : Event.t) :
  Snapshot.deleted s = false ->
  Event.event_type event = "relationship_removed" ->
  relationships_typed (Snapshot.state s) = true ->
  let payload := Event.payload event in
  let matches := record_matches (target_of payload) (rel_type_of payload) in
  let rs := relationships_of (Snapshot.state s) in
  (apply_event (Some s) event =
   Raise (ValueError (RelationshipNotFound (rel_type_of payload)
                        (target_of payload))) <->
   forall r, In r rs -> matches r = false) /\
  ((exists r, In r rs /\ matches r = true) ->
   exists s',
     apply_event (Some s) event = Ok s' /\
     dict_get (Snapshot.state s') "relationships" =
       Some (VList (filter (fun r => negb (matches r)) rs)) /\
     (forall r, In r (relationships_of (Snapshot.state s')) <->
                In r rs /\ matches r = false)).
Proof.
  intros Hlive Hty Hrel payload matches rs.
  rewrite (apply_removed _ _ Hlive Hty Hrel).
  unfold has_match. fold payload matches rs.
  destruct (existsb matches rs) eqn:Hex.
  - split.
    + split; [discriminate|]. intros Hall.
      apply existsb_exists in Hex. destruct Hex as [r [Hin Hr]].
      rewrite (Hall r Hin) in Hr. discriminate.
    + intros _. eexists. split; [reflexivity|]. cbn [produced Snapshot.state].
      split; [apply dict_get_set_same|].
      intros r. unfold relationships_of at 1. rewrite dict_get_set_same.
      rewrite filter_In, negb_true_iff. tauto.
  - split.
    + split; [|reflexivity]. intros _ r Hin.
      destruct (matches r) eqn:Hr; [|reflexivity].
      assert (existsb matches rs = true)
        by (apply existsb_exists; eauto).
      congruence.
    + intros Hsome. apply existsb_exists in Hsome. congruence.
Qed.

(** Of the three records of the company the two that employ [person-456]
    go, the first and the last, and the supplier between them stays. *)
Lemma relationship_removed_removes_every_match_witness :
  relationships_of (Snapshot.state (Company.related (VList Company.staff))) =
    Company.staff /\
  exists s',
    apply_event (Some (Company.related (VList Company.staff)))
      Company.dismiss = Ok s' /\
    dict_get (Snapshot.state s') "relationships" =
      Some (VList [VDict [("type", VStr "supplied_by");
                          ("target", VStr "org-789")]]).
Proof.
  split; [reflexivity|].
  destruct (relationship_removed_removes_every_match
              (Company.related (VList Company.staff))
              Company.dismiss eq_refl eq_refl eq_refl) as [_ H].
  destruct H as [s' [H1 [H2 _]]].
  - eexists. split; [left; reflexivity|reflexivity].
  - exists s'. split; [exact H1|exact H2].
Defined.

(** C6, as the claim has it, fails: where [relationships] is not a list of
    dictionaries no record matches, yet the removal does not fail with
    "relationship not found".  On a list that holds a string it raises an
    [AttributeError], and on a number a [TypeError]. *)
Lemma relationship_removed_raises_on_untyped_data :
  has_match (Snapshot.state (Company.related (VList [VStr "r->x"])))
    (Event.payload Company.dismiss) = false /\
  apply_event (Some (Company.related (VList [VStr "r->x"]))) Company.dismiss =
    Raise AttributeError /\
  has_match (Snapshot.state (Company.related (VInt 7)))
    (Event.payload Company.dismiss) = false /\
  apply_event (Some (Company.related (VInt 7))) Company.dismiss =
    Raise TypeError.
Proof. repeat split. Qed.

(** C10, as the code has it.  On a live snapshot whose [relationships] is
    absent or a list, a [relationship_added] event whose [properties] is absent
    or a dictionary succeeds whatever keys its payload lacks.  The appended record
    is [type] and [target], each [None] when the payload lacks
    [relationship_type] or [target_entity], updated with the entries of
    [properties]: with [properties] missing the record has these two fields
    and no other, and a missing type or target stays [None] unless
    [properties] holds a key of that name. *)
Theorem relationship_added_missing_keys (s : Snapshot.t) (event : Event.t) :
  Snapshot.deleted s = false ->
  Event.event_type event = "relationship_added" ->
  (dict_get (Snapshot.state s) "relationships" = None \/
   exists rs, dict_get (Snapshot.state s) "relationships" = Some (VList rs)) ->
  properties_typed (Event.payload event) = true ->
  let payload := Event.payload event in
  exists s',
    apply_event (Some s) event = Ok s' /\
    dict_get (Snapshot.state s') "relationships" =
      Some (VList (relationships_of (Snapshot.state s) ++
                   [VDict (added_record payload)])) /\
    (dict_get payload "properties" = None ->
     added_record payload =
     [("type", rel_type_of payload); ("target", target_of payload)]) /\
    (dict_get payload "relationship_type" = None ->
     dict_get (properties_of payload) "type" = None ->
     dict_get (added_record payload) "type" = Some VNone) /\
    (dict_get payload "target_entity" = None ->
     dict_get (properties_of payload) "target" = None ->
     dict_get (added_record payload) "target" = Some VNone).
Proof.
  intros Hlive Hty Hrel Hprops payload.
  eexists. split; [now apply apply_added|].
  cbn [produced Snapshot.state]. fold payload.
  split; [apply dict_get_set_same|].
  unfold added_record.
  split; [|split].
  - intros Hnone. unfold properties_of. now rewrite Hnone.
  - intros Hnone Hp. rewrite dict_get_update_absent by exact Hp.
    unfold rel_type_of, get_or. now rewrite Hnone.
  - intros Hnone Hp. rewrite dict_get_update_absent by exact Hp.
    unfold target_of, get_or. now rewrite Hnone.
Qed.

(** A payload with no key at all appends a record of two nulls to the
    record the company holds. *)
Lemma relationship_added_missing_keys_witness :
  exists s',
    apply_event (Some Company.stable) Company.bare_link = Ok s' /\
    dict_get (Snapshot.state s') "relationships" =
      Some (VList [VDict [("type", VStr "employs");
                          ("target", VStr "person-456");
                          ("role", VStr "engineer");
                          ("start_date", VStr "2024-03-20")];
                   VDict [("type", VNone); ("target", VNone)]]).
Proof.
  destruct (relationship_added_missing_keys Company.stable
              Company.bare_link eq_refl eq_refl
              (or_intror (ex_intro _ _ eq_refl)) eq_refl)
    as [s' [H1 [H2 _]]].
  exists s'. split; [exact H1|exact H2].
Defined.

(** C10, as the claim has it, fails.  A payload that lacks
    [relationship_type] and whose [properties] holds a [type] gives a record
    whose type is that property, not [None]; a payload with no key at all
    raises an [AttributeError] when the [relationships] of the state is
    [None]; and a payload that lacks [relationship_type] and whose
    [properties] is a string raises a [TypeError]. *)
Lemma relationship_added_type_from_properties :
  dict_get (Event.payload Company.untyped_link) "relationship_type" = None /\
  apply_event (Some Company.expanding) Company.untyped_link =
  Ok (Snapshot.mk "company-123" "2024-09-01T00:00:00Z"
        [("name", VStr "Acme Corp"); ("status", VStr "expanding");
         ("founded", VStr "2024-01-01"); ("employee_count", VInt 10);
         ("relationships",
          VList [VDict [("type", VStr "manages");
                        ("target", VStr "person-456")]])]
        "evt-006" false) /\
  apply_event (Some (Company.related VNone)) Company.bare_link =
    Raise AttributeError /\
  dict_get (Event.payload Company.link_labelled) "relationship_type" = None /\
  apply_event (Some Company.expanding) Company.link_labelled =
    Raise TypeError.
Proof. repeat split. Qed.

Section RoundTrip.

Variables target rel_type : value.

Lemma filter_all {A : Type} (p : A -> bool) (l : list A) :
  forallb p l = true -> filter p l = l.
Proof.
  induction l as [|x l IH]; cbn [forallb filter]; [reflexivity|].
  intros H. apply andb_prop in H. destruct H as [-> H]. now rewrite IH.
Qed.

(** Removing the pair from a sequence that held no match before a matching
    record was appended gives the sequence back. *)
Lemma remove_appended (rs : list value) (r : value) :
  existsb (record_matches target rel_type) rs = false ->
  record_matches target rel_type r = true ->
  filter (fun x => negb (record_matches target rel_type x)) (rs ++ [r]) = rs.
Proof.
  intros Hno Hr. rewrite filter_app. cbn [filter]. rewrite Hr. cbn [negb].
  rewrite app_nil_r. apply filter_all.
  rewrite forallb_unmatched, Hno. reflexivity.
Qed.

End RoundTrip.

(** C4, as the code has it.  On a live snapshot whose [relationships] is
    absent or a list of dictionaries none of which matches the pair [(T, X)],
    applying [relationship_added] for [(T, X)], neither of them a NaN, with
    properties that are absent or a dictionary holding neither a [type] nor a
    [target], and then [relationship_removed] for [(T, X)], returns a snapshot
    whose [relationships] is the sequence of the snapshot before the add, the
    empty sequence when its state had no such field.  ([unique_keys]: [T] and
    [X] are Python values, so the dictionaries in them have distinct keys.) *)
Theorem add_then_remove_restores_relationships
    (s : Snapshot.t) (add remove : Event.t) :
  Snapshot.deleted s = false ->
  Event.event_type add = "relationship_added" ->
  Event.event_type remove = "relationship_removed" ->
  rel_type_of (Event.payload remove) = rel_type_of (Event.payload add) ->
  target_of (Event.payload remove) = target_of (Event.payload add) ->
  relationships_typed (Snapshot.state s) = true ->
  properties_typed (Event.payload add) = true ->
  has_match (Snapshot.state s) (Event.payload add) = false ->
  dict_get (properties_of (Event.payload add)) "type" = None ->
  dict_get (properties_of (Event.payload add)) "target" = None ->
  unique_keys (rel_type_of (Event.payload add)) = true ->
  unique_keys (target_of (Event.payload add)) = true ->
  is_nan (rel_type_of (Event.payload add)) = false ->
  is_nan (target_of (Event.payload add)) = false ->
  exists s1 s2,
    apply_event (Some s) add = Ok s1 /\
    apply_event (Some s1) remove = Ok s2 /\
    dict_get (Snapshot.state s2) "relationships" =
      Some (VList (relationships_of (Snapshot.state s))).
Proof.
  intros Hlive Hadd Hrem HT HX Hrel Hprops Hno Hpt Hpx HuT HuX HnT HnX.
  set (rs := relationships_of (Snapshot.state s)).
  set (rec := added_record (Event.payload add)).
  assert (Hshape : dict_get (Snapshot.state s) "relationships" = None \/
                   exists l, dict_get (Snapshot.state s) "relationships" =
                             Some (VList l)).
  { unfold relationships_typed in Hrel.
    destruct (dict_get (Snapshot.state s) "relationships")
      as [[| | | | |l|]|]; try discriminate; eauto. }
  assert (Hdicts : forallb is_dict rs = true).
  { unfold rs, relationships_of, relationships_typed in *.
    destruct (dict_get (Snapshot.state s) "relationships")
      as [[| | | | |l|]|]; try discriminate; auto. }
  assert (Hrec : record_matches (target_of (Event.payload add))
                   (rel_type_of (Event.payload add)) (VDict rec) = true).
  { unfold rec, added_record. cbn [record_matches]. unfold get_or.
    rewrite !dict_get_update_absent by assumption. cbn.
    now rewrite !py_eq_refl by assumption. }
  pose proof (apply_added add s Hlive Hadd Hshape Hprops) as H1.
  fold rs rec in H1.
  set (s1 := produced add
               (dict_set (Snapshot.state s) "relationships"
                  (VList (rs ++ [VDict rec]))) false) in *.
  assert (Hget1 : dict_get (Snapshot.state s1) "relationships" =
                  Some (VList (rs ++ [VDict rec])))
    by apply dict_get_set_same.
  assert (Hrel1 : relationships_typed (Snapshot.state s1) = true).
  { unfold relationships_typed. rewrite Hget1, forallb_app, Hdicts.
    reflexivity. }
  pose proof (apply_removed remove s1 eq_refl Hrem Hrel1) as H2.
  unfold has_match, relationships_of in H2. rewrite Hget1, HT, HX in H2.
  unfold has_match in Hno. fold rs in Hno.
  rewrite existsb_app, Hno in H2. cbn [existsb orb] in H2. rewrite Hrec in H2.
  cbn [orb] in H2. rewrite (remove_appended _ _ _ _ Hno Hrec) in H2.
  eexists. eexists. split; [exact H1|]. split; [exact H2|].
  cbn [produced Snapshot.state]. apply dict_get_set_same.
Qed.

(** The company has a supplier and sells to [person-456]: hiring
    [person-456] as an engineer and dismissing them gives the two records
    back. *)
Lemma add_then_remove_restores_relationships_witness :
  has_match (Snapshot.state (Company.related (VList Company.partners)))
    (Event.payload Company.hire_as_engineer) = false /\
  exists s1 s2,
    apply_event (Some (Company.related (VList Company.partners)))
      Company.hire_as_engineer = Ok s1 /\
    dict_get (Snapshot.state s1) "relationships" =
      Some (VList (Company.partners ++
                   [VDict [("type", VStr "employs");
                           ("target", VStr "person-456");
                           ("role", VStr "engineer")]])) /\
    apply_event (Some s1) Company.dismiss = Ok s2 /\
    dict_get (Snapshot.state s2) "relationships" =
      Some (VList Company.partners).
Proof.
  split; [reflexivity|].
  destruct (add_then_remove_restores_relationships
              (Company.related (VList Company.partners))
              Company.hire_as_engineer Company.dismiss
              eq_refl eq_refl eq_refl eq_refl eq_refl eq_refl eq_refl eq_refl
              eq_refl eq_refl eq_refl eq_refl eq_refl eq_refl)
    as [s1 [s2 [H1 [H2 H3]]]].
  exists s1, s2. split; [exact H1|].
  split; [|split; [exact H2|exact H3]].
  vm_compute in H1. injection H1 as <-. reflexivity.
Defined.

(** C4, as the claim has it, fails.  A record of the pair that was there
    before the add is removed with the added one; a state without the field
    ends with an empty sequence; when the properties of the add carry a
    [type] the added record does not match the pair, so that the removal finds
    nothing; a target that is a NaN matches nothing, not even itself; and
    where [relationships] holds a string, or [properties] is one, an
    [AttributeError] or a [TypeError] is raised. *)
Lemma add_then_remove_not_inverse :
  relationships_of (Snapshot.state Company.stable) =
    [VDict [("type", VStr "employs"); ("target", VStr "person-456");
            ("role", VStr "engineer"); ("start_date", VStr "2024-03-20")]] /\
  fold_apply (Some Company.stable) [Company.hire; Company.dismiss] =
    Ok (Some (Snapshot.mk "company-123" "2024-10-01T00:00:00Z"
                [("name", VStr "Acme Corp"); ("status", VStr "stable");
                 ("founded", VStr "2024-01-01"); ("employee_count", VInt 25);
                 ("relationships", VList [])]
                "evt-007" false)) /\
  dict_get (Snapshot.state Company.expanding) "relationships" = None /\
  fold_apply (Some Company.expanding) [Company.hire; Company.dismiss] =
    Ok (Some (Snapshot.mk "company-123" "2024-10-01T00:00:00Z"
                [("name", VStr "Acme Corp"); ("status", VStr "expanding");
                 ("founded", VStr "2024-01-01"); ("employee_count", VInt 10);
                 ("relationships", VList [])]
                "evt-007" false)) /\
  fold_apply (Some Company.expanding) [Company.hire_titled; Company.dismiss] =
    Raise (ValueError (RelationshipNotFound (VStr "employs")
                         (VStr "person-456"))) /\
  fold_apply (Some Company.expanding)
    [Company.hire_nobody; Company.dismiss_nobody] =
    Raise (ValueError (RelationshipNotFound (VStr "employs")
                         (Company.nan 7))) /\
  fold_apply (Some (Company.related (VList [VStr "r->x"])))
    [Company.hire; Company.dismiss] = Raise AttributeError /\
  fold_apply (Some Company.expanding)
    [Company.hire_labelled; Company.dismiss] = Raise TypeError.
Proof. repeat split. Qed.

(** ** validate_timeline *)

Section TypedReplay.

(** With distinct keys in [src], an update reads from [src] first. *)
Lemma dict_get_update (src d : dict) (k : string) :
  distinct (keys src) = true ->
  dict_get (dict_update d src) k =
  match dict_get src k with
  | Some v => Some v
  | None => dict_get d k
  end.
Proof.
  unfold dict_update, keys. revert d.
  induction src as [|[k' v'] src IH]; intros d Hd; [reflexivity|].
  cbn [map fst distinct] in Hd. apply andb_prop in Hd.
  destruct Hd as [Hfresh Hd]. apply negb_true_iff in Hfresh.
  cbn [fold_left fst snd dict_get].
  destruct (String.eqb_spec k k') as [->|Hne].
  - assert (Habs : dict_get src k' = None).
    { destruct (dict_get src k') as [v|] eqn:E; [|reflexivity].
      apply dict_get_In in E.
      assert (Hin : In k' (map fst src))
        by (change k' with (fst (k', v)); now apply in_map).
      apply existsb_eqb_In in Hin. congruence. }
    pose proof (dict_get_update_absent src (dict_set d k' v') k' Habs) as H.
    unfold dict_update in H. rewrite H. apply dict_get_set_same.
  - rewrite (IH _ Hd).
    destruct (dict_get src k); [reflexivity|].
    apply dict_get_set_other. congruence.
Qed.

Lemma relationships_typed_update (st payload : dict) :
  distinct (keys payload) = true ->
  relationships_typed st = true ->
  relationships_typed payload = true ->
  relationships_typed (dict_update st payload) = true.
Proof.
  intros Hd Hst Hp. unfold relationships_typed in *.
  rewrite dict_get_update by exact Hd.
  destruct (dict_get payload "relationships"); assumption.
Qed.

Lemma relationships_of_typed (st : dict) :
  relationships_typed st = true -> forallb is_dict (relationships_of st) = true.
Proof.
  unfold relationships_typed, relationships_of.
  destruct (dict_get st "relationships") as [[| | | | |rs|]|];
    try discriminate; auto.
Qed.

Lemma relationships_typed_set (st : dict) (rs : list value) :
  forallb is_dict rs = true ->
  relationships_typed (dict_set st "relationships" (VList rs)) = true.
Proof.
  intros H. unfold relationships_typed. now rewrite dict_get_set_same.
Qed.

Lemma forallb_filter {A : Type} (p q : A -> bool) (l : list A) :
  forallb p l = true -> forallb p (filter q l) = true.
Proof.
  rewrite !forallb_forall. intros H x Hx. apply filter_In in Hx. now apply H.
Qed.

(** The reducer keeps the shape of [relationships]. *)
Lemma apply_event_typed (snapshot : option Snapshot.t) (event : Event.t)
    (s' : Snapshot.t) :
  event_typed event = true ->
  relationships_typed (state_of snapshot) = true ->
  apply_event snapshot event = Ok s' ->
  relationships_typed (Snapshot.state s') = true.
Proof.
  unfold event_typed. intros Hev Hrel.
  apply andb_prop in Hev. destruct Hev as [Hev Hprops].
  apply andb_prop in Hev. destruct Hev as [Hd Hprel].
  destruct (String.eqb_spec (Event.event_type event) "created") as [Hc|Hc].
  - rewrite (apply_created _ _ Hc).
    destruct (live snapshot); [discriminate|]. now intros [= <-].
  - destruct (mutating (Event.event_type event)) as [act|] eqn:Hm;
      [|rewrite (apply_unknown _ _ Hc Hm); discriminate].
    destruct snapshot as [s|];
      [|rewrite (apply_absent _ _ Hm); discriminate].
    cbn [state_of] in Hrel.
    destruct (Snapshot.deleted s) eqn:Hdel;
      [rewrite (apply_deleted_snapshot _ _ _ Hm Hdel); discriminate|].
    pose proof (mutating_inv _ _ Hm) as Hty.
    destruct act.
    + rewrite (apply_updated _ _ Hty Hdel). intros [= <-].
      now apply relationships_typed_update.
    + rewrite (apply_deleted _ _ Hty Hdel). now intros [= <-].
    + rewrite (apply_added _ _ Hdel Hty); [| |exact Hprops].
      * intros [= <-]. apply relationships_typed_set.
        rewrite forallb_app, relationships_of_typed by exact Hrel.
        reflexivity.
      * unfold relationships_typed in Hrel.
        destruct (dict_get (Snapshot.state s) "relationships")
          as [[| | | | |rs|]|]; try discriminate; eauto.
    + rewrite (apply_removed _ _ Hdel Hty Hrel).
      destruct (has_match _ _); [|discriminate]. intros [= <-].
      apply relationships_typed_set, forallb_filter.
      now apply relationships_of_typed.
Qed.

(** The loop stops at the first exception it does not catch, and otherwise
    collects one entry per failed step of the replay and nothing else. *)
Lemma replay_collect_trace (timeline : list Event.t)
    (snapshot : option Snapshot.t) (errors : list TimelineError.t) :
  replay_collect timeline snapshot errors =
  match first_uncaught (replay_trace snapshot timeline) with
  | Some x => Raise x
  | None =>
      Ok (errors ++ flat_map error_entry (replay_trace snapshot timeline))
  end.
Proof.
  revert snapshot errors.
  induction timeline as [|e rest IH]; intros snapshot errors.
  - cbn. now rewrite app_nil_r.
  - cbn [replay_collect replay_trace flat_map first_uncaught snd].
    unfold error_entry at 1. cbn [fst snd].
    destruct (apply_event snapshot e) as [s|[m| |]]; cbn [uncaught app].
    + apply IH.
    + rewrite IH. destruct (first_uncaught _); [reflexivity|].
      now rewrite <- app_assoc.
    + reflexivity.
    + reflexivity.
Qed.

(** On events of the data model every exception of the replay is caught. *)
Lemma replay_trace_typed (timeline : list Event.t)
    (snapshot : option Snapshot.t) :
  Forall (fun e => event_typed e = true) timeline ->
  relationships_typed (state_of snapshot) = true ->
  first_uncaught (replay_trace snapshot timeline) = None.
Proof.
  intros Hall. revert snapshot.
  induction Hall as [|e rest He Hrest IH]; intros snapshot Hrel;
    [reflexivity|].
  cbn [replay_trace first_uncaught snd].
  assert (Hprops : properties_typed (Event.payload e) = true).
  { unfold event_typed in He. now apply andb_prop in He. }
  pose proof (apply_event_outcome e snapshot Hrel Hprops) as Hout.
  pose proof (apply_event_typed snapshot e) as Hkeep.
  destruct (precondition snapshot e).
  - destruct Hout as [s' Hs']. rewrite Hs' in *. cbn [uncaught].
    apply IH. cbn [state_of]. now apply (Hkeep s').
  - destruct Hout as [m Hm]. rewrite Hm. cbn [uncaught]. now apply IH.
Qed.

End TypedReplay.

Section Replay.

(** The loop never lets a [ValueError] through. *)
Lemma replay_collect_catches (timeline : list Event.t)
    (snapshot : option Snapshot.t) (errors : list TimelineError.t)
    (m : message) :
  replay_collect timeline snapshot errors <> Raise (ValueError m).
Proof.
  revert snapshot errors.
  induction timeline as [|e rest IH]; intros snapshot errors;
    cbn [replay_collect]; [discriminate|].
  destruct (apply_event snapshot e) as [s|[m'| |]]; auto; discriminate.
Qed.

(** The loop only ever adds to the entries it holds. *)
Lemma replay_collect_extends (timeline : list Event.t)
    (snapshot : option Snapshot.t) (errors out : list TimelineError.t) :
  replay_collect timeline snapshot errors = Ok out ->
  exists more, out = errors ++ more.
Proof.
  revert snapshot errors.
  induction timeline as [|e rest IH]; intros snapshot errors;
    cbn [replay_collect].
  - intros [= <-]. exists []. now rewrite app_nil_r.
  - destruct (apply_event snapshot e) as [s|[m| |]]; try discriminate.
    + apply IH.
    + intros H. apply IH in H. destruct H as [more ->].
      rewrite <- app_assoc. eauto.
Qed.

Lemma replay_collect_clean (timeline : list Event.t)
    (snapshot : option Snapshot.t) :
  replay_collect timeline snapshot [] = Ok [] <->
  exists s, fold_apply snapshot timeline = Ok s.
Proof.
  revert snapshot.
  induction timeline as [|e rest IH]; intros snapshot;
    cbn [replay_collect fold_apply].
  - split; eauto.
  - destruct (apply_event snapshot e) as [s|[m| |]]; cbn [bind app].
    + apply IH.
    + split.
      * intros H. apply replay_collect_extends in H.
        destruct H as [more H]. discriminate.
      * intros [s H]. discriminate.
    + split; [discriminate|]. intros [s H]. discriminate.
    + split; [discriminate|]. intros [s H]. discriminate.
Qed.

End Replay.

(** C3, as the code has it.  [validate_timeline] never fails with a
    [ValueError], the class of the failures the reducer raises by itself.  It
    replays the timeline of [build_timeline] from absent, each event applied
    to the last snapshot that was produced, and stops with the first
    exception of another class ([AttributeError], [TypeError]) that an
    application raises, which [except ValueError] does not catch; when there
    is none it returns the list that holds one entry, with the id of the
    event, for each application that fails, in the order of the timeline.
    There is none when every event of the log is of the data model (a payload
    with distinct keys whose [relationships], if any, is a sequence of records
    and whose [properties], if any, is a mapping).  The list is empty exactly
    when folding the reducer over the whole timeline succeeds. *)
Theorem validate_timeline_collects_failures (events : list Event.t) :
  (forall m, validate_timeline events <> Raise (ValueError m)) /\
  validate_timeline events =
    match first_uncaught (replay_trace None (build_timeline events)) with
    | Some x => Raise x
    | None =>
        Ok (flat_map error_entry (replay_trace None (build_timeline events)))
    end /\
  (Forall (fun e => event_typed e = true) events ->
   validate_timeline events =
   Ok (flat_map error_entry (replay_trace None (build_timeline events)))) /\
  (validate_timeline events = Ok [] <->
   exists s, fold_apply None (build_timeline events) = Ok s).
Proof.
  assert (Htrace :
    validate_timeline events =
    match first_uncaught (replay_trace None (build_timeline events)) with
    | Some x => Raise x
    | None =>
        Ok (flat_map error_entry (replay_trace None (build_timeline events)))
    end) by apply replay_collect_trace.
  split; [|split; [|split]].
  - intros m. apply replay_collect_catches.
  - exact Htrace.
  - intros Hall. rewrite Htrace.
    rewrite replay_trace_typed; [reflexivity| |reflexivity].
    rewrite Forall_forall in *. intros e He. apply Hall.
    eapply Permutation_in; [|exact He].
    apply Permutation_sym, build_timeline_perm.
  - apply replay_collect_clean.
Qed.

(** A second creation and a second dismissal are the two failures of the
    log they are added to. *)
Lemma validate_timeline_collects_failures_witness :
  validate_timeline
    (Company.dismiss :: Company.evt_001 :: Company.dismiss :: Company.EVENTS) =
  Ok [TimelineError.mk "evt-001" (AlreadyExists "company-123");
      TimelineError.mk "evt-007"
        (RelationshipNotFound (VStr "employs") (VStr "person-456"))].
Proof.
  rewrite (proj1 (proj2 (proj2 (validate_timeline_collects_failures
                                  (Company.dismiss :: Company.evt_001 ::
                                   Company.dismiss :: Company.EVENTS))))).
  - reflexivity.
  - repeat constructor.
Defined.

(** The validator does propagate what the reducer raises on data outside the
    data model: an [AttributeError] from a link added to a state whose
    [relationships] is [None], and a [TypeError] from properties that are a
    string, with which the entry already collected for the second creation is
    lost. *)
Lemma validate_timeline_raises_on_untyped_data :
  validate_timeline [Company.bare_link; Company.founded_oddly] =
    Raise AttributeError /\
  validate_timeline [Company.evt_001; Company.evt_001] =
    Ok [TimelineError.mk "evt-001" (AlreadyExists "company-123")] /\
  validate_timeline
    [Company.hire_labelled; Company.evt_001; Company.evt_001] =
    Raise TypeError.
Proof. repeat split. Qed.

(** ** validate_event *)

Section ValidateEvent.

Variable iso_ok : string -> bool.
Variable event : dict.

(** The loop over the required fields reports the missing ones, in order. *)
Lemma missing_fields_loop (fields : list string) (acc : list finding) :
  fold_left
    (fun errors field =>
       if negb (dict_mem event field)
       then errors ++ [MissingField field]
       else errors)
    fields acc =
  acc ++ map MissingField (filter (fun f => negb (dict_mem event f)) fields).
Proof.
  revert acc. induction fields as [|f fields IH]; intros acc;
    cbn [fold_left filter].
  - now rewrite app_nil_r.
  - rewrite IH. destruct (negb (dict_mem event f)); [|reflexivity].
    cbn [map]. now rewrite <- app_assoc.
Qed.

(** Whatever the timestamp is, the [try] catches what parsing it raises. *)
Lemma validate_event_returns :
  exists errors, validate_event iso_ok event = Ok errors.
Proof.
  unfold validate_event.
  destruct (get_or event "timestamp" (VStr "")) as [| | | |s| |];
    cbn [parse_timestamp]; eauto.
  unfold fromisoformat. destruct (iso_ok (replace_Z s)); eauto.
Qed.

End ValidateEvent.

(** C9. [validate_event] never raises: on every dictionary it returns a list
    of errors.  Since the library parser rejects the empty string, on an event
    that lacks [timestamp] the list holds the missing-field error of
    [timestamp] and, last, the invalid-timestamp error of the empty string the
    absent timestamp defaults to: at least two errors. *)
Theorem validate_event_missing_timestamp (iso_ok : string -> bool) :
  iso_ok "" = false ->
  (forall event, exists errors, validate_event iso_ok event = Ok errors) /\
  (forall event,
      dict_get event "timestamp" = None ->
      exists errors,
        validate_event iso_ok event =
          Ok (errors ++ [InvalidTimestamp (VStr "")]) /\
        In (MissingField "timestamp") errors /\
        2 <= List.length (errors ++ [InvalidTimestamp (VStr "")])).
Proof.
  intros Hempty. split; [intros event; apply validate_event_returns|].
  intros event Hnone.
  assert (Hts : get_or event "timestamp" (VStr "") = VStr "")
    by (unfold get_or; now rewrite Hnone).
  unfold validate_event. cbv zeta. rewrite Hts.
  cbn [parse_timestamp replace_Z]. unfold fromisoformat. rewrite Hempty.
  rewrite missing_fields_loop. cbn [app].
  set (missing := map MissingField
                    (filter (fun f => negb (dict_mem event f)) required)).
  assert (Hin : In (MissingField "timestamp") missing).
  { apply in_map, filter_In. split; [cbn; auto|].
    unfold dict_mem. now rewrite Hnone. }
  eexists. split; [reflexivity|].
  assert (Hin' : forall tail, In (MissingField "timestamp") (missing ++ tail))
    by (intros tail; apply in_or_app; now left).
  split.
  - destruct (negb (existsb _ valid_types)); [apply Hin'|exact Hin].
  - rewrite length_app. cbn [List.length].
    destruct (negb (existsb _ valid_types));
      [specialize (Hin' [InvalidEventType (get_or event "event_type" VNone)]);
       destruct (missing ++ _); [destruct Hin'|cbn; lia]
      |destruct missing; [destruct Hin|cbn; lia]].
Qed.

(** The undated event, with the recognizer of the example as the parser. *)
Lemma validate_event_missing_timestamp_witness :
  Company.iso_like "" = false /\
  dict_get Company.undated "timestamp" = None /\
  exists errors,
    validate_event Company.iso_like Company.undated =
      Ok (errors ++ [InvalidTimestamp (VStr "")]) /\
    In (MissingField "timestamp") errors /\
    2 <= List.length (errors ++ [InvalidTimestamp (VStr "")]).
Proof.
  split; [reflexivity|]. split; [reflexivity|].
  apply (validate_event_missing_timestamp Company.iso_like eq_refl).
  reflexivity.
Defined.

(** ** More on the reducer *)

Section ReducerShape.

Variable event : Event.t.

Let ty : string := Event.event_type event.
Let payload : dict := Event.payload event.

(** The comprehension goes through only on a sequence of dictionaries. *)
Lemma keep_unmatched_dicts (target rel_type : value) (rs kept : list value) :
  keep_unmatched target rel_type rs = Ok kept -> forallb is_dict rs = true.
Proof.
  revert kept. induction rs as [|r rs IH]; intros kept; [reflexivity|].
  cbn [keep_unmatched forallb].
  destruct r; cbn [rel_matches bind is_dict]; try discriminate.
  destruct (keep_unmatched target rel_type rs) as [kept'|x];
    cbn [bind]; [|discriminate].
  intros _. cbn [andb]. eapply IH. reflexivity.
Qed.

(** A removal that succeeds found [relationships] absent or a list of
    records. *)
Lemma removed_ok_typed (s s' : Snapshot.t) :
  ty = "relationship_removed" ->
  Snapshot.deleted s = false ->
  apply_event (Some s) event = Ok s' ->
  relationships_typed (Snapshot.state s) = true.
Proof.
  intros Hty Hlive. unfold apply_event. fold ty. rewrite Hty, Hlive.
  cbn [String.eqb Ascii.eqb Bool.eqb].
  unfold relationships_typed, get_or at 1.
  destruct (dict_get (Snapshot.state s) "relationships") as [v|];
    [|reflexivity].
  destruct v as [| | | |str|rs|d]; cbn [py_iter bind]; try discriminate.
  - destruct str as [|c str]; cbn [chars keep_unmatched rel_matches bind];
      discriminate.
  - destruct (keep_unmatched _ _ rs) as [kept|x] eqn:E; cbn [bind];
      [|discriminate].
    intros _. eapply keep_unmatched_dicts. exact E.
  - destruct d as [|[k v] d]; cbn [map keep_unmatched rel_matches bind];
      discriminate.
Qed.

(** An add that succeeds found [relationships] absent or a list, and
    [properties] absent or a mapping. *)
Lemma added_ok_typed (s s' : Snapshot.t) :
  ty = "relationship_added" ->
  Snapshot.deleted s = false ->
  apply_event (Some s) event = Ok s' ->
  (dict_get (Snapshot.state s) "relationships" = None \/
   exists rs, dict_get (Snapshot.state s) "relationships" = Some (VList rs)) /\
  properties_typed payload = true.
Proof.
  intros Hty Hlive. unfold apply_event. fold ty payload.
  rewrite Hty, Hlive. cbn [String.eqb Ascii.eqb Bool.eqb].
  unfold dict_mem, properties_typed.
  destruct (dict_get (Snapshot.state s) "relationships") as [v|] eqn:Hrel;
    cbn [negb].
  - unfold get_or at 1. rewrite Hrel.
    destruct v; try discriminate.
    unfold get_or at 1.
    destruct (dict_get payload "properties") as [[| | | | | |props]|];
      try discriminate; eauto.
  - unfold get_or at 1. rewrite dict_get_set_same. cbv iota.
    unfold get_or at 1.
    destruct (dict_get payload "properties") as [[| | | | | |props]|];
      try discriminate; eauto.
Qed.

(** Every successful application builds its result from the event. *)
Lemma apply_event_ok_produced (snapshot : option Snapshot.t)
    (s' : Snapshot.t) :
  apply_event snapshot event = Ok s' ->
  exists st, s' = produced event st (ty =? "deleted").
Proof.
  intros Hok.
  destruct (String.eqb_spec ty "created") as [Hc|Hc].
  - rewrite (apply_created _ _ Hc) in Hok.
    destruct (live snapshot); [discriminate|].
    injection Hok as <-. rewrite Hc. eauto.
  - destruct (mutating ty) as [act|] eqn:Hm;
      [|rewrite (apply_unknown _ _ Hc Hm) in Hok; discriminate].
    destruct snapshot as [s|];
      [|rewrite (apply_absent _ _ Hm) in Hok; discriminate].
    destruct (Snapshot.deleted s) eqn:Hdel;
      [rewrite (apply_deleted_snapshot _ _ _ Hm Hdel) in Hok; discriminate|].
    pose proof (mutating_inv _ _ Hm) as Hty. fold ty in Hty.
    destruct act.
    + rewrite (apply_updated _ _ Hty Hdel) in Hok.
      injection Hok as <-. rewrite Hty. eauto.
    + rewrite (apply_deleted _ _ Hty Hdel) in Hok.
      injection Hok as <-. rewrite Hty. eauto.
    + destruct (added_ok_typed _ _ Hty Hdel Hok) as [Hshape Hprops].
      rewrite (apply_added _ _ Hdel Hty Hshape Hprops) in Hok.
      injection Hok as <-. rewrite Hty. eauto.
    + pose proof (removed_ok_typed _ _ Hty Hdel Hok) as Hrel.
      rewrite (apply_removed _ _ Hdel Hty Hrel) in Hok.
      destruct (has_match _ _); [|discriminate].
      injection Hok as <-. rewrite Hty. eauto.
Qed.

End ReducerShape.

(** X1. Whatever the event and the prior snapshot, a snapshot that
    [apply_event] returns takes its [entity_id], [as_of] and [last_event_id]
    from the event, and is flagged deleted exactly when the event is a
    [deleted] event. *)
Theorem apply_event_stamps_result
    (snapshot : option Snapshot.t) (event : Event.t) (s' : Snapshot.t) :
  apply_event snapshot event = Ok s' ->
  Snapshot.entity_id s' = Event.entity_id event /\
  Snapshot.as_of s' = Event.timestamp event /\
  Snapshot.last_event_id s' = Event.id event /\
  Snapshot.deleted s' = (Event.event_type event =? "deleted").
Proof.
  intros Hok. apply apply_event_ok_produced in Hok.
  destruct Hok as [st ->]. repeat split.
Qed.

(** The dismissal of the stable company carries the data of its event. *)
Lemma apply_event_stamps_result_witness :
  exists s',
    apply_event (Some Company.stable) Company.dismiss = Ok s' /\
    Snapshot.entity_id s' = "company-123" /\
    Snapshot.as_of s' = "2024-10-01T00:00:00Z" /\
    Snapshot.last_event_id s' = "evt-007" /\
    Snapshot.deleted s' = false.
Proof.
  eexists. split; [reflexivity|].
  apply (apply_event_stamps_result (Some Company.stable) Company.dismiss).
  reflexivity.
Defined.

(** X2. A snapshot that is absent or deleted accepts [created] and nothing
    else, and the snapshot [created] returns holds the payload of the event
    as its state: nothing of a deleted snapshot is carried forward. *)
Theorem only_created_applies_to_absent_or_deleted
    (snapshot : option Snapshot.t) (event : Event.t) (s' : Snapshot.t) :
  live snapshot = false ->
  (apply_event snapshot event = Ok s' <->
   Event.event_type event = "created" /\
   s' = produced event (Event.payload event) false).
Proof.
  intros Hl. split.
  - intros Hok.
    destruct (String.eqb_spec (Event.event_type event) "created") as [Hc|Hc].
    + rewrite (apply_created _ _ Hc), Hl in Hok. injection Hok as <-. auto.
    + exfalso.
      destruct (mutating (Event.event_type event)) as [act|] eqn:Hm;
        [|rewrite (apply_unknown _ _ Hc Hm) in Hok; discriminate].
      destruct snapshot as [s|];
        [|rewrite (apply_absent _ _ Hm) in Hok; discriminate].
      cbn [live] in Hl. apply negb_false_iff in Hl.
      rewrite (apply_deleted_snapshot _ _ _ Hm Hl) in Hok. discriminate.
  - intros [Hc ->]. now rewrite (apply_created _ _ Hc), Hl.
Qed.

(** Once the company is dissolved, creating it again starts from the payload. *)
Lemma only_created_applies_to_absent_or_deleted_witness :
  live (Some (produced Company.evt_005 [] true)) = false /\
  apply_event (Some (produced Company.evt_005 [] true)) Company.evt_001 =
  Ok (produced Company.evt_001 (Event.payload Company.evt_001) false).
Proof.
  split; [reflexivity|].
  apply (only_created_applies_to_absent_or_deleted
           (Some (produced Company.evt_005 [] true)) Company.evt_001).
  - reflexivity.
  - split; reflexivity.
Defined.

Section Merge.

Lemma dict_set_same_value (d : dict) (k : string) (v : value) :
  dict_get d k = Some v -> dict_set d k v = d.
Proof.
  induction d as [|[k' v'] d IH]; simpl; [discriminate|].
  destruct (String.eqb_spec k k') as [->|_].
  - now intros [= ->].
  - intros H. now rewrite IH.
Qed.

(** Updating with entries the dictionary already holds changes nothing. *)
Lemma dict_update_held (src d : dict) :
  (forall k v, In (k, v) src -> dict_get d k = Some v) ->
  dict_update d src = d.
Proof.
  unfold dict_update. induction src as [|[k v] src IH]; intros H;
    [reflexivity|].
  cbn [fold_left fst snd].
  rewrite dict_set_same_value by (apply H; now left).
  apply IH. intros k' v' Hin. apply H. now right.
Qed.

Lemma dict_update_twice (src d : dict) :
  distinct (keys src) = true ->
  dict_update (dict_update d src) src = dict_update d src.
Proof.
  intros Hd. apply dict_update_held. intros k v Hin.
  rewrite dict_get_update by exact Hd.
  now rewrite (dict_get_entry _ _ _ Hd Hin).
Qed.

End Merge.

(** X3. [updated] on a live snapshot always succeeds and merges the payload
    into the state, one level deep: a field the payload does not name keeps
    its value, a field the payload names takes the payload's value, and an
    empty payload leaves the state as it is. *)
Theorem updated_merges_payload (s : Snapshot.t) (event : Event.t) :
  Snapshot.deleted s = false ->
  Event.event_type event = "updated" ->
  distinct (keys (Event.payload event)) = true ->
  exists s',
    apply_event (Some s) event = Ok s' /\
    (forall k, dict_get (Event.payload event) k = None ->
               dict_get (Snapshot.state s') k = dict_get (Snapshot.state s) k) /\
    (forall k v, dict_get (Event.payload event) k = Some v ->
                 dict_get (Snapshot.state s') k = Some v) /\
    (Event.payload event = [] -> Snapshot.state s' = Snapshot.state s).
Proof.
  intros Hlive Hty Hd. eexists.
  split; [apply (apply_updated _ _ Hty Hlive)|].
  cbn [produced Snapshot.state]. split; [|split].
  - intros k Hk. now apply dict_get_update_absent.
  - intros k v Hk. rewrite dict_get_update by exact Hd. now rewrite Hk.
  - intros ->. reflexivity.
Qed.

(** The second event of the company changes the status and keeps the name. *)
Lemma updated_merges_payload_witness :
  exists s',
    apply_event (Some (produced Company.evt_001
                         (Event.payload Company.evt_001) false))
      Company.evt_002 = Ok s' /\
    dict_get (Snapshot.state s') "name" = Some (VStr "Acme Corp") /\
    dict_get (Snapshot.state s') "status" = Some (VStr "expanding").
Proof.
  destruct (updated_merges_payload
              (produced Company.evt_001 (Event.payload Company.evt_001) false)
              Company.evt_002 eq_refl eq_refl eq_refl)
    as [s' [H1 [H2 [H3 _]]]].
  exists s'. split; [exact H1|]. split.
  - rewrite (H2 "name" eq_refl). reflexivity.
  - apply (H3 "status"). reflexivity.
Defined.

(** X4. Applying the same [updated] event a second time, to the snapshot the
    first application returned, returns that snapshot again. *)
Theorem updated_twice_is_once (s s1 : Snapshot.t) (event : Event.t) :
  Event.event_type event = "updated" ->
  distinct (keys (Event.payload event)) = true ->
  apply_event (Some s) event = Ok s1 ->
  apply_event (Some s1) event = Ok s1.
Proof.
  intros Hty Hd Hok.
  destruct (Snapshot.deleted s) eqn:Hdel.
  - assert (Hm : mutating (Event.event_type event) = Some Update)
      by now rewrite Hty.
    rewrite (apply_deleted_snapshot _ _ _ Hm Hdel) in Hok. discriminate.
  - rewrite (apply_updated _ _ Hty Hdel) in Hok. injection Hok as <-.
    rewrite (apply_updated event (produced event _ false) Hty eq_refl).
    cbn [produced Snapshot.state].
    now rewrite dict_update_twice.
Qed.

Lemma updated_twice_is_once_witness :
  apply_event (Some Company.expanding) Company.evt_002 = Ok Company.expanding.
Proof.
  apply (updated_twice_is_once
           (produced Company.evt_001 (Event.payload Company.evt_001) false)
           Company.expanding Company.evt_002); reflexivity.
Defined.

(** X6. A relationship event touches the [relationships] field only: in the
    snapshot that [relationship_added] or [relationship_removed] returns,
    every other field of the state has the value it had. *)
Theorem relationship_events_keep_other_fields
    (s s' : Snapshot.t) (event : Event.t) (k : string) :
  Event.event_type event = "relationship_added" \/
  Event.event_type event = "relationship_removed" ->
  apply_event (Some s) event = Ok s' ->
  k <> "relationships" ->
  dict_get (Snapshot.state s') k = dict_get (Snapshot.state s) k.
Proof.
  intros Hty Hok Hk.
  destruct (Snapshot.deleted s) eqn:Hdel.
  - exfalso.
    assert (Hm : exists act, mutating (Event.event_type event) = Some act)
      by (destruct Hty as [-> | ->]; eexists; reflexivity).
    destruct Hm as [act Hm].
    rewrite (apply_deleted_snapshot _ _ _ Hm Hdel) in Hok. discriminate.
  - destruct Hty as [Hty|Hty].
    + destruct (added_ok_typed _ _ _ Hty Hdel Hok) as [Hshape Hprops].
      rewrite (apply_added _ _ Hdel Hty Hshape Hprops) in Hok.
      injection Hok as <-. cbn [produced Snapshot.state].
      apply dict_get_set_other. congruence.
    + pose proof (removed_ok_typed _ _ _ Hty Hdel Hok) as Hrel.
      rewrite (apply_removed _ _ Hdel Hty Hrel) in Hok.
      destruct (has_match _ _); [|discriminate].
      injection Hok as <-. cbn [produced Snapshot.state].
      apply dict_get_set_other. congruence.
Qed.

(** Letting the employee go leaves the status of the company alone. *)
Lemma relationship_events_keep_other_fields_witness :
  exists s',
    apply_event (Some Company.stable) Company.dismiss = Ok s' /\
    dict_get (Snapshot.state s') "status" = Some (VStr "stable").
Proof.
  destruct (apply_event (Some Company.stable) Company.dismiss) as [s'|x] eqn:E;
    [|vm_compute in E; discriminate E].
  exists s'. split; [reflexivity|].
  rewrite (relationship_events_keep_other_fields Company.stable s'
             Company.dismiss "status" (or_intror eq_refl) E).
  - reflexivity.
  - discriminate.
Defined.

Lemma existsb_filter_out {A : Type} (p : A -> bool) (l : list A) :
  existsb p (filter (fun x => negb (p x)) l) = false.
Proof.
  induction l as [|x l IH]; [reflexivity|].
  cbn [filter]. destruct (p x) eqn:E; cbn [negb existsb]; [exact IH|].
  now rewrite E, IH.
Qed.

(** X8. After a [relationship_removed] event has been applied no record of
    its pair is left: applying the event again, to the snapshot the removal
    returned, fails with "relationship not found". *)
Theorem removed_twice_fails (s s1 : Snapshot.t) (event : Event.t) :
  Event.event_type event = "relationship_removed" ->
  apply_event (Some s) event = Ok s1 ->
  has_match (Snapshot.state s1) (Event.payload event) = false /\
  apply_event (Some s1) event =
  Raise (ValueError (RelationshipNotFound (rel_type_of (Event.payload event))
                       (target_of (Event.payload event)))).
Proof.
  intros Hty Hok.
  destruct (Snapshot.deleted s) eqn:Hdel.
  - assert (Hm : mutating (Event.event_type event) = Some RemoveRelationship)
      by now rewrite Hty.
    rewrite (apply_deleted_snapshot _ _ _ Hm Hdel) in Hok. discriminate.
  - pose proof (removed_ok_typed _ _ _ Hty Hdel Hok) as Hrel.
    rewrite (apply_removed _ _ Hdel Hty Hrel) in Hok.
    destruct (has_match _ _); [|discriminate].
    injection Hok as <-.
    assert (Hno : has_match
                    (Snapshot.state
                       (produced event
                          (dict_set (Snapshot.state s) "relationships"
                             (VList (filter
                                       (fun r => negb (record_matches
                                                   (target_of (Event.payload event))
                                                   (rel_type_of (Event.payload event)) r))
                                       (relationships_of (Snapshot.state s)))))
                          false))
                    (Event.payload event) = false).
    { unfold has_match, relationships_of at 1. cbn [produced Snapshot.state].
      rewrite dict_get_set_same. apply existsb_filter_out. }
    split; [exact Hno|].
    rewrite apply_removed; [now rewrite Hno|reflexivity|exact Hty|].
    cbn [produced Snapshot.state]. apply relationships_typed_set.
    apply forallb_filter. now apply relationships_of_typed.
Qed.

Lemma removed_twice_fails_witness :
  exists s1,
    apply_event (Some Company.stable) Company.dismiss = Ok s1 /\
    apply_event (Some s1) Company.dismiss =
    Raise (ValueError (RelationshipNotFound (VStr "employs")
                         (VStr "person-456"))).
Proof.
  eexists. split; [reflexivity|].
  apply (removed_twice_fails Company.stable _ Company.dismiss eq_refl eq_refl).
Defined.

(** ** More on the timeline *)

Section TimelineOrder.

(** An event at or below all of a list goes in front of it. *)
Lemma insert_event_front (e : Event.t) (l : list Event.t) :
  Forall (key_ordered e) l -> insert_event e l = e :: l.
Proof.
  destruct 1 as [|e' l He _]; [reflexivity|].
  cbn [insert_event]. unfold key_ordered in He. now rewrite He.
Qed.

Lemma build_timeline_of_sorted (l : list Event.t) :
  StronglySorted key_ordered l -> build_timeline l = l.
Proof.
  induction 1 as [|e l Hl IH Hall]; [reflexivity|].
  cbn [build_timeline fold_right]. fold (build_timeline l).
  rewrite IH. now apply insert_event_front.
Qed.

(** Two strictly ordered lists with the same events are the same list. *)
Lemma strictly_sorted_unique (l1 l2 : list Event.t) :
  StronglySorted key_before l1 -> StronglySorted key_before l2 ->
  Permutation l1 l2 -> l1 = l2.
Proof.
  intros H1. revert l2.
  induction H1 as [|a t1 Ht1 IH Ha]; intros l2 H2 Hp.
  - apply Permutation_nil in Hp. now subst.
  - destruct H2 as [|b t2 Ht2 Hb].
    + apply Permutation_sym, Permutation_nil in Hp. discriminate.
    + assert (Hab : a = b).
      { assert (Hina : In a (b :: t2))
          by (eapply Permutation_in; [exact Hp|now left]).
        assert (Hinb : In b (a :: t1))
          by (eapply Permutation_in;
              [apply Permutation_sym; exact Hp|now left]).
        destruct Hina as [<-|Hina]; [reflexivity|].
        destruct Hinb as [->|Hinb]; [reflexivity|].
        rewrite Forall_forall in Ha, Hb.
        specialize (Ha b Hinb). specialize (Hb a Hina).
        unfold key_before in Ha, Hb.
        apply key_le_total in Ha. congruence. }
      subst b. f_equal. apply IH; [exact Ht2|].
      eapply Permutation_cons_inv. exact Hp.
Qed.

(** Sorting and selecting commute. *)
Lemma filter_insert_event (p : Event.t -> bool) (e : Event.t)
    (l : list Event.t) :
  StronglySorted key_ordered l ->
  filter p (insert_event e l) =
  if p e then insert_event e (filter p l) else filter p l.
Proof.
  induction 1 as [|x l Hl IH Hall]; cbn [insert_event filter].
  - now destruct (p e).
  - destruct (key_le (sort_key e) (sort_key x)) eqn:Hle; cbn [filter].
    + destruct (p e) eqn:He; [|reflexivity].
      destruct (p x) eqn:Hx.
      * cbn [insert_event]. now rewrite Hle.
      * symmetry. apply insert_event_front.
        apply Forall_forall. intros y Hy. apply filter_In in Hy.
        rewrite Forall_forall in Hall. unfold key_ordered in *.
        eapply key_le_trans; [exact Hle|]. now apply Hall.
    + rewrite IH. destruct (p e) eqn:He, (p x) eqn:Hx; try reflexivity.
      cbn [insert_event]. now rewrite Hle.
Qed.

Lemma filter_build_timeline (p : Event.t -> bool) (events : list Event.t) :
  filter p (build_timeline events) = build_timeline (filter p events).
Proof.
  induction events as [|e l IH]; [reflexivity|].
  cbn [build_timeline fold_right filter]. fold (build_timeline l).
  rewrite filter_insert_event by apply build_timeline_sorted.
  rewrite IH. now destruct (p e).
Qed.

(** With distinct ids the timeline does not depend on the order of the log. *)
Lemma build_timeline_canonical (l1 l2 : list Event.t) :
  Permutation l1 l2 ->
  NoDup (map Event.id l1) ->
  build_timeline l1 = build_timeline l2.
Proof.
  intros Hp Hnd.
  assert (Hnd2 : NoDup (map Event.id l2))
    by (eapply Permutation_NoDup; [apply Permutation_map; exact Hp|exact Hnd]).
  apply strictly_sorted_unique.
  - apply sorted_strict; [|apply build_timeline_sorted].
    eapply Permutation_NoDup; [|exact Hnd].
    apply Permutation_map, build_timeline_perm.
  - apply sorted_strict; [|apply build_timeline_sorted].
    eapply Permutation_NoDup; [|exact Hnd2].
    apply Permutation_map, build_timeline_perm.
  - rewrite <- (build_timeline_perm l1), <- (build_timeline_perm l2).
    exact Hp.
Qed.

End TimelineOrder.

(** X5. [build_timeline] returns its input unchanged exactly when the input
    is already in key order; in particular ordering a timeline again changes
    nothing. *)
Theorem build_timeline_fixes_sorted (events : list Event.t) :
  (build_timeline events = events <-> StronglySorted key_ordered events) /\
  build_timeline (build_timeline events) = build_timeline events.
Proof.
  split.
  - split.
    + intros <-. apply build_timeline_sorted.
    + apply build_timeline_of_sorted.
  - apply build_timeline_of_sorted, build_timeline_sorted.
Qed.

(** X7. Ordering commutes with selecting: the timeline of the events of a
    log that satisfy a condition is the timeline of the log restricted to the
    events that satisfy it. *)
Theorem build_timeline_commutes_with_filter
    (p : Event.t -> bool) (events : list Event.t) :
  build_timeline (filter p events) = filter p (build_timeline events).
Proof. symmetry. apply filter_build_timeline. Qed.

(** X9. When the ids of a log are pairwise distinct, the order in which its
    events are given does not matter: two logs with the same events give the
    same timeline, the same snapshot at every time, and the same validation
    result. *)
Theorem log_order_is_irrelevant (l1 l2 : list Event.t) :
  Permutation l1 l2 ->
  NoDup (map Event.id l1) ->
  build_timeline l1 = build_timeline l2 /\
  (forall as_of, derive_snapshot l1 as_of = derive_snapshot l2 as_of) /\
  validate_timeline l1 = validate_timeline l2.
Proof.
  intros Hp Hnd. pose proof (build_timeline_canonical _ _ Hp Hnd) as H.
  split; [exact H|]. split.
  - intros as_of. unfold derive_snapshot. now rewrite H.
  - unfold validate_timeline. now rewrite H.
Qed.

(** The company's log, shuffled. *)
Lemma log_order_is_irrelevant_witness :
  build_timeline Company.shuffled = build_timeline Company.EVENTS /\
  (forall as_of, derive_snapshot Company.shuffled as_of =
                 derive_snapshot Company.EVENTS as_of) /\
  validate_timeline Company.shuffled = validate_timeline Company.EVENTS.
Proof.
  apply (log_order_is_irrelevant Company.shuffled Company.EVENTS).
  - change Company.shuffled
      with ([Company.evt_004; Company.evt_002; Company.evt_005] ++
            Company.evt_001 :: [Company.evt_003]).
    apply Permutation_sym. unfold Company.EVENTS.
    apply Permutation_cons_app. cbn [app].
    apply (Permutation_cons_app [Company.evt_004] [Company.evt_005;
                                                   Company.evt_003]).
    cbn [app].
    apply (Permutation_cons_app [Company.evt_004; Company.evt_005] []).
    cbn [app]. apply Permutation_refl.
  - repeat constructor; cbn; intuition discriminate.
Defined.

(** ** More on derivation *)

Section DeriveMore.

Lemma derive_snapshot_unfold (events : list Event.t) (as_of : string) :
  derive_snapshot events as_of =
  snapshot <-
    fold_apply None (build_timeline (filter (up_to as_of) events)) ;;
  Ok (option_map (fun s => Snapshot.set_as_of s as_of) snapshot).
Proof.
  unfold derive_snapshot.
  rewrite replay_until_prefix, sorted_prefix_is_filter
    by apply build_timeline_sorted.
  rewrite filter_build_timeline.
  now destruct (fold_apply None _) as [[s|]|x].
Qed.

Lemma fold_apply_app (snapshot : option Snapshot.t) (l1 l2 : list Event.t) :
  fold_apply snapshot (l1 ++ l2) =
  r <- fold_apply snapshot l1 ;; fold_apply r l2.
Proof.
  revert snapshot. induction l1 as [|e l1 IH]; intros snapshot;
    [reflexivity|].
  cbn [app fold_apply].
  destruct (apply_event snapshot e); cbn [bind]; [apply IH|reflexivity].
Qed.

(** A fold that ends in a snapshot ends with a successful application. *)
Lemma fold_apply_last (snapshot : option Snapshot.t) (l : list Event.t)
    (s : Snapshot.t) :
  l <> [] ->
  fold_apply snapshot l = Ok (Some s) ->
  exists pre e prior, l = pre ++ [e] /\ apply_event prior e = Ok s.
Proof.
  revert snapshot. induction l as [|e l IH]; intros snapshot Hne;
    [contradiction|].
  cbn [fold_apply].
  destruct (apply_event snapshot e) as [s1|x] eqn:E; cbn [bind];
    [|discriminate].
  destruct l as [|e' l].
  - cbn [fold_apply]. intros [= <-]. exists [], e, snapshot. auto.
  - intros H. apply IH in H; [|discriminate].
    destruct H as [pre [e0 [prior [Heq Hap]]]].
    exists (e :: pre), e0, prior. rewrite Heq. auto.
Qed.

Lemma sorted_last {A : Type} (R : A -> A -> Prop) (pre : list A) (e : A) :
  StronglySorted R (pre ++ [e]) -> forall x, In x pre -> R x e.
Proof.
  induction pre as [|y pre IH]; intros Hs x Hin; [destruct Hin|].
  cbn [app] in Hs. inversion Hs as [|? ? Hs' Hall]; subst.
  destruct Hin as [<-|Hin].
  - rewrite Forall_forall in Hall. apply Hall, in_or_app. right. now left.
  - now apply IH.
Qed.

(** A weaker condition keeps a longer prefix. *)
Lemma prefix_while_weaken {A : Type} (p q : A -> bool) (l : list A) :
  (forall x, p x = true -> q x = true) ->
  exists rest, prefix_while q l = prefix_while p l ++ rest.
Proof.
  intros Hpq. induction l as [|x l [rest IH]]; [exists []; reflexivity|].
  cbn [prefix_while]. destruct (p x) eqn:Hp.
  - rewrite (Hpq x Hp), IH. exists rest. reflexivity.
  - eexists. cbn [app]. reflexivity.
Qed.

Lemma derive_snapshot_prefix (events : list Event.t) (as_of : string) :
  derive_snapshot events as_of =
  snapshot <-
    fold_apply None (prefix_while (up_to as_of) (build_timeline events)) ;;
  Ok (option_map (fun s => Snapshot.set_as_of s as_of) snapshot).
Proof.
  unfold derive_snapshot. rewrite replay_until_prefix.
  now destruct (fold_apply None _) as [[s|]|x].
Qed.

End DeriveMore.

(** X10. [derive_snapshot] never looks past [as_of]: its result is the one it
    gives on the events whose timestamp is at most [as_of], so events later
    than [as_of] can be added to a log or dropped from it without changing the
    snapshot at [as_of]. *)
Theorem derive_snapshot_ignores_later_events
    (events : list Event.t) (as_of : string) :
  derive_snapshot events as_of =
    derive_snapshot (filter (up_to as_of) events) as_of /\
  (forall later,
      Forall (fun e => str_gt (Event.timestamp e) as_of = true) later ->
      derive_snapshot (events ++ later) as_of = derive_snapshot events as_of).
Proof.
  assert (Hidem : forall l,
             filter (up_to as_of) (filter (up_to as_of) l) =
             filter (up_to as_of) l).
  { intros l. induction l as [|e l IH]; [reflexivity|].
    cbn [filter]. destruct (up_to as_of e) eqn:E; [|exact IH].
    cbn [filter]. now rewrite E, IH. }
  split.
  - rewrite !derive_snapshot_unfold. now rewrite Hidem.
  - intros later Hlater. rewrite !derive_snapshot_unfold.
    rewrite filter_app.
    rewrite (filter_none (up_to as_of) later), app_nil_r; [reflexivity|].
    rewrite Forall_forall in Hlater. intros e He.
    specialize (Hlater e He). rewrite str_gt_leb in Hlater.
    unfold up_to. now apply negb_true_iff.
Qed.

(** X11. [derive_snapshot] returns absent exactly when every event of the log
    is later than [as_of]; in particular on the empty log. *)
Theorem derive_snapshot_absent_iff (events : list Event.t) (as_of : string) :
  derive_snapshot events as_of = Ok None <->
  forall e, In e events -> str_gt (Event.timestamp e) as_of = true.
Proof.
  rewrite derive_snapshot_unfold.
  set (kept := filter (up_to as_of) events).
  assert (Hkept : kept = [] <->
                  forall e, In e events ->
                            str_gt (Event.timestamp e) as_of = true).
  { unfold kept. split.
    - intros Hnil e He. rewrite str_gt_leb. apply negb_true_iff.
      destruct (String.leb (Event.timestamp e) as_of) eqn:E; [|reflexivity].
      assert (Hin : In e (filter (up_to as_of) events))
        by (apply filter_In; auto).
      rewrite Hnil in Hin. destruct Hin.
    - intros Hall. apply filter_none. intros e He.
      specialize (Hall e He). rewrite str_gt_leb in Hall.
      unfold up_to. now apply negb_true_iff. }
  rewrite <- Hkept. split.
  - destruct (fold_apply None (build_timeline kept)) as [[s|]|x] eqn:Hf;
      cbn; try discriminate.
    intros _. apply fold_apply_absent in Hf. destruct Hf as [_ Hf].
    pose proof (build_timeline_perm kept) as Hp. rewrite Hf in Hp.
    now apply Permutation_nil, Permutation_sym.
  - intros ->. reflexivity.
Qed.

(** X12. A snapshot that [derive_snapshot] returns is stamped with the
    requested [as_of] and comes from the latest event of the log at or before
    [as_of], the greatest one in key order: its [last_event_id] and
    [entity_id] are that event's, and it is flagged deleted exactly when that
    event is a [deleted] event. *)
Theorem derive_snapshot_reflects_latest_event
    (events : list Event.t) (as_of : string) (s : Snapshot.t) :
  derive_snapshot events as_of = Ok (Some s) ->
  Snapshot.as_of s = as_of /\
  exists e,
    In e events /\
    up_to as_of e = true /\
    (forall e', In e' events -> up_to as_of e' = true -> key_ordered e' e) /\
    Snapshot.last_event_id s = Event.id e /\
    Snapshot.entity_id s = Event.entity_id e /\
    Snapshot.deleted s = (Event.event_type e =? "deleted").
Proof.
  rewrite derive_snapshot_unfold.
  set (kept := filter (up_to as_of) events).
  destruct (fold_apply None (build_timeline kept)) as [[s0|]|x] eqn:Hf;
    cbn; try discriminate.
  intros [= <-]. split; [reflexivity|].
  assert (Hne : build_timeline kept <> []).
  { intros Hnil. rewrite Hnil in Hf. discriminate. }
  destruct (fold_apply_last _ _ _ Hne Hf) as [pre [e [prior [Heq Hap]]]].
  pose proof (build_timeline_sorted kept) as Hs. rewrite Heq in Hs.
  pose proof (build_timeline_perm kept) as Hp. rewrite Heq in Hp.
  assert (Hin : In e kept).
  { eapply Permutation_in; [apply Permutation_sym; exact Hp|].
    apply in_or_app. right. now left. }
  apply filter_In in Hin. destruct Hin as [Hin Hup].
  exists e. split; [exact Hin|]. split; [exact Hup|]. split.
  - intros e' Hin' Hup'.
    assert (Hk : In e' (pre ++ [e])).
    { eapply Permutation_in; [exact Hp|]. apply filter_In. auto. }
    apply in_app_or in Hk. destruct Hk as [Hk|[<-|[]]].
    + eapply sorted_last; eauto.
    + apply key_le_refl.
  - apply apply_event_ok_produced in Hap. destruct Hap as [st ->].
    repeat split.
Qed.

(** In July the company's snapshot comes from its fourth event. *)
Lemma derive_snapshot_reflects_latest_event_witness :
  exists s,
    derive_snapshot Company.EVENTS "2024-07-01T00:00:00Z" = Ok (Some s) /\
    Snapshot.as_of s = "2024-07-01T00:00:00Z" /\
    Snapshot.last_event_id s = "evt-004".
Proof.
  destruct (derive_snapshot Company.EVENTS "2024-07-01T00:00:00Z")
    as [[s|]|x] eqn:E; try (vm_compute in E; discriminate E).
  exists s. split; [reflexivity|].
  destruct (derive_snapshot_reflects_latest_event _ _ _ E)
    as [Has [e [_ [_ [_ [Hid _]]]]]].
  split; [exact Has|].
  vm_compute in E. injection E as <-. reflexivity.
Defined.

(** X13. Moving [as_of] later can only extend the replay: a failure of
    [derive_snapshot] at one time is its failure at every later time, and
    when it returns at one time it returns at every earlier time. *)
Theorem derive_snapshot_failure_persists
    (events : list Event.t) (t1 t2 : string) :
  String.leb t1 t2 = true ->
  (forall x, derive_snapshot events t1 = Raise x ->
             derive_snapshot events t2 = Raise x) /\
  (forall r, derive_snapshot events t2 = Ok r ->
             exists r', derive_snapshot events t1 = Ok r').
Proof.
  intros Hle.
  destruct (prefix_while_weaken (up_to t1) (up_to t2)
              (build_timeline events)) as [rest Hrest].
  { intros e He. unfold up_to in *. eapply str_leb_trans; eauto. }
  rewrite !derive_snapshot_prefix, Hrest, fold_apply_app.
  destruct (fold_apply None (prefix_while (up_to t1) (build_timeline events)))
    as [r1|x1]; cbn [bind].
  - split; [discriminate|]. intros _ _. destruct r1; cbn; eauto.
  - split; [auto|discriminate].
Qed.

(** The company's log replays in July and thus in February. *)
Lemma derive_snapshot_failure_persists_witness :
  String.leb "2024-02-01T00:00:00Z" "2024-07-01T00:00:00Z" = true /\
  exists r', derive_snapshot Company.EVENTS "2024-02-01T00:00:00Z" = Ok r'.
Proof.
  split; [reflexivity|].
  apply (proj2 (derive_snapshot_failure_persists Company.EVENTS
                  "2024-02-01T00:00:00Z" "2024-07-01T00:00:00Z" eq_refl)
           (Some (Snapshot.set_as_of Company.stable "2024-07-01T00:00:00Z"))).
  reflexivity.
Defined.

(** ** More on validation *)

Section ValidateMore.

(** The trace of a replay, event by event: each event of the timeline meets
    the snapshot the replay holds after the events before it. *)
Lemma replay_trace_app (snapshot : option Snapshot.t)
    (pre post : list Event.t) :
  replay_trace snapshot (pre ++ post) =
  replay_trace snapshot pre ++ replay_trace (replay_state snapshot pre) post.
Proof.
  revert snapshot. induction pre as [|e pre IH]; intros snapshot;
    [reflexivity|].
  cbn [app replay_trace replay_state]. now rewrite IH.
Qed.

Lemma replay_trace_step (snapshot : option Snapshot.t) (l : list Event.t)
    (step : Event.t * result Snapshot.t) :
  In step (replay_trace snapshot l) ->
  exists pre post,
    l = pre ++ fst step :: post /\
    snd step = apply_event (replay_state snapshot pre) (fst step).
Proof.
  revert snapshot. induction l as [|e l IH]; intros snapshot; [intros []|].
  cbn [replay_trace]. intros [<-|Hin].
  - exists [], l. split; reflexivity.
  - apply IH in Hin. destruct Hin as [pre [post [-> H]]].
    exists (e :: pre), post. split; [reflexivity|exact H].
Qed.

Lemma replay_trace_length (snapshot : option Snapshot.t)
    (l : list Event.t) :
  List.length (replay_trace snapshot l) = List.length l.
Proof.
  revert snapshot. induction l as [|e l IH]; intros snapshot; [reflexivity|].
  cbn [replay_trace List.length]. now rewrite IH.
Qed.

Lemma error_entries_length (trace : list (Event.t * result Snapshot.t)) :
  List.length (flat_map error_entry trace) <= List.length trace.
Proof.
  induction trace as [|[e r] trace IH]; [reflexivity|].
  cbn [flat_map List.length]. rewrite length_app.
  unfold error_entry at 1. cbn [fst snd].
  destruct r as [s|[m| |]]; cbn [List.length]; lia.
Qed.

(** A fold that succeeds on a list succeeds on each of its prefixes. *)
Lemma fold_apply_prefix (snapshot : option Snapshot.t)
    (l1 l2 : list Event.t) (r : option Snapshot.t) :
  fold_apply snapshot (l1 ++ l2) = Ok r ->
  exists r1, fold_apply snapshot l1 = Ok r1.
Proof.
  rewrite fold_apply_app.
  destruct (fold_apply snapshot l1); cbn [bind]; [eauto|discriminate].
Qed.

Lemma prefix_while_prefix {A : Type} (p : A -> bool) (l : list A) :
  exists rest, l = prefix_while p l ++ rest.
Proof.
  induction l as [|x l [rest IH]]; [exists []; reflexivity|].
  cbn [prefix_while]. destruct (p x).
  - exists rest. cbn [app]. now rewrite <- IH.
  - exists (x :: l). reflexivity.
Qed.

(** Where the fold stops, the loop of the validator records or stops. *)
Lemma replay_collect_meets_failure (l1 l2 : list Event.t)
    (snapshot : option Snapshot.t) (errors : list TimelineError.t)
    (x : exn) :
  fold_apply snapshot l1 = Raise x ->
  match x with
  | ValueError m =>
      forall out, replay_collect (l1 ++ l2) snapshot errors = Ok out ->
      exists e more,
        In e l1 /\ out = errors ++ TimelineError.mk (Event.id e) m :: more
  | _ => replay_collect (l1 ++ l2) snapshot errors = Raise x
  end.
Proof.
  revert snapshot errors.
  induction l1 as [|e l1 IH]; intros snapshot errors; [discriminate|].
  cbn [fold_apply app replay_collect].
  destruct (apply_event snapshot e) as [s|y] eqn:E; cbn [bind].
  - intros H. specialize (IH (Some s) errors H).
    destruct x; [|exact IH|exact IH].
    intros out Hout. destruct (IH out Hout) as [e0 [more [Hin Heq]]].
    exists e0, more. split; [now right|exact Heq].
  - intros [= ->]. destruct x as [m| |]; [|reflexivity|reflexivity].
    intros out Hout. apply replay_collect_extends in Hout.
    destruct Hout as [more ->]. exists e, more.
    split; [now left|]. now rewrite <- app_assoc.
Qed.

End ValidateMore.

(** X14. The list [validate_timeline] returns holds the failures of the
    replay and nothing else.  Every entry carries the id of an event of the
    timeline and the message [apply_event] raised on that event when applied
    to the snapshot the replay held at that point, the result of the last
    application that succeeded among the events before it; every event of
    the timeline that fails with a [ValueError] on that snapshot has its
    entry; and there are at most as many entries as events. *)
Theorem validate_timeline_errors_name_events
    (events : list Event.t) (errors : list TimelineError.t) :
  validate_timeline events = Ok errors ->
  List.length errors <= List.length events /\
  (forall err, In err errors ->
     exists pre e post,
       build_timeline events = pre ++ e :: post /\
       TimelineError.event_id err = Event.id e /\
       apply_event (replay_state None pre) e =
         Raise (ValueError (TimelineError.reason err))) /\
  (forall pre e post m,
     build_timeline events = pre ++ e :: post ->
     apply_event (replay_state None pre) e = Raise (ValueError m) ->
     In (TimelineError.mk (Event.id e) m) errors).
Proof.
  unfold validate_timeline. rewrite replay_collect_trace. cbn [app].
  destruct (first_uncaught _); [discriminate|]. intros [= <-].
  split; [|split].
  - rewrite (Permutation_length (build_timeline_perm events)).
    rewrite <- (replay_trace_length None (build_timeline events)).
    apply error_entries_length.
  - intros err Hin. apply in_flat_map in Hin.
    destruct Hin as [[e r] [Hstep Herr]].
    apply replay_trace_step in Hstep.
    destruct Hstep as [pre [post [Heq Hr]]]. cbn [fst snd] in *.
    exists pre, e, post. split; [exact Heq|].
    unfold error_entry in Herr. cbn [fst snd] in Herr. rewrite <- Hr.
    destruct r as [s|[m| |]]; try contradiction.
    destruct Herr as [<-|[]]. split; reflexivity.
  - intros pre e post m Heq Hm. rewrite Heq, replay_trace_app.
    cbn [replay_trace]. rewrite Hm. rewrite flat_map_app. apply in_or_app.
    right. cbn [flat_map]. unfold error_entry at 1. cbn [fst snd].
    now left.
Qed.

(** In the log with a second creation and two dismissals, the creation fails
    on the company as founded and the second dismissal on the company without
    its employee; the entry of the creation is in the list. *)
Lemma validate_timeline_errors_name_events_witness :
  validate_timeline
    (Company.dismiss :: Company.evt_001 :: Company.dismiss ::
     Company.EVENTS) =
    Ok [TimelineError.mk "evt-001" (AlreadyExists "company-123");
        TimelineError.mk "evt-007"
          (RelationshipNotFound (VStr "employs") (VStr "person-456"))] /\
  In (TimelineError.mk "evt-001" (AlreadyExists "company-123"))
     [TimelineError.mk "evt-001" (AlreadyExists "company-123");
      TimelineError.mk "evt-007"
        (RelationshipNotFound (VStr "employs") (VStr "person-456"))].
Proof.
  split; [reflexivity|].
  apply (proj2 (proj2 (validate_timeline_errors_name_events
                         (Company.dismiss :: Company.evt_001 ::
                          Company.dismiss :: Company.EVENTS)
                         _ eq_refl))
           [Company.evt_001] Company.evt_001
           [Company.evt_002; Company.evt_003; Company.evt_004;
            Company.dismiss; Company.dismiss; Company.evt_005]
           (AlreadyExists "company-123"));
    reflexivity.
Defined.

(** X15. A log that [validate_timeline] finds free of errors can be derived
    at every time: [derive_snapshot] does not fail on it, whatever
    [as_of]. *)
Theorem validated_log_derives_at_any_time
    (events : list Event.t) (as_of : string) :
  validate_timeline events = Ok [] ->
  exists r, derive_snapshot events as_of = Ok r.
Proof.
  unfold validate_timeline. intros H.
  apply replay_collect_clean in H. destruct H as [s Hs].
  destruct (prefix_while_prefix (up_to as_of) (build_timeline events))
    as [rest Hrest].
  rewrite Hrest in Hs. apply fold_apply_prefix in Hs.
  destruct Hs as [r1 Hr1].
  rewrite derive_snapshot_prefix, Hr1. destruct r1; cbn; eauto.
Qed.

(** The company's log is valid, and so has a snapshot in April. *)
Lemma validated_log_derives_at_any_time_witness :
  validate_timeline Company.EVENTS = Ok [] /\
  exists r, derive_snapshot Company.EVENTS "2024-04-01T00:00:00Z" = Ok r.
Proof.
  split; [reflexivity|].
  apply (validated_log_derives_at_any_time Company.EVENTS). reflexivity.
Defined.

(** X16. What stops [derive_snapshot] is what [validate_timeline] meets
    first: if deriving fails with a [ValueError], the list of the validator
    begins with the entry of that failure, for an event of the log; if
    deriving fails with another exception, the validator fails with it
    too. *)
Theorem derive_failure_is_first_validation_error
    (events : list Event.t) (as_of : string) (x : exn) :
  derive_snapshot events as_of = Raise x ->
  match x with
  | ValueError m =>
      forall errors, validate_timeline events = Ok errors ->
      exists e rest,
        In e events /\ errors = TimelineError.mk (Event.id e) m :: rest
  | _ => validate_timeline events = Raise x
  end.
Proof.
  rewrite derive_snapshot_prefix.
  destruct (fold_apply None (prefix_while (up_to as_of)
                               (build_timeline events)))
    as [r|y] eqn:Hf; cbn [bind]; [destruct r; discriminate|].
  intros [= ->].
  destruct (prefix_while_prefix (up_to as_of) (build_timeline events))
    as [rest Hrest].
  pose proof (replay_collect_meets_failure _ rest None [] x Hf) as H.
  rewrite <- Hrest in H. fold (validate_timeline events) in H.
  destruct x as [m| |]; [|exact H|exact H].
  intros errors Herr. destruct (H errors Herr) as [e [more [Hin Heq]]].
  exists e, more. split; [|exact Heq].
  assert (Hin' : In e (build_timeline events)).
  { rewrite Hrest. apply in_or_app. now left. }
  eapply Permutation_in; [|exact Hin'].
  apply Permutation_sym, build_timeline_perm.
Qed.

(** Creating the company twice stops the derivation and heads the report. *)
Lemma derive_failure_is_first_validation_error_witness :
  derive_snapshot (Company.evt_001 :: Company.EVENTS)
    "2024-04-01T00:00:00Z" =
    Raise (ValueError (AlreadyExists "company-123")) /\
  exists e rest,
    In e (Company.evt_001 :: Company.EVENTS) /\
    [TimelineError.mk "evt-001" (AlreadyExists "company-123")] =
    TimelineError.mk (Event.id e) (AlreadyExists "company-123") :: rest.
Proof.
  split; [reflexivity|].
  apply (derive_failure_is_first_validation_error
           (Company.evt_001 :: Company.EVENTS) "2024-04-01T00:00:00Z"
           (ValueError (AlreadyExists "company-123")) eq_refl).
  reflexivity.
Defined.

(** ** More on equality and diffs *)

Section EqualitySymmetry.

Lemma distinct_NoDup (l : list string) : distinct l = true -> NoDup l.
Proof.
  induction l as [|k l IH]; cbn [distinct]; [constructor|].
  intros H. apply andb_prop in H. destruct H as [Hk Hl].
  constructor; [|auto].
  intros Hin. apply existsb_eqb_In in Hin. rewrite Hin in Hk. discriminate.
Qed.

Lemma dict_get_keys (d : dict) (k : string) :
  In k (keys d) <-> exists v, dict_get d k = Some v.
Proof.
  unfold keys. induction d as [|[k' v'] d IH]; cbn [map fst In dict_get].
  - split; [tauto|]. intros [v H]. discriminate.
  - destruct (String.eqb_spec k k') as [->|Hne].
    + split; eauto.
    + rewrite <- IH. split; [|tauto]. intros [H|H]; [congruence|exact H].
Qed.

Lemma py_eq_list_length (xs ys : list value) :
  py_eq (VList xs) (VList ys) = true -> List.length xs = List.length ys.
Proof.
  revert ys. induction xs as [|x xs IH]; intros [|y ys]; try discriminate;
    [reflexivity|].
  rewrite py_eq_list_cons. intros H. apply andb_prop in H.
  destruct H as [_ H]. cbn [List.length]. f_equal. now apply IH.
Qed.

Lemma SFeqb_sym (f g : spec_float) : SFeqb f g = true -> SFeqb g f = true.
Proof.
  unfold SFeqb.
  destruct f as [s|s| |s m e], g as [s'|s'| |s' m' e']; cbn [SFcompare];
    try discriminate; try reflexivity;
    try (destruct s; discriminate); try (destruct s'; discriminate).
  - destruct s, s'; try discriminate; reflexivity.
  - destruct s, s'; try discriminate;
      (destruct (Z.compare_spec e e'); try discriminate; subst;
       rewrite Z.compare_refl;
       change (Pos.compare_cont Eq m m') with (Pos.compare m m');
       change (Pos.compare_cont Eq m' m) with (Pos.compare m' m);
       destruct (Pos.compare_spec m m'); try discriminate; subst;
       now rewrite Pos.compare_refl).
Qed.

Lemma same_nan_sym (a b : value) : same_nan a b = same_nan b a.
Proof.
  destruct a as [| | |i [| | |]| | |], b as [| | |j [| | |]| | |];
    try reflexivity.
  apply N.eqb_sym.
Qed.

(** Equality of items is symmetric where [==] is. *)
Lemma item_eq_sym (a b : value) :
  (py_eq a b = true -> py_eq b a = true) ->
  item_eq a b = true -> item_eq b a = true.
Proof.
  unfold item_eq. intros Hsym H. rewrite same_nan_sym.
  apply orb_true_iff in H. apply orb_true_iff.
  destruct H as [H|H]; [now left|right; auto].
Qed.

(** [==] is symmetric. *)
Lemma py_eq_sym (a : value) :
  forall b, unique_keys a = true -> unique_keys b = true ->
            py_eq a b = true -> py_eq b a = true.
Proof.
  induction a as [| x | n | obj f | s | items IH | entries IH]
    using value_nested_ind; intros b Ha Hb.
  - destruct b; try discriminate. auto.
  - destruct b as [| y | n | j g | | |]; try discriminate; cbn [py_eq].
    + now destruct x, y.
    + now rewrite Z.eqb_sym.
    + auto.
  - destruct b as [| y | m | j g | | |]; try discriminate; cbn [py_eq].
    + now rewrite Z.eqb_sym.
    + now rewrite Z.eqb_sym.
    + auto.
  - destruct b as [| y | m | j g | | |]; try discriminate; cbn [py_eq];
      auto using SFeqb_sym.
  - destruct b; try discriminate. cbn [py_eq]. now rewrite String.eqb_sym.
  - destruct b as [| | | | |ys|]; try discriminate.
    cbn [unique_keys] in Ha, Hb. revert ys Hb.
    induction IH as [|x xs Hx Hxs IHxs]; intros [|y ys] Hb; try discriminate;
      [auto|].
    cbn [forallb] in Ha, Hb.
    apply andb_prop in Ha. destruct Ha as [Hax Haxs].
    apply andb_prop in Hb. destruct Hb as [Hby Hbys].
    rewrite !py_eq_list_cons. intros H. apply andb_prop in H.
    destruct H as [H1 H2].
    rewrite (item_eq_sym x y (Hx y Hax Hby) H1), (IHxs Haxs ys Hbys H2).
    reflexivity.
  - destruct b as [| | | | | |d2]; try discriminate.
    rewrite !py_eq_dict. intros H. apply andb_prop in H.
    destruct H as [Hlen Hsub]. apply Nat.eqb_eq in Hlen.
    rewrite <- Hlen, Nat.eqb_refl. cbn [andb].
    cbn [unique_keys] in Ha, Hb.
    apply andb_prop in Ha. destruct Ha as [Hd1 Hu1].
    apply andb_prop in Hb. destruct Hb as [Hd2 Hu2].
    rewrite forallb_forall in Hsub, Hu1, Hu2. rewrite Forall_forall in IH.
    assert (Hincl : incl (keys d2) (keys entries)).
    { apply NoDup_length_incl.
      - now apply distinct_NoDup.
      - unfold keys. rewrite !length_map. lia.
      - intros k Hk. apply dict_get_keys in Hk. destruct Hk as [v Hv].
        apply dict_get_In in Hv. specialize (Hsub _ Hv). cbn [fst snd] in Hsub.
        apply dict_get_keys.
        destruct (dict_get d2 k); [eauto|discriminate]. }
    apply forallb_forall. intros [k w] Hin. cbn [fst snd].
    assert (Hk : In k (keys entries)).
    { apply Hincl. unfold keys. change k with (fst (k, w)).
      now apply in_map. }
    apply dict_get_keys in Hk. destruct Hk as [v Hv]. rewrite Hv.
    pose proof (dict_get_In _ _ _ Hv) as Hinv.
    pose proof (Hsub _ Hinv) as Hvw. cbn [fst snd] in Hvw.
    rewrite (dict_get_entry _ _ _ Hd2 Hin) in Hvw.
    apply (item_eq_sym v w); [|exact Hvw].
    apply (IH _ Hinv w); [apply (Hu1 _ Hinv)|apply (Hu2 _ Hin)].
Qed.

Lemma py_eq_comm (a b : value) :
  unique_keys a = true -> unique_keys b = true -> py_eq a b = py_eq b a.
Proof.
  intros Ha Hb.
  destruct (py_eq a b) eqn:Hab, (py_eq b a) eqn:Hba; try reflexivity.
  - rewrite (py_eq_sym _ _ Ha Hb Hab) in Hba. discriminate.
  - rewrite (py_eq_sym _ _ Hb Ha Hba) in Hab. discriminate.
Qed.

(** Two strictly ascending lists with the same members are the same list. *)
Lemma ascending_unique (l1 l2 : list string) :
  StronglySorted str_lt l1 -> StronglySorted str_lt l2 ->
  (forall x, In x l1 <-> In x l2) -> l1 = l2.
Proof.
  assert (Hirr : forall a l, Forall (str_lt a) l -> ~ In a l).
  { intros a l Hall Hin. rewrite Forall_forall in Hall.
    specialize (Hall a Hin). unfold str_lt in Hall.
    rewrite str_compare_refl in Hall. discriminate. }
  intros H1. revert l2.
  induction H1 as [|a t1 Ht1 IH Ha]; intros l2 H2 Hmem.
  - destruct l2 as [|b t2]; [reflexivity|].
    exfalso. apply (Hmem b). now left.
  - destruct H2 as [|b t2 Ht2 Hb].
    + exfalso. apply (Hmem a). now left.
    + assert (Hab : a = b).
      { destruct (proj1 (Hmem a) (or_introl eq_refl)) as [<-|Hina];
          [reflexivity|].
        destruct (proj2 (Hmem b) (or_introl eq_refl)) as [->|Hinb];
          [reflexivity|].
        rewrite Forall_forall in Ha, Hb.
        specialize (Ha b Hinb). specialize (Hb a Hina).
        unfold str_lt in Ha, Hb. apply str_compare_gt_lt in Hb. congruence. }
      subst b. f_equal. apply IH; [exact Ht2|].
      intros x. split; intros Hx.
      * destruct (proj1 (Hmem x) (or_intror Hx)) as [<-|H]; [|exact H].
        exfalso. now apply (Hirr a t1).
      * destruct (proj2 (Hmem x) (or_intror Hx)) as [<-|H]; [|exact H].
        exfalso. now apply (Hirr a t2).
Qed.

Lemma sorted_union_comm (ks1 ks2 : list string) :
  sorted_union ks1 ks2 = sorted_union ks2 ks1.
Proof.
  apply ascending_unique; try apply sorted_union_sorted.
  intros x. rewrite !sorted_union_In. tauto.
Qed.

Lemma filter_agree {A : Type} (p q : A -> bool) (l : list A) :
  (forall x, In x l -> p x = q x) -> filter p l = filter q l.
Proof.
  induction l as [|x l IH]; intros H; [reflexivity|].
  cbn [filter]. rewrite (H x (or_introl eq_refl)), IH; [reflexivity|].
  intros y Hy. apply H. now right.
Qed.

End EqualitySymmetry.

(** X17. Diffing in the other direction gives the same changes read
    backwards: the same fields in the same order, with [before] and [after]
    exchanged, and the two [as_of] headers exchanged. *)
Theorem compute_diff_mirror (a b : option Snapshot.t) :
  unique_keys_dict (state_of a) = true ->
  unique_keys_dict (state_of b) = true ->
  Diff.changes (compute_diff b a) = map mirror (Diff.changes (compute_diff a b)) /\
  Diff.before_as_of (compute_diff b a) = Diff.after_as_of (compute_diff a b) /\
  Diff.after_as_of (compute_diff b a) = Diff.before_as_of (compute_diff a b).
Proof.
  intros Ha Hb. split; [|split; reflexivity].
  rewrite !compute_diff_changes, map_app, map_map.
  f_equal.
  - unfold deleted_change.
    destruct (deleted_of a), (deleted_of b); reflexivity.
  - rewrite sorted_union_comm.
    rewrite (filter_agree _
               (fun key => py_ne (get_or (state_of a) key VNone)
                                 (get_or (state_of b) key VNone))).
    + reflexivity.
    + intros k _. unfold py_ne. f_equal.
      apply py_eq_comm; now apply get_or_unique_keys.
Qed.

(** From the stable company back to the expanding one. *)
Lemma compute_diff_mirror_witness :
  Diff.changes (compute_diff (Some Company.stable) (Some Company.expanding)) =
  map mirror
    (Diff.changes (compute_diff (Some Company.expanding)
                     (Some Company.stable))).
Proof.
  apply (compute_diff_mirror (Some Company.expanding) (Some Company.stable));
    reflexivity.
Defined.

Section DiffOfEvents.

Lemma dict_set_keys_In (d : dict) (k : string) (v : value) :
  In k (keys (dict_set d k v)).
Proof.
  apply dict_get_keys. exists v. apply dict_get_set_same.
Qed.

(** Between two live snapshots a field is reported when its values differ. *)
Lemma live_diff_fields (s s' : Snapshot.t) :
  Snapshot.deleted s = false -> Snapshot.deleted s' = false ->
  exists fields,
    Diff.changes (compute_diff (Some s) (Some s')) =
      map (field_change (Some s) (Some s')) fields /\
    StronglySorted str_lt fields /\
    forall k, In k fields <->
              (In k (keys (Snapshot.state s)) \/
               In k (keys (Snapshot.state s'))) /\
              py_eq (get_or (Snapshot.state s) k VNone)
                    (get_or (Snapshot.state s') k VNone) = false.
Proof.
  intros Hs Hs'. eexists. rewrite compute_diff_changes.
  unfold deleted_change. cbn [deleted_of state_of]. rewrite Hs, Hs'.
  cbn [Bool.eqb negb app]. split; [reflexivity|].
  split; [apply filter_sorted, sorted_union_sorted|].
  intros k. rewrite filter_In, sorted_union_In. unfold py_ne.
  now rewrite negb_true_iff.
Qed.

(** Replacing [relationships] by an unequal value is one change. *)
Lemma diff_of_relationships (s s' : Snapshot.t) (v : value) :
  unique_keys_dict (Snapshot.state s) = true ->
  no_nan_field (Snapshot.state s) = true ->
  Snapshot.deleted s = false -> Snapshot.deleted s' = false ->
  Snapshot.state s' = dict_set (Snapshot.state s) "relationships" v ->
  py_eq (get_or (Snapshot.state s) "relationships" VNone) v = false ->
  Diff.changes (compute_diff (Some s) (Some s')) =
  [Change.mk "relationships"
     (get_or (Snapshot.state s) "relationships" VNone) v].
Proof.
  intros Hu Hn Hs Hs' Hst Hne.
  destruct (live_diff_fields s s' Hs Hs') as [fields [-> [Hsorted Hmem]]].
  assert (Hv : get_or (Snapshot.state s') "relationships" VNone = v)
    by (unfold get_or; now rewrite Hst, dict_get_set_same).
  assert (Hfields : fields = ["relationships"]).
  { apply ascending_unique; [exact Hsorted|repeat constructor|].
    intros k. rewrite Hmem. cbn [In]. split.
    - intros [_ Hk]. left.
      destruct (String.eqb_spec "relationships" k) as [E|E]; [exact E|].
      exfalso. unfold get_or in Hk. rewrite Hst in Hk.
      rewrite dict_get_set_other in Hk by exact E.
      fold (get_or (Snapshot.state s) k VNone) in Hk.
      rewrite py_eq_refl in Hk
        by (now apply get_or_unique_keys || now apply get_or_not_nan).
      discriminate.
    - intros [<-|[]]. split.
      + right. rewrite Hst. apply dict_set_keys_In.
      + now rewrite Hv. }
  rewrite Hfields. cbn [map]. unfold field_change. cbn [state_of].
  now rewrite Hv.
Qed.

End DiffOfEvents.

(** X18. The diff across an [updated] event names only fields of its
    payload: when no field of the snapshot's state is a float NaN, every
    change between the snapshot and the snapshot the update returns is for a
    key the payload holds.  (A NaN field is unequal to itself and is reported
    whether or not the payload names it.) *)
Theorem diff_of_update_names_payload_fields
    (s s' : Snapshot.t) (event : Event.t) (c : Change.t) :
  unique_keys_dict (Snapshot.state s) = true ->
  no_nan_field (Snapshot.state s) = true ->
  Event.event_type event = "updated" ->
  apply_event (Some s) event = Ok s' ->
  In c (Diff.changes (compute_diff (Some s) (Some s'))) ->
  In (Change.field c) (keys (Event.payload event)).
Proof.
  intros Hu Hn Hty Hok Hin.
  destruct (Snapshot.deleted s) eqn:Hdel.
  - assert (Hm : mutating (Event.event_type event) = Some Update)
      by now rewrite Hty.
    rewrite (apply_deleted_snapshot _ _ _ Hm Hdel) in Hok. discriminate.
  - rewrite (apply_updated _ _ Hty Hdel) in Hok. injection Hok as <-.
    destruct (live_diff_fields s
                (produced event
                   (dict_update (Snapshot.state s) (Event.payload event))
                   false) Hdel eq_refl) as [fields [Heq [_ Hmem]]].
    rewrite Heq in Hin. apply in_map_iff in Hin.
    destruct Hin as [k [<- Hk]]. cbn [field_change Change.field].
    apply Hmem in Hk. destruct Hk as [_ Hk].
    cbn [produced Snapshot.state] in Hk.
    apply dict_get_keys.
    destruct (dict_get (Event.payload event) k) as [v|] eqn:E; [eauto|].
    exfalso. unfold get_or in Hk.
    rewrite (dict_get_update_absent _ _ _ E) in Hk.
    fold (get_or (Snapshot.state s) k VNone) in Hk.
    rewrite py_eq_refl in Hk
      by (now apply get_or_unique_keys || now apply get_or_not_nan).
    discriminate.
Qed.

(** The fourth event of the company changes its status and its head count. *)
Lemma diff_of_update_names_payload_fields_witness :
  forallb (fun c => existsb (String.eqb (Change.field c))
                      (keys (Event.payload Company.evt_002)))
    (Diff.changes
       (compute_diff
          (Some (produced Company.evt_001 (Event.payload Company.evt_001)
                   false))
          (Some Company.expanding))) = true.
Proof.
  apply forallb_forall. intros c Hc. apply existsb_eqb_In.
  apply (diff_of_update_names_payload_fields
           (produced Company.evt_001 (Event.payload Company.evt_001) false)
           Company.expanding Company.evt_002 c);
    [reflexivity|reflexivity|reflexivity|reflexivity|exact Hc].
Defined.

(** X19. The diff across a relationship event is one change: when no field
    of the snapshot's state is a float NaN, between the snapshot and the
    snapshot [relationship_added] or [relationship_removed] returns,
    [compute_diff] reports the field [relationships] and no other, with the
    whole sequences before and after. *)
Theorem diff_of_relationship_event_is_one_change
    (s s' : Snapshot.t) (event : Event.t) :
  unique_keys_dict (Snapshot.state s) = true ->
  no_nan_field (Snapshot.state s) = true ->
  Event.event_type event = "relationship_added" \/
  Event.event_type event = "relationship_removed" ->
  apply_event (Some s) event = Ok s' ->
  Diff.changes (compute_diff (Some s) (Some s')) =
  [Change.mk "relationships"
     (get_or (Snapshot.state s) "relationships" VNone)
     (get_or (Snapshot.state s') "relationships" VNone)].
Proof.
  intros Hu Hn Hty Hok.
  destruct (Snapshot.deleted s) eqn:Hdel.
  - exfalso.
    assert (Hm : exists act, mutating (Event.event_type event) = Some act)
      by (destruct Hty as [-> | ->]; eexists; reflexivity).
    destruct Hm as [act Hm].
    rewrite (apply_deleted_snapshot _ _ _ Hm Hdel) in Hok. discriminate.
  - destruct Hty as [Hty|Hty].
    + destruct (added_ok_typed _ _ _ Hty Hdel Hok) as [Hshape Hprops].
      rewrite (apply_added _ _ Hdel Hty Hshape Hprops) in Hok.
      injection Hok as <-.
      rewrite (diff_of_relationships s (produced event _ false) _ Hu Hn Hdel
                 eq_refl eq_refl).
      * cbn [produced Snapshot.state]. unfold get_or.
        now rewrite dict_get_set_same.
      * unfold get_or, relationships_of.
        destruct Hshape as [-> | [rs ->]]; [reflexivity|].
        destruct (py_eq (VList rs) _) eqn:E; [|reflexivity].
        apply py_eq_list_length in E. rewrite length_app in E.
        cbn [List.length] in E. lia.
    + pose proof (removed_ok_typed _ _ _ Hty Hdel Hok) as Hrel.
      rewrite (apply_removed _ _ Hdel Hty Hrel) in Hok.
      destruct (has_match _ _) eqn:Hmatch; [|discriminate].
      injection Hok as <-.
      rewrite (diff_of_relationships s (produced event _ false) _ Hu Hn Hdel
                 eq_refl eq_refl).
      * cbn [produced Snapshot.state]. unfold get_or.
        now rewrite dict_get_set_same.
      * unfold has_match, relationships_of in *. unfold get_or.
        destruct (dict_get (Snapshot.state s) "relationships")
          as [[| | | | |rs|]|]; try discriminate.
        match goal with
        | |- py_eq (VList rs) (VList ?kept) = false =>
            destruct (py_eq (VList rs) (VList kept)) eqn:E; [|reflexivity]
        end.
        apply py_eq_list_length in E. symmetry in E.
        apply Nat.eqb_eq in E.
        rewrite filter_keeps_length, forallb_unmatched, Hmatch in E.
        discriminate.
Qed.

(** Letting the employee go shows as the one change of [relationships]. *)
Lemma diff_of_relationship_event_is_one_change_witness :
  exists s',
    apply_event (Some Company.stable) Company.dismiss = Ok s' /\
    map Change.field
      (Diff.changes (compute_diff (Some Company.stable) (Some s'))) =
    ["relationships"].
Proof.
  destruct (apply_event (Some Company.stable) Company.dismiss) as [s'|x] eqn:E;
    [|vm_compute in E; discriminate E].
  exists s'. split; [reflexivity|].
  rewrite (diff_of_relationship_event_is_one_change Company.stable s'
             Company.dismiss eq_refl eq_refl (or_intror eq_refl) E).
  reflexivity.
Defined.

(** ** Invariants of the replay *)

Section TypedFold.

(** On events of the data model the fold fails with a [ValueError] or ends
    on a state of the data model. *)
Lemma fold_apply_typed (l : list Event.t) (snapshot : option Snapshot.t) :
  Forall (fun e => event_typed e = true) l ->
  relationships_typed (state_of snapshot) = true ->
  match fold_apply snapshot l with
  | Ok r => relationships_typed (state_of r) = true
  | Raise x => exists m, x = ValueError m
  end.
Proof.
  intros Hall. revert snapshot.
  induction Hall as [|e rest He Hrest IH]; intros snapshot Hrel;
    [exact Hrel|].
  cbn [fold_apply].
  assert (Hprops : properties_typed (Event.payload e) = true).
  { unfold event_typed in He. now apply andb_prop in He. }
  pose proof (apply_event_outcome e snapshot Hrel Hprops) as Hout.
  pose proof (apply_event_typed snapshot e) as Hkeep.
  destruct (precondition snapshot e).
  - destruct Hout as [s' Hs']. rewrite Hs' in *. cbn [bind].
    apply IH. cbn [state_of]. now apply (Hkeep s').
  - destruct Hout as [m Hm]. rewrite Hm. cbn [bind]. eauto.
Qed.

Lemma Forall_timeline (P : Event.t -> Prop) (p : Event.t -> bool)
    (events : list Event.t) :
  Forall P events -> Forall P (build_timeline (filter p events)).
Proof.
  rewrite !Forall_forall. intros H e He. apply H.
  assert (Hin : In e (filter p events)).
  { eapply Permutation_in; [|exact He].
    apply Permutation_sym, build_timeline_perm. }
  now apply filter_In in Hin.
Qed.

End TypedFold.

(** X20. On a log of the data model (payloads whose [relationships], if any,
    is a sequence of records and whose [properties], if any, is a mapping)
    [derive_snapshot] fails only with a [ValueError], never with an
    [AttributeError] or a [TypeError], and the [relationships] of the snapshot
    it returns is again absent or a sequence of records. *)
Theorem derive_snapshot_on_typed_log (events : list Event.t) (as_of : string) :
  Forall (fun e => event_typed e = true) events ->
  match derive_snapshot events as_of with
  | Ok r => relationships_typed (state_of r) = true
  | Raise x => exists m, x = ValueError m
  end.
Proof.
  intros Hall. rewrite derive_snapshot_unfold.
  pose proof (fold_apply_typed _ None
                (Forall_timeline _ (up_to as_of) _ Hall) eq_refl) as H.
  destruct (fold_apply None _) as [[s|]|x]; cbn in *; auto.
Qed.

(** The company's log is of the data model, and so is its snapshot in July. *)
Lemma derive_snapshot_on_typed_log_witness :
  match derive_snapshot Company.EVENTS "2024-07-01T00:00:00Z" with
  | Ok r => relationships_typed (state_of r) = true
  | Raise x => exists m, x = ValueError m
  end.
Proof.
  apply (derive_snapshot_on_typed_log Company.EVENTS "2024-07-01T00:00:00Z").
  repeat constructor.
Defined.

Section UniqueKeys.

Lemma keys_dict_set_other (d : dict) (k k0 : string) (v : value) :
  k0 <> k -> (In k0 (keys (dict_set d k v)) <-> In k0 (keys d)).
Proof.
  intros Hne. rewrite !dict_get_keys.
  rewrite dict_get_set_other by congruence. tauto.
Qed.

Lemma distinct_dict_set (d : dict) (k : string) (v : value) :
  distinct (keys d) = true -> distinct (keys (dict_set d k v)) = true.
Proof.
  unfold keys. induction d as [|[k0 v0] d IH]; [reflexivity|].
  cbn [map fst distinct dict_set]. intros H. apply andb_prop in H.
  destruct H as [Hk0 Hd].
  destruct (String.eqb_spec k k0) as [->|Hne]; cbn [map fst distinct].
  - now rewrite Hk0, Hd.
  - rewrite (IH Hd), andb_true_r. apply negb_true_iff in Hk0.
    apply negb_true_iff.
    destruct (existsb (String.eqb k0) (map fst (dict_set d k v))) eqn:E;
      [|reflexivity].
    apply existsb_eqb_In in E. fold (keys (dict_set d k v)) in E.
    apply keys_dict_set_other in E; [|congruence].
    apply existsb_eqb_In in E. unfold keys in E. congruence.
Qed.

Lemma unique_entries_set (d : dict) (k : string) (v : value) :
  forallb (fun kv => unique_keys (snd kv)) d = true ->
  unique_keys v = true ->
  forallb (fun kv => unique_keys (snd kv)) (dict_set d k v) = true.
Proof.
  intros Hd Hv. induction d as [|[k0 v0] d IH]; cbn [dict_set forallb snd].
  - now rewrite Hv.
  - cbn [forallb snd] in Hd. apply andb_prop in Hd. destruct Hd as [H0 Hd].
    destruct (String.eqb k k0); cbn [forallb snd].
    + now rewrite Hv, Hd.
    + now rewrite H0, IH.
Qed.

Lemma unique_keys_dict_set (d : dict) (k : string) (v : value) :
  unique_keys_dict d = true -> unique_keys v = true ->
  unique_keys_dict (dict_set d k v) = true.
Proof.
  unfold unique_keys_dict. cbn [unique_keys]. intros H Hv.
  apply andb_prop in H. destruct H as [H1 H2].
  fold (keys d) in H1. fold (keys (dict_set d k v)).
  now rewrite distinct_dict_set, unique_entries_set.
Qed.

Lemma unique_keys_dict_update (src d : dict) :
  unique_keys_dict d = true ->
  forallb (fun kv => unique_keys (snd kv)) src = true ->
  unique_keys_dict (dict_update d src) = true.
Proof.
  unfold dict_update. revert d.
  induction src as [|[k v] src IH]; intros d Hd Hsrc; [exact Hd|].
  cbn [forallb snd] in Hsrc. apply andb_prop in Hsrc.
  destruct Hsrc as [Hv Hsrc]. cbn [fold_left fst snd].
  apply IH; [|exact Hsrc]. now apply unique_keys_dict_set.
Qed.

Lemma unique_keys_dict_entries (d : dict) :
  unique_keys_dict d = true ->
  forallb (fun kv => unique_keys (snd kv)) d = true.
Proof.
  unfold unique_keys_dict. cbn [unique_keys]. intros H.
  now apply andb_prop in H.
Qed.

Lemma relationships_of_unique (st : dict) :
  unique_keys_dict st = true ->
  forallb unique_keys (relationships_of st) = true.
Proof.
  intros H. pose proof (get_or_unique_keys st "relationships" H) as Hg.
  unfold relationships_of, get_or in *.
  destruct (dict_get st "relationships") as [[| | | | |rs|]|]; auto.
Qed.

Lemma added_record_unique (payload : dict) :
  unique_keys_dict payload = true ->
  unique_keys (VDict (added_record payload)) = true.
Proof.
  intros H. unfold added_record.
  apply (unique_keys_dict_update (properties_of payload)).
  - unfold unique_keys_dict. cbn.
    unfold rel_type_of, target_of.
    now rewrite !get_or_unique_keys by exact H.
  - pose proof (get_or_unique_keys payload "properties" H) as Hg.
    unfold properties_of, get_or in *.
    destruct (dict_get payload "properties") as [[| | | | | |props]|];
      try reflexivity.
    now apply unique_keys_dict_entries.
Qed.

Lemma tombstone_unique (st : dict) :
  unique_keys_dict st = true ->
  unique_keys_dict [("_deleted_state", VDict st)] = true.
Proof.
  unfold unique_keys_dict. intros H.
  change (unique_keys (VDict [("_deleted_state", VDict st)]))
    with (true && (unique_keys (VDict st) && true)).
  now rewrite H.
Qed.

(** The reducer returns states whose dictionaries have distinct keys. *)
Lemma apply_event_unique_keys (snapshot : option Snapshot.t)
    (event : Event.t) (s' : Snapshot.t) :
  unique_keys_dict (state_of snapshot) = true ->
  payload_unique event = true ->
  apply_event snapshot event = Ok s' ->
  unique_keys_dict (Snapshot.state s') = true.
Proof.
  unfold payload_unique. intros Hst Hp Hok.
  destruct (String.eqb_spec (Event.event_type event) "created") as [Hc|Hc].
  - rewrite (apply_created _ _ Hc) in Hok.
    destruct (live snapshot); [discriminate|]. now injection Hok as <-.
  - destruct (mutating (Event.event_type event)) as [act|] eqn:Hm;
      [|rewrite (apply_unknown _ _ Hc Hm) in Hok; discriminate].
    destruct snapshot as [s|];
      [|rewrite (apply_absent _ _ Hm) in Hok; discriminate].
    cbn [state_of] in Hst.
    destruct (Snapshot.deleted s) eqn:Hdel;
      [rewrite (apply_deleted_snapshot _ _ _ Hm Hdel) in Hok; discriminate|].
    pose proof (mutating_inv _ _ Hm) as Hty.
    destruct act.
    + rewrite (apply_updated _ _ Hty Hdel) in Hok. injection Hok as <-.
      cbn [produced Snapshot.state].
      apply unique_keys_dict_update; [exact Hst|].
      now apply unique_keys_dict_entries.
    + rewrite (apply_deleted _ _ Hty Hdel) in Hok. injection Hok as <-.
      cbn [produced Snapshot.state]. now apply tombstone_unique.
    + destruct (added_ok_typed _ _ _ Hty Hdel Hok) as [Hshape Hprops].
      rewrite (apply_added _ _ Hdel Hty Hshape Hprops) in Hok.
      injection Hok as <-. cbn [produced Snapshot.state].
      apply unique_keys_dict_set; [exact Hst|].
      cbn [unique_keys]. rewrite forallb_app.
      rewrite relationships_of_unique by exact Hst.
      cbn [forallb andb]. rewrite andb_true_r.
      now apply added_record_unique.
    + pose proof (removed_ok_typed _ _ _ Hty Hdel Hok) as Hrel.
      rewrite (apply_removed _ _ Hdel Hty Hrel) in Hok.
      destruct (has_match _ _); [|discriminate]. injection Hok as <-.
      cbn [produced Snapshot.state].
      apply unique_keys_dict_set; [exact Hst|].
      cbn [unique_keys]. apply forallb_filter.
      now apply relationships_of_unique.
Qed.

Lemma fold_apply_unique_keys (l : list Event.t)
    (snapshot r : option Snapshot.t) :
  Forall (fun e => payload_unique e = true) l ->
  unique_keys_dict (state_of snapshot) = true ->
  fold_apply snapshot l = Ok r ->
  unique_keys_dict (state_of r) = true.
Proof.
  intros Hall. revert snapshot.
  induction Hall as [|e rest He Hrest IH]; intros snapshot Hst.
  - now intros [= <-].
  - cbn [fold_apply].
    destruct (apply_event snapshot e) as [s'|x] eqn:E; cbn [bind];
      [|discriminate].
    apply IH. cbn [state_of]. eapply apply_event_unique_keys; eauto.
Qed.

Lemma nan_field_found (d : dict) :
  no_nan_field d = false -> exists k v, In (k, v) d /\ is_nan v = true.
Proof.
  unfold no_nan_field. induction d as [|[k v] d IH]; [discriminate|].
  cbn [forallb snd]. destruct (is_nan v) eqn:E; cbn [negb andb].
  - intros _. exists k, v. split; [now left|exact E].
  - intros H. destruct (IH H) as [k' [v' [Hin Hv]]].
    exists k', v'. split; [now right|exact Hv].
Qed.

(** Snapshots with the same state and flag differ in nothing, unless a field
    is a NaN, which differs from itself. *)
Lemma diff_of_equal_states (a b : option Snapshot.t) :
  state_of a = state_of b ->
  deleted_of a = deleted_of b ->
  unique_keys_dict (state_of a) = true ->
  Diff.changes (compute_diff a b) = [] <-> no_nan_field (state_of a) = true.
Proof.
  intros Hst Hdel Hu. rewrite compute_diff_changes.
  unfold deleted_change. rewrite Hdel, Bool.eqb_reflx. cbn [negb app].
  rewrite <- Hst. split.
  - intros H. destruct (no_nan_field (state_of a)) eqn:Hn; [reflexivity|].
    exfalso. destruct (nan_field_found _ Hn) as [k [v [Hin Hv]]].
    apply map_eq_nil in H.
    assert (Hget : dict_get (state_of a) k = Some v).
    { apply dict_get_entry; [|exact Hin].
      unfold unique_keys_dict in Hu. cbn [unique_keys] in Hu.
      now apply andb_prop in Hu. }
    assert (Hk : In k (filter
                         (fun k => py_ne (get_or (state_of a) k VNone)
                                         (get_or (state_of a) k VNone))
                         (sorted_union (keys (state_of a))
                                       (keys (state_of a))))).
    { apply filter_In. split.
      - apply sorted_union_In. left. apply dict_get_keys. eauto.
      - unfold py_ne, get_or. rewrite Hget.
        now rewrite (py_eq_nan v Hv). }
    rewrite H in Hk. destruct Hk.
  - intros Hn. rewrite filter_none; [reflexivity|].
    intros k _. unfold py_ne.
    now rewrite py_eq_refl
      by (apply get_or_unique_keys, Hu || apply get_or_not_nan, Hn).
Qed.

End UniqueKeys.

(** X21. Where no event falls between two times, the state does not change
    between them: if every event of the log at or before [t2] is at or before
    [t1], the snapshots [derive_snapshot] returns at [t1] and at [t2] have the
    same state and flag, and [compute_diff] reports no change between them
    exactly when no field of that state is a float NaN (a NaN field is
    unequal to itself and is reported as changed).
    ([payload_unique]: the payloads are Python dictionaries.) *)
Theorem no_event_between_no_change
    (events : list Event.t) (t1 t2 : string) (r1 r2 : option Snapshot.t) :
  Forall (fun e => payload_unique e = true) events ->
  String.leb t1 t2 = true ->
  (forall e, In e events -> up_to t2 e = true -> up_to t1 e = true) ->
  derive_snapshot events t1 = Ok r1 ->
  derive_snapshot events t2 = Ok r2 ->
  state_of r1 = state_of r2 /\
  deleted_of r1 = deleted_of r2 /\
  (Diff.changes (compute_diff r1 r2) = [] <->
   no_nan_field (state_of r2) = true).
Proof.
  intros Hall Hle Hnone. rewrite !derive_snapshot_unfold.
  assert (Hsame : filter (up_to t1) events = filter (up_to t2) events).
  { apply filter_agree. intros e He.
    destruct (up_to t2 e) eqn:E2.
    - now apply Hnone.
    - destruct (up_to t1 e) eqn:E1; [|reflexivity].
      unfold up_to in *. rewrite (str_leb_trans _ _ _ E1 Hle) in E2.
      discriminate. }
  rewrite Hsame.
  destruct (fold_apply None (build_timeline (filter (up_to t2) events)))
    as [r|x] eqn:Hf; cbn [bind]; [|discriminate].
  intros [= <-] [= <-].
  assert (Hu : unique_keys_dict (state_of r) = true).
  { apply (fold_apply_unique_keys
             (build_timeline (filter (up_to t2) events)) None r);
      [now apply Forall_timeline|reflexivity|exact Hf]. }
  assert (Hst : state_of (option_map (fun s => Snapshot.set_as_of s t1) r) =
                state_of (option_map (fun s => Snapshot.set_as_of s t2) r))
    by now destruct r.
  assert (Hdel : deleted_of (option_map (fun s => Snapshot.set_as_of s t1) r) =
                 deleted_of (option_map (fun s => Snapshot.set_as_of s t2) r))
    by now destruct r.
  split; [exact Hst|]. split; [exact Hdel|].
  rewrite <- Hst.
  apply diff_of_equal_states; [exact Hst|exact Hdel|].
  now destruct r.
Qed.

(** Nothing happens to the company between July and August. *)
Lemma no_event_between_no_change_witness :
  exists r1 r2,
    derive_snapshot Company.EVENTS "2024-07-01T00:00:00Z" = Ok r1 /\
    derive_snapshot Company.EVENTS "2024-08-01T00:00:00Z" = Ok r2 /\
    state_of r1 = state_of r2 /\
    deleted_of r1 = deleted_of r2 /\
    (Diff.changes (compute_diff r1 r2) = [] <->
     no_nan_field (state_of r2) = true).
Proof.
  eexists. eexists. split; [reflexivity|]. split; [reflexivity|].
  apply (no_event_between_no_change Company.EVENTS
           "2024-07-01T00:00:00Z" "2024-08-01T00:00:00Z").
  - repeat constructor.
  - reflexivity.
  - intros e He.
    repeat (destruct He as [<-|He]; [vm_compute; auto; discriminate|]).
    destruct He.
  - reflexivity.
  - reflexivity.
Defined.

(** ** More on validate_event *)

Section Accepted.

Variable iso_ok : string -> bool.
Variable event : dict.

Lemma filter_nil_iff {A : Type} (p : A -> bool) (l : list A) :
  filter p l = [] <-> forall x, In x l -> p x = false.
Proof.
  split; [|apply filter_none].
  intros H x Hx. destruct (p x) eqn:E; [|reflexivity].
  assert (Hin : In x (filter p l)) by (apply filter_In; auto).
  rewrite H in Hin. destruct Hin.
Qed.

(** Only a string equals a string. *)
Lemma py_eq_str (v : value) (t : string) :
  py_eq v (VStr t) = true <-> v = VStr t.
Proof.
  destruct v; cbn [py_eq]; try (split; discriminate).
  rewrite String.eqb_eq. split; congruence.
Qed.

Lemma known_type_iff :
  existsb (fun t => py_eq (get_or event "event_type" VNone) (VStr t))
    valid_types = true <->
  exists t, In t valid_types /\ dict_get event "event_type" = Some (VStr t).
Proof.
  rewrite existsb_exists. unfold get_or.
  split; intros [t [Hin H]]; exists t; split; auto.
  - apply py_eq_str in H.
    destruct (dict_get event "event_type"); [congruence|discriminate].
  - rewrite H. now apply py_eq_str.
Qed.

Lemma parse_timestamp_ok (ts : value) :
  parse_timestamp iso_ok ts = Ok tt <->
  exists s, ts = VStr s /\ iso_ok (replace_Z s) = true.
Proof.
  destruct ts as [| | | |s| |]; cbn [parse_timestamp];
    try (split; [discriminate|intros [s' [H _]]; discriminate]).
  unfold fromisoformat. split.
  - destruct (iso_ok (replace_Z s)) eqn:E; [eauto|discriminate].
  - intros [s' [[= <-] ->]]. reflexivity.
Qed.

End Accepted.

Section ReplaceZ.

Lemma replace_Z_app (a b : string) :
  replace_Z (a ++ b) = (replace_Z a ++ replace_Z b)%string.
Proof.
  induction a as [|c a IH]; [reflexivity|].
  cbn [String.append replace_Z]. rewrite IH.
  destruct (Ascii.eqb c "Z"); [|reflexivity].
  reflexivity.
Qed.

Lemma replace_Z_free (p : string) :
  has_char "Z" p = false -> replace_Z p = p.
Proof.
  induction p as [|c p IH]; [reflexivity|].
  cbn [has_char replace_Z]. intros H. apply orb_false_iff in H.
  destruct H as [Hc Hp]. rewrite Hc. now rewrite IH.
Qed.

(** Replacing each [Z] rejoins the pieces between them with [+00:00]. *)
Lemma replace_Z_join (parts : list string) :
  Forall (fun p => has_char "Z" p = false) parts ->
  replace_Z (join "Z" parts) = join "+00:00" parts.
Proof.
  induction 1 as [|p rest Hp Hrest IH]; [reflexivity|].
  cbn [join]. destruct rest as [|q rest]; [now apply replace_Z_free|].
  rewrite !replace_Z_app, IH, (replace_Z_free p Hp). reflexivity.
Qed.

Lemma split_Z_cons (s : string) : exists p rest, split_Z s = p :: rest.
Proof.
  destruct s as [|c s]; [cbn; eauto|].
  cbn [split_Z]. destruct (Ascii.eqb c "Z"); [eauto|].
  destruct (split_Z s); eauto.
Qed.

Lemma split_Z_join (s : string) : join "Z" (split_Z s) = s.
Proof.
  induction s as [|c s IH]; [reflexivity|].
  cbn [split_Z]. destruct (split_Z_cons s) as [p [rest E]].
  rewrite E in *.
  destruct (Ascii.eqb_spec c "Z") as [->|Hc].
  - change (join "Z" (EmptyString :: p :: rest))
      with (String "Z" (join "Z" (p :: rest))).
    now rewrite IH.
  - rewrite <- IH. destruct rest as [|q rest]; reflexivity.
Qed.

Lemma split_Z_free (s : string) :
  Forall (fun p => has_char "Z" p = false) (split_Z s).
Proof.
  induction s as [|c s IH]; [repeat constructor|].
  cbn [split_Z]. destruct (Ascii.eqb c "Z") eqn:Hc.
  - constructor; [reflexivity|exact IH].
  - destruct (split_Z s) as [|p rest].
    + repeat constructor. cbn [has_char]. now rewrite Hc.
    + inversion IH; subst. constructor; [|assumption].
      cbn [has_char]. now rewrite Hc.
Qed.

End ReplaceZ.

(** X22. [validate_event] returns the empty list exactly on a well-formed
    event: the five fields [id], [entity_id], [event_type], [timestamp] and
    [payload] are present, [event_type] is one of the five strings [created],
    [updated], [deleted], [relationship_added] and [relationship_removed],
    and [timestamp] is a string that the parser accepts once every [Z] in it
    is replaced by [+00:00]: cut at each [Z], its pieces joined by [+00:00]
    are accepted. *)
Theorem validate_event_accepts_iff (iso_ok : string -> bool) (event : dict) :
  validate_event iso_ok event = Ok [] <->
  (dict_mem event "id" = true /\
   dict_mem event "entity_id" = true /\
   dict_mem event "event_type" = true /\
   dict_mem event "timestamp" = true /\
   dict_mem event "payload" = true) /\
  (exists t,
     (t = "created" \/ t = "updated" \/ t = "deleted" \/
      t = "relationship_added" \/ t = "relationship_removed") /\
     dict_get event "event_type" = Some (VStr t)) /\
  (exists parts,
     Forall (fun p => has_char "Z" p = false) parts /\
     dict_get event "timestamp" = Some (VStr (join "Z" parts)) /\
     iso_ok (join "+00:00" parts) = true).
Proof.
  assert (Hreq : (forall f, In f required -> dict_mem event f = true) <->
                 dict_mem event "id" = true /\
                 dict_mem event "entity_id" = true /\
                 dict_mem event "event_type" = true /\
                 dict_mem event "timestamp" = true /\
                 dict_mem event "payload" = true).
  { split.
    - intros H. repeat split; apply H; cbn; auto 6.
    - intros [H1 [H2 [H3 [H4 H5]]]] f Hf. cbn in Hf.
      destruct Hf as [<-|[<-|[<-|[<-|[<-|[]]]]]]; assumption. }
  assert (Hty : (exists t, In t valid_types /\
                           dict_get event "event_type" = Some (VStr t)) <->
                (exists t,
                   (t = "created" \/ t = "updated" \/ t = "deleted" \/
                    t = "relationship_added" \/
                    t = "relationship_removed") /\
                   dict_get event "event_type" = Some (VStr t))).
  { split; intros [t [Hin H]]; exists t; (split; [|exact H]).
    - cbn in Hin.
      destruct Hin as [<-|[<-|[<-|[<-|[<-|[]]]]]]; auto 6.
    - cbn. destruct Hin as [->|[->|[->|[->| ->]]]]; auto 6. }
  assert (Hts : (exists s, dict_get event "timestamp" = Some (VStr s) /\
                           iso_ok (replace_Z s) = true) <->
                (exists parts,
                   Forall (fun p => has_char "Z" p = false) parts /\
                   dict_get event "timestamp" =
                     Some (VStr (join "Z" parts)) /\
                   iso_ok (join "+00:00" parts) = true)).
  { split.
    - intros [s [Hs Hok]]. exists (split_Z s).
      split; [apply split_Z_free|]. rewrite split_Z_join.
      split; [exact Hs|].
      rewrite <- (replace_Z_join _ (split_Z_free s)).
      now rewrite split_Z_join.
    - intros [parts [Hfree [Hs Hok]]]. exists (join "Z" parts).
      split; [exact Hs|]. now rewrite replace_Z_join. }
  rewrite <- Hreq, <- Hty, <- Hts. clear Hreq Hty Hts.
  unfold validate_event. cbv zeta. rewrite missing_fields_loop. cbn [app].
  rewrite <- known_type_iff.
  set (missing := filter (fun f => negb (dict_mem event f)) required).
  set (known := existsb _ valid_types).
  set (ts := get_or event "timestamp" (VStr "")).
  assert (Hmissing : missing = [] <->
                     forall f, In f required -> dict_mem event f = true).
  { unfold missing. rewrite filter_nil_iff. split; intros H f Hf.
    - apply negb_false_iff. now apply H.
    - apply negb_false_iff. now apply H. }
  assert (Hts : (forall f, In f required -> dict_mem event f = true) ->
                (parse_timestamp iso_ok ts = Ok tt <->
                 exists s, dict_get event "timestamp" = Some (VStr s) /\
                           iso_ok (replace_Z s) = true)).
  { intros Hall. rewrite parse_timestamp_ok.
    assert (Hmem : dict_mem event "timestamp" = true)
      by (apply Hall; cbn; auto).
    unfold dict_mem in Hmem. unfold ts, get_or.
    destruct (dict_get event "timestamp") as [v|]; [|discriminate].
    split; intros [s [H1 H2]]; exists s; split; congruence. }
  split.
  - intros H.
    assert (Hparse : parse_timestamp iso_ok ts = Ok tt /\
                     (if negb known
                      then map MissingField missing ++
                           [InvalidEventType (get_or event "event_type" VNone)]
                      else map MissingField missing) = []).
    { destruct (parse_timestamp iso_ok ts) as [[]|[m| |]];
        try discriminate.
      - split; [reflexivity|]. now injection H.
      - injection H as H. now apply app_eq_nil in H.
      - injection H as H. now apply app_eq_nil in H. }
    destruct Hparse as [Hparse Hnil].
    destruct known; cbn [negb] in Hnil;
      [|apply app_eq_nil in Hnil; destruct Hnil; discriminate].
    apply map_eq_nil in Hnil. pose proof (proj1 Hmissing Hnil) as Hall.
    split; [exact Hall|]. split; [reflexivity|]. now apply (Hts Hall).
  - intros [Hall [Hknown Hparse]].
    rewrite (proj2 (Hts Hall) Hparse), (proj2 Hmissing Hall), Hknown.
    reflexivity.
Qed.

(** The founding event of the company, as a dictionary, is well-formed. *)
Lemma validate_event_accepts_iff_witness :
  validate_event Company.iso_like
    [("id", VStr "evt-001"); ("entity_id", VStr "company-123");
     ("event_type", VStr "created");
     ("timestamp", VStr "2024-01-01T00:00:00Z");
     ("payload", VDict [("name", VStr "Acme Corp")])] = Ok [].
Proof.
  apply (proj2 (validate_event_accepts_iff Company.iso_like _)).
  split; [repeat split|]. split.
  - exists "created". split; [auto|reflexivity].
  - exists ["2024-01-01T00:00:00"; ""].
    split; [repeat constructor|]. split; reflexivity.
Defined.
